(** * Isotope: variable import / export engine

    A shallow embedding of [src/code.ts] (the Figma plugin "Isotope") and
    proofs about its token normaliser, its three-pass import reconciler, its
    alias resolver, its value coercions and two of its export serialisers.

    The source file holds two revisions of the plugin.  The second one (the
    DTCG-aware revision, the second half of [code.ts]) is embedded at top
    level; the pieces of the first revision that differ and are referred to
    are in [Module Rev1].

    Modelling conventions
    - A JavaScript value is a [val]; an array is an object whose own
      properties are its indices ([ArrayObject]).  The property list of an
      object is in the order [Object.entries] enumerates it.
    - A JavaScript number is idealised to an exact rational ([NFinite]),
      with the two infinities and NaN apart; IEEE rounding is not modelled.
    - Strings are sequences of 8-bit code units; case mapping acts on the
      ASCII letters.
    - The host ([figma.variables]) is a store of collections and variables.
      A handle to a host object is its position in the store (the import
      never removes anything).  What the host decides on its own (which
      collections, modes, variables and value assignments it refuses, how
      it parses a colour) is a parameter, [Environment]: each call of the
      host that changes the store may throw. *)

From Stdlib Require Import ZArith QArith Qround Lqa String Ascii List Bool Lia.
From Stdlib Require Import DecimalString.
From stdpp Require Import gmap strings.
Import ListNotations.
Local Open Scope string_scope.
Local Open Scope list_scope.
Set Warnings "-register-all".

(* ================================================================== *)
(** * JavaScript strings *)
(* ================================================================== *)

Module JsString.

(** [s.startsWith(p)] *)
Definition startsWith (s p : string) : bool := String.prefix p s.

(** [s.endsWith(p)] *)
Definition endsWith (s p : string) : bool :=
  let n := String.length s in
  let m := String.length p in
  (m <=? n)%nat && String.eqb (String.substring (n - m) m s) p.

(** [s.includes(p)] *)
Fixpoint includes (s p : string) : bool :=
  String.prefix p s ||
  match s with
  | EmptyString => false
  | String _ t => includes t p
  end.

(** [s.substring(a, b)]: both indices are clamped to the length and
    swapped when [a > b]. *)
Definition substring (s : string) (a b : nat) : string :=
  let n := String.length s in
  let a' := Nat.min a n in
  let b' := Nat.min b n in
  String.substring (Nat.min a' b') (Nat.max a' b' - Nat.min a' b') s.

(** [s.slice(1)] *)
Definition slice1 (s : string) : string :=
  match s with
  | EmptyString => EmptyString
  | String _ t => t
  end.

(** [s.split(sep)] for a one-character separator. *)
Fixpoint split (sep : ascii) (s : string) : list string :=
  match s with
  | EmptyString => [EmptyString]
  | String c t =>
      if Ascii.eqb c sep then EmptyString :: split sep t
      else match split sep t with
           | h :: r => String c h :: r
           | [] => [String c EmptyString]
           end
  end.

(** [parts.join(sep)] *)
Definition join (sep : string) (parts : list string) : string :=
  String.concat sep parts.

Definition lower_ascii (c : ascii) : ascii :=
  let n := nat_of_ascii c in
  if (65 <=? n)%nat && (n <=? 90)%nat then ascii_of_nat (n + 32) else c.

Definition upper_ascii (c : ascii) : ascii :=
  let n := nat_of_ascii c in
  if (97 <=? n)%nat && (n <=? 122)%nat then ascii_of_nat (n - 32) else c.

Fixpoint map_ascii (f : ascii -> ascii) (s : string) : string :=
  match s with
  | EmptyString => EmptyString
  | String c t => String (f c) (map_ascii f t)
  end.

(** [s.toLowerCase()], [s.toUpperCase()] *)
Definition toLowerCase : string -> string := map_ascii lower_ascii.
Definition toUpperCase : string -> string := map_ascii upper_ascii.

(** A string used as a condition: empty is falsy. *)
Definition truthy (s : string) : bool := negb (String.eqb s EmptyString).

(** Decimal rendering of a counter or an index. *)
Definition of_nat (n : nat) : string :=
  NilZero.string_of_uint (Nat.to_uint n).

End JsString.

(* ================================================================== *)
(** * JavaScript values *)
(* ================================================================== *)

Inductive number : Type :=
| NFinite (q : Q)
| NInfinity (negative : bool)
| NNaN.

Inductive ObjKind : Type := PlainObject | ArrayObject.

Inductive val : Type :=
| VUndefined
| VNull
| VBool (b : bool)
| VNum (n : number)
| VStr (s : string)
| VObj (kind : ObjKind) (props : list (string * val)).

(** Induction over the nesting of a value. *)
Lemma value_nested_ind (P : val -> Prop) :
  P VUndefined -> P VNull -> (forall b, P (VBool b)) ->
  (forall n, P (VNum n)) -> (forall s, P (VStr s)) ->
  (forall kind props, Forall (fun kv => P (snd kv)) props -> P (VObj kind props)) ->
  forall v, P v.
Proof.
  intros Hu Hn Hb Hnum Hs Ho.
  fix IH 1.
  intros [ | | b | n | s | kind props].
  - exact Hu.
  - exact Hn.
  - apply Hb.
  - apply Hnum.
  - apply Hs.
  - apply Ho.
    induction props as [|[k x] rest IHrest]; constructor.
    + simpl. apply IH.
    + exact IHrest.
Qed.

Module Js.

(** A value used as a condition. *)
Definition truthy (v : val) : bool :=
  match v with
  | VUndefined | VNull => false
  | VBool b => b
  | VNum (NFinite q) => negb (Qeq_bool q 0)
  | VNum (NInfinity _) => true
  | VNum NNaN => false
  | VStr s => JsString.truthy s
  | VObj _ _ => true
  end.

(** [a || b] *)
Definition or (a b : val) : val := if truthy a then a else b.

(** [typeof v === 'object'], with [null] included as in JavaScript. *)
Definition typeof_object (v : val) : bool :=
  match v with
  | VNull | VObj _ _ => true
  | _ => false
  end.

Definition typeof_string (v : val) : bool :=
  match v with VStr _ => true | _ => false end.

Fixpoint lookup (k : string) (props : list (string * val)) : option val :=
  match props with
  | [] => None
  | (k', x) :: rest => if String.eqb k' k then Some x else lookup k rest
  end.

(** Own properties of a value; a string has its characters. *)
Fixpoint chars (i : nat) (s : string) : list (string * val) :=
  match s with
  | EmptyString => []
  | String c t => (JsString.of_nat i, VStr (String c EmptyString)) :: chars (S i) t
  end.

Definition ownProps (v : val) : list (string * val) :=
  match v with
  | VObj _ props => props
  | VStr s => chars 0 s
  | _ => []
  end.

(** [k in v], for the keys the plugin tests (none of them inherited). *)
Definition has (k : string) (v : val) : bool :=
  match v with
  | VObj _ props => match lookup k props with Some _ => true | None => false end
  | _ => false
  end.

(** [v.k] / [v[k]]; a missing property reads as [undefined]. *)
Definition get (v : val) (k : string) : val :=
  match lookup k (ownProps v) with
  | Some x => x
  | None => VUndefined
  end.

Definition is_undefined (v : val) : bool :=
  match v with VUndefined => true | _ => false end.

End Js.

(** Exceptions: a computation returns or throws; the payload of [Throw]
    is what [String(err)] renders. *)
Inductive Result (A : Type) : Type :=
| Ok (a : A)
| Throw (err : string).
Arguments Ok {A} a.
Arguments Throw {A} err.

Definition TypeError_entries : string :=
  "TypeError: Cannot convert undefined or null to object".
Definition TypeError_toLowerCase : string :=
  "TypeError: jsonType.toLowerCase is not a function".

Module JsObject.

(** [Object.entries(v)] *)
Definition entries (v : val) : Result (list (string * val)) :=
  match v with
  | VUndefined | VNull => Throw TypeError_entries
  | _ => Ok (Js.ownProps v)
  end.

(** [Object.keys(v)] *)
Definition keys (v : val) : Result (list string) :=
  match v with
  | VUndefined | VNull => Throw TypeError_entries
  | _ => Ok (map fst (Js.ownProps v))
  end.

End JsObject.

(** A JavaScript [Map<string, _>]: insertion-ordered, [set] on a present
    key keeps its place. *)
Module JsMap.

Abbreviation t A := (list (string * A)).

Fixpoint set {A} (k : string) (x : A) (m : t A) : t A :=
  match m with
  | [] => [(k, x)]
  | (k', x') :: rest =>
      if String.eqb k' k then (k, x) :: rest else (k', x') :: set k x rest
  end.

Fixpoint get {A} (k : string) (m : t A) : option A :=
  match m with
  | [] => None
  | (k', x) :: rest => if String.eqb k' k then Some x else get k rest
  end.

(** [for (const [k, x] of src) dst.set(k, x)] *)
Definition merge {A} (dst src : t A) : t A :=
  fold_left (fun acc kx => set (fst kx) (snd kx) acc) src dst.

End JsMap.

(* ================================================================== *)
(** * Type tags *)
(* ================================================================== *)

Inductive VariableResolvedDataType : Type := COLOR | FLOAT | BOOLEAN | STRING.

Definition resolvedType_name (t : VariableResolvedDataType) : string :=
  match t with
  | COLOR => "COLOR" | FLOAT => "FLOAT" | BOOLEAN => "BOOLEAN" | STRING => "STRING"
  end.

(** [mapJsonTypeToFigmaType]; calling [toLowerCase] on anything but a
    string throws. *)
Definition mapJsonTypeToFigmaType (jsonType : val) : Result VariableResolvedDataType :=
  match jsonType with
  | VStr s =>
      let type := JsString.toLowerCase s in
      if String.eqb type "color" then Ok COLOR
      else if String.eqb type "number" then Ok FLOAT
      else if String.eqb type "boolean" then Ok BOOLEAN
      else if String.eqb type "string" then Ok STRING
      else Ok STRING
  | _ => Throw TypeError_toLowerCase
  end.

(* ================================================================== *)
(** * Token normaliser: [flattenVariables] *)
(* ================================================================== *)

(** The path of a child: [prefix ? `${prefix}/${key}` : key]. *)
Definition newKey (prefix key : string) : string :=
  if JsString.truthy prefix then prefix ++ "/" ++ key else key.

(** Second revision: both dialects, normalised to the DTCG names. *)

Definition isVariable (value : val) : bool :=
  let hasDTCGType := Js.has "$type" value in
  let hasDTCGValue := Js.has "$value" value in
  let hasLegacyType := Js.has "type" value in
  let hasLegacyValue := Js.has "value" value in
  (hasDTCGType && hasDTCGValue) || (hasLegacyType && hasLegacyValue).

Definition isLegacy (value : val) : bool :=
  let hasDTCGType := Js.has "$type" value in
  let hasDTCGValue := Js.has "$value" value in
  let hasLegacyType := Js.has "type" value in
  let hasLegacyValue := Js.has "value" value in
  negb hasDTCGType && negb hasDTCGValue && (hasLegacyType || hasLegacyValue).

Definition normalized (value : val) : val :=
  VObj PlainObject
    [ ("$type", Js.or (Js.get value "$type") (Js.get value "type"));
      ("$value", if negb (Js.is_undefined (Js.get value "$value"))
                 then Js.get value "$value" else Js.get value "value");
      ("$description", Js.or (Js.get value "$description") (Js.get value "description")) ].

Definition skippedKey (key : string) : bool :=
  JsString.startsWith key "_" || JsString.startsWith key "$".

(** The traversal of an object that is already known to be one.  The
    state is the [result] map under construction and the [hasLegacy]
    field of the shared [warnLegacy] object. *)
Fixpoint flattenObject (obj : val) (prefix : string) (hasLegacy : bool)
  {struct obj} : JsMap.t val * bool :=
  match obj with
  | VObj _ props =>
      (fix loop (entries : list (string * val)) (result : JsMap.t val)
           (hasLegacy : bool) {struct entries} : JsMap.t val * bool :=
         match entries with
         | [] => (result, hasLegacy)
         | (key, value) :: rest =>
             if skippedKey key then loop rest result hasLegacy
             else
               match value with
               | VObj _ _ =>
                   if isVariable value then
                     loop rest
                       (JsMap.set (newKey prefix key) (normalized value) result)
                       (if isLegacy value then true else hasLegacy)
                   else
                     let '(children, hasLegacy') :=
                       flattenObject value (newKey prefix key) hasLegacy in
                     loop rest (JsMap.merge result children) hasLegacy'
               | _ => loop rest result hasLegacy
               end
         end) props [] hasLegacy
  | _ => ([], hasLegacy)
  end.

(** One iteration of the [for ... of Object.entries(obj)] loop. *)
Definition flattenEntry (prefix : string) (entry : string * val)
  (st : JsMap.t val * bool) : JsMap.t val * bool :=
  let '(key, value) := entry in
  let '(result, hasLegacy) := st in
  if skippedKey key then st
  else
    match value with
    | VObj _ _ =>
        if isVariable value then
          (JsMap.set (newKey prefix key) (normalized value) result,
           if isLegacy value then true else hasLegacy)
        else
          let '(children, hasLegacy') :=
            flattenObject value (newKey prefix key) hasLegacy in
          (JsMap.merge result children, hasLegacy')
    | _ => st
    end.

(** [flattenVariables(obj, prefix, warnLegacy)]: [Object.entries] throws
    on [null] and [undefined]; a string has only character entries and a
    number or boolean has none, so nothing is collected from them. *)
Definition flattenVariables (obj : val) (prefix : string) (hasLegacy : bool)
  : Result (JsMap.t val * bool) :=
  match obj with
  | VUndefined | VNull => Throw TypeError_entries
  | _ => Ok (flattenObject obj prefix hasLegacy)
  end.

Lemma flattenObject_loop kind props prefix hasLegacy :
  flattenObject (VObj kind props) prefix hasLegacy
  = fold_left (fun st e => flattenEntry prefix e st) props ([], hasLegacy).
Proof.
  simpl. generalize (@nil (string * val)) as result. revert hasLegacy.
  induction props as [|[key x] rest IH]; intros hasLegacy result; [reflexivity|].
  simpl fold_left. unfold flattenEntry.
  destruct (skippedKey key); [apply IH|].
  destruct x; try apply IH.
  destruct (isVariable _); [apply IH|].
  destruct (flattenObject _ _ _); apply IH.
Qed.

(* ================================================================== *)
(** * The host: collections, modes, variables *)
(* ================================================================== *)

Record Mode : Type := { modeId : string; mode_name : string }.

Record VariableCollection : Type :=
  { collection_id : string;
    collection_name : string;
    collection_modes : list Mode }.

Record HostVariable : Type :=
  { variable_id : string;
    variable_name : string;
    variableCollectionId : string;
    resolvedType : VariableResolvedDataType;
    description : string;
    valuesByMode : gmap string val }.

Record Host : Type :=
  { collections : list VariableCollection;
    variables : list HostVariable;
    allocated : nat }.

(** A reference to a host object: where it sits in the store, and what
    it looked like when the reference was taken (its [id] never changes). *)
Definition Ref (A : Type) : Type := (nat * A)%type.

(** [list.find(pred)], with the position of the element found. *)
Fixpoint find_from {A} (pred : A -> bool) (l : list A) (i : nat) : option (Ref A) :=
  match l with
  | [] => None
  | x :: rest => if pred x then Some (i, x) else find_from pred rest (S i)
  end.

Definition js_find {A} (pred : A -> bool) (l : list A) : option (Ref A) :=
  find_from pred l 0.

Inductive Level : Type := INFO | WARN | ERROR.

(** What the plugin posts to its UI. *)
Inductive UiMessage : Type :=
| MLog (level : Level) (message : string)
| MProgress (message : string)
| MImportSuccess
| MError (message : string).

Record State : Type := { host : Host; posted : list UiMessage }.

(** What the host and the engine decide and the plugin does not. *)
Class Environment : Type :=
  { (** [Number::toString], used by template literals *)
    Number_toString : number -> string;
    (** [ToNumber] of a string or an object *)
    ToNumber_other : val -> number;
    (** [figma.util.rgb(hex)] *)
    util_rgb : string -> Result val;
    (** the error [createVariable(name, collection, type)] throws, if any *)
    createVariable_error :
      Host -> string -> VariableCollection -> VariableResolvedDataType -> option string;
    (** the error [variable.setValueForMode(modeId, value)] throws, if any *)
    setValueForMode_error : Host -> HostVariable -> string -> val -> option string;
    (** the error [figma.variables.createVariableCollection(name)] throws, if any *)
    createVariableCollection_error : Host -> string -> option string;
    (** the error [collection.renameMode(modeId, newName)] throws, if any *)
    renameMode_error : Host -> VariableCollection -> string -> string -> option string;
    (** the error [collection.addMode(name)] throws, if any *)
    addMode_error : Host -> VariableCollection -> string -> option string }.

Definition quote : string := String (ascii_of_nat 34) EmptyString.

Module Figma.

Definition collection_id_of (n : nat) : string := "VariableCollectionId:" ++ JsString.of_nat n.
Definition variable_id_of (n : nat) : string := "VariableID:" ++ JsString.of_nat n.
Definition mode_id_of (n : nat) : string := "ModeId:" ++ JsString.of_nat n.

(** [figma.variables.createVariableCollection(name)]: a new collection
    starts with one mode called "Mode 1". *)
Definition createVariableCollection (name : string) (h : Host)
  : Ref VariableCollection * Host :=
  let n := allocated h in
  let c := {| collection_id := collection_id_of n;
              collection_name := name;
              collection_modes := [ {| modeId := mode_id_of (S n); mode_name := "Mode 1" |} ] |} in
  ((length (collections h), c),
   {| collections := collections h ++ [c];
      variables := variables h;
      allocated := S (S n) |}).

Definition update_at {A} (i : nat) (f : A -> A) (l : list A) : list A :=
  match l !! i with
  | Some x => <[i := f x]> l
  | None => l
  end.

(** [collection.renameMode(modeId, newName)] *)
Definition renameMode (collection : Ref VariableCollection) (id newName : string)
  (h : Host) : Host :=
  let rename (m : Mode) :=
    if String.eqb (modeId m) id then {| modeId := modeId m; mode_name := newName |} else m in
  {| collections :=
       update_at (fst collection)
         (fun c => {| collection_id := collection_id c;
                      collection_name := collection_name c;
                      collection_modes := map rename (collection_modes c) |})
         (collections h);
     variables := variables h;
     allocated := allocated h |}.

(** [collection.addMode(name)], returning the new mode's id *)
Definition addMode (collection : Ref VariableCollection) (name : string)
  (h : Host) : string * Host :=
  let n := allocated h in
  (mode_id_of n,
   {| collections :=
        update_at (fst collection)
          (fun c => {| collection_id := collection_id c;
                       collection_name := collection_name c;
                       collection_modes := collection_modes c ++ [ {| modeId := mode_id_of n; mode_name := name |} ] |})
          (collections h);
      variables := variables h;
      allocated := S n |}).

(** [figma.variables.createVariable(name, collection, type)] once the
    host has accepted it *)
Definition createVariable (name : string) (collection : Ref VariableCollection)
  (type : VariableResolvedDataType) (h : Host) : Ref HostVariable * Host :=
  let n := allocated h in
  let v := {| variable_id := variable_id_of n;
              variable_name := name;
              variableCollectionId := collection_id (snd collection);
              resolvedType := type;
              description := EmptyString;
              valuesByMode := ∅ |} in
  ((length (variables h), v),
   {| collections := collections h;
      variables := variables h ++ [v];
      allocated := S n |}).

(** [variable.setValueForMode(modeId, value)] once the host has
    accepted it *)
Definition setValueForMode (variable : Ref HostVariable) (id : string) (x : val)
  (h : Host) : Host :=
  {| collections := collections h;
     variables :=
       update_at (fst variable)
         (fun v => {| variable_id := variable_id v;
                      variable_name := variable_name v;
                      variableCollectionId := variableCollectionId v;
                      resolvedType := resolvedType v;
                      description := description v;
                      valuesByMode := <[id := x]> (valuesByMode v) |})
         (variables h);
     allocated := allocated h |}.

(** [figma.variables.createVariableAlias(variable)] *)
Definition createVariableAlias (target : HostVariable) : val :=
  VObj PlainObject [ ("type", VStr "VARIABLE_ALIAS"); ("id", VStr (variable_id target)) ].

End Figma.

(* ================================================================== *)
(** * Computations that post messages, change the host and may throw *)
(* ================================================================== *)

Definition M (A : Type) : Type := State -> Result A * State.

Definition ret {A} (a : A) : M A := fun s => (Ok a, s).

Definition bind {A B} (m : M A) (k : A -> M B) : M B :=
  fun s =>
    match m s with
    | (Ok a, s') => k a s'
    | (Throw e, s') => (Throw e, s')
    end.

Definition lift {A} (r : Result A) : M A := fun s => (r, s).

Definition try_catch {A} (body : M A) (handler : string -> M A) : M A :=
  fun s =>
    match body s with
    | (Ok a, s') => (Ok a, s')
    | (Throw e, s') => handler e s'
    end.

Declare Scope js_scope.
Delimit Scope js_scope with js.
Notation "'let*' x := m 'in' k" := (bind m (fun x => k))
  (at level 10, x name, m at level 100, k at level 200) : js_scope.
Notation "m >> k" := (bind m (fun _ => k))
  (at level 100, k at level 200, right associativity) : js_scope.
Local Open Scope js_scope.

Definition postMessage (m : UiMessage) : M unit :=
  fun s => (Ok tt, {| host := host s; posted := posted s ++ [m] |}).

(** [log(level, message)] *)
Definition log (level : Level) (message : string) : M unit :=
  postMessage (MLog level message).

Definition getLocalVariableCollections : M (list VariableCollection) :=
  fun s => (Ok (collections (host s)), s).

Definition getLocalVariables : M (list HostVariable) :=
  fun s => (Ok (variables (host s)), s).

Definition hostCall {A} (op : Host -> A * Host) : M A :=
  fun s => let '(a, h) := op (host s) in (Ok a, {| host := h; posted := posted s |}).

Definition hostUpdate (op : Host -> Host) : M unit :=
  fun s => (Ok tt, {| host := op (host s); posted := posted s |}).

(** A loop over a list with a running count of the items already seen. *)
Fixpoint for_counted {A} (l : list A) (count : nat) (body : nat -> A -> M unit) : M unit :=
  match l with
  | [] => ret tt
  | x :: rest => body count x >> for_counted rest (S count) body
  end.

(** The same, carrying a value from one iteration to the next. *)
Fixpoint for_fold_counted {A B} (l : list A) (count : nat) (acc : B)
  (body : B -> nat -> A -> M B) : M B :=
  match l with
  | [] => ret acc
  | x :: rest =>
      let* acc' := body acc count x in for_fold_counted rest (S count) acc' body
  end.

(** A loop that carries a value from one iteration to the next. *)
Fixpoint for_fold {A B} (l : list A) (acc : B) (body : B -> A -> M B) : M B :=
  match l with
  | [] => ret acc
  | x :: rest => let* acc' := body acc x in for_fold rest acc' body
  end.

(* ================================================================== *)
(** * Built-ins used by the import *)
(* ================================================================== *)

Module JsNumber.

Definition isWhiteSpace (c : ascii) : bool :=
  let n := nat_of_ascii c in
  ((9 <=? n)%nat && (n <=? 13)%nat) || (n =? 32)%nat || (n =? 160)%nat.

Fixpoint trimStart (s : string) : string :=
  match s with
  | String c t => if isWhiteSpace c then trimStart t else s
  | EmptyString => s
  end.

Definition digit_of (c : ascii) : option Z :=
  let n := nat_of_ascii c in
  if (48 <=? n)%nat && (n <=? 57)%nat then Some (Z.of_nat (n - 48)) else None.

(** Reads a run of decimal digits: its value, its length, what follows. *)
Fixpoint scanDigits (s : string) (acc : Z) (count : nat) : Z * nat * string :=
  match s with
  | String c t =>
      match digit_of c with
      | Some d => scanDigits t (10 * acc + d)%Z (S count)
      | None => (acc, count, s)
      end
  | EmptyString => (acc, count, s)
  end.

Definition isExponentIndicator (c : ascii) : bool :=
  Ascii.eqb c "e"%char || Ascii.eqb c "E"%char.

(** The exponent part, which counts only when digits follow. *)
Definition scanExponent (s : string) : Z :=
  match s with
  | String c t =>
      if isExponentIndicator c then
        let '(negative, t') :=
          match t with
          | String sign u =>
              if Ascii.eqb sign "+"%char then (false, u)
              else if Ascii.eqb sign "-"%char then (true, u)
              else (false, t)
          | EmptyString => (false, t)
          end in
        let '(e, n, _) := scanDigits t' 0%Z 0%nat in
        if (n =? 0)%nat then 0%Z else if negative then (- e)%Z else e
      else 0%Z
  | EmptyString => 0%Z
  end.

(** [parseFloat(input)]: the longest prefix that is a decimal literal,
    after leading white space; its exact value. *)
Definition parseFloat (input : string) : number :=
  let s := trimStart input in
  let '(negative, s0) :=
    match s with
    | String sign t =>
        if Ascii.eqb sign "+"%char then (false, t)
        else if Ascii.eqb sign "-"%char then (true, t)
        else (false, s)
    | EmptyString => (false, s)
    end in
  if String.prefix "Infinity" s0 then NInfinity negative
  else
    let '(intPart, n1, s1) := scanDigits s0 0%Z 0%nat in
    let '(fracPart, n2, s2) :=
      match s1 with
      | String dot t => if Ascii.eqb dot "."%char then scanDigits t 0%Z 0%nat else (0%Z, 0%nat, s1)
      | EmptyString => (0%Z, 0%nat, s1)
      end in
    if (n1 + n2 =? 0)%nat then NNaN
    else
      let e := scanExponent s2 in
      let mantissa := (intPart * 10 ^ Z.of_nat n2 + fracPart)%Z in
      let signed := if negative then (- mantissa)%Z else mantissa in
      let num := if (0 <=? e)%Z then (signed * 10 ^ e)%Z else signed in
      let den := if (0 <=? e)%Z then (10 ^ Z.of_nat n2)%Z else (10 ^ (Z.of_nat n2 - e))%Z in
      NFinite (Qred (Qmake num (Z.to_pos den))).

Definition isNaN (n : number) : bool :=
  match n with NNaN => true | _ => false end.

(** [Math.round] on a finite number: nearest integer, halves go up. *)
Definition round (q : Q) : Z := Qfloor (q + (1 # 2)).

End JsNumber.

Definition TypeError_valueToSet_toLowerCase : string :=
  "TypeError: valueToSet.toLowerCase is not a function".

Definition resolvedType_eqb (a b : VariableResolvedDataType) : bool :=
  match a, b with
  | COLOR, COLOR | FLOAT, FLOAT | BOOLEAN, BOOLEAN | STRING, STRING => true
  | _, _ => false
  end.

(** [name === target] where [name] is a string and [target] any value. *)
Definition strictEq_string (name : string) (target : val) : bool :=
  match target with
  | VStr s => String.eqb name s
  | _ => false
  end.

Definition isArray (v : val) : bool :=
  match v with VObj ArrayObject _ => true | _ => false end.

(* ================================================================== *)
(** * Import: alias detection, alias resolution, value coercion *)
(* ================================================================== *)

(** Pass 3, "Check for explicit Alias object" and "Check for String Alias
    format": [Some (targetCollectionName, targetVariableName)] when
    [isAlias] ends up true. *)
Definition aliasTarget (varData : val) : option (val * val) :=
  let valueToSet := Js.get varData "$value" in
  if Js.truthy (Js.get varData "targetCollection")
     && Js.truthy (Js.get varData "targetVariable")
  then Some (Js.get varData "targetCollection", Js.get varData "targetVariable")
  else
    match valueToSet with
    | VStr s =>
        if JsString.startsWith s "{" && JsString.endsWith s "}" then
          let content := JsString.substring s 1 (String.length s - 1) in
          let parts := JsString.split "."%char content in
          if (2 <=? length parts)%nat
          then Some (VStr (hd EmptyString parts), VStr (JsString.join "/" (tl parts)))
          else None
        else None
    | _ => None
    end.

(** "Full Spec: Parse structured values" *)
Definition unwrapStructured (valueToSet : val) : val :=
  match valueToSet with
  | VObj _ _ =>
      if Js.has "colorSpace" valueToSet && Js.has "components" valueToSet
         && isArray (Js.get valueToSet "components")
      then
        let components := Js.get valueToSet "components" in
        VObj PlainObject
          [ ("r", Js.get components "0"); ("g", Js.get components "1");
            ("b", Js.get components "2"); ("a", VNum (NFinite 1)) ]
      else if Js.has "value" valueToSet && Js.has "unit" valueToSet
      then Js.get valueToSet "value"
      else valueToSet
  | _ => valueToSet
  end.

Section ImportValues.

Context {env : Environment}.

(** What a template literal makes of a value. *)
Fixpoint toString (v : val) : string :=
  match v with
  | VUndefined => "undefined"
  | VNull => "null"
  | VBool true => "true"
  | VBool false => "false"
  | VNum n => Number_toString n
  | VStr s => s
  | VObj PlainObject _ => "[object Object]"
  | VObj ArrayObject props =>
      JsString.join ","
        ((fix elements (l : list (string * val)) : list string :=
            match l with
            | [] => []
            | (_, x) :: rest =>
                match x with
                | VUndefined | VNull => EmptyString
                | _ => toString x
                end :: elements rest
            end) props)
  end.

(** "Type conversions": COLOR, FLOAT, BOOLEAN. *)
Definition convertForType (type : VariableResolvedDataType) (valueToSet : val)
  : Result val :=
  match valueToSet with
  | VStr s =>
      if resolvedType_eqb type COLOR && JsString.startsWith s "#" then util_rgb s
      else if resolvedType_eqb type FLOAT then
        let parsed := JsNumber.parseFloat s in
        if negb (JsNumber.isNaN parsed) then Ok (VNum parsed) else Ok valueToSet
      else if resolvedType_eqb type BOOLEAN then
        let valueToSet1 :=
          if String.eqb (JsString.toLowerCase s) "true" then VBool true else valueToSet in
        match valueToSet1 with
        | VStr s1 =>
            if String.eqb (JsString.toLowerCase s1) "false" then Ok (VBool false)
            else Ok valueToSet1
        | _ => Throw TypeError_valueToSet_toLowerCase
        end
      else Ok valueToSet
  | _ => Ok valueToSet
  end.

Definition createVariable (name : string) (collection : Ref VariableCollection)
  (type : VariableResolvedDataType) : M (Ref HostVariable) :=
  fun s =>
    match createVariable_error (host s) name (snd collection) type with
    | Some e => (Throw e, s)
    | None => hostCall (Figma.createVariable name collection type) s
    end.

Definition setValueForMode (variable : Ref HostVariable) (id : string) (x : val)
  : M unit :=
  fun s =>
    match setValueForMode_error (host s) (snd variable) id x with
    | Some e => (Throw e, s)
    | None => hostUpdate (Figma.setValueForMode variable id x) s
    end.

Definition createVariableCollection (name : string) : M (Ref VariableCollection) :=
  fun s =>
    match createVariableCollection_error (host s) name with
    | Some e => (Throw e, s)
    | None => hostCall (Figma.createVariableCollection name) s
    end.

Definition renameMode (collection : Ref VariableCollection) (id newName : string) : M unit :=
  fun s =>
    match renameMode_error (host s) (snd collection) id newName with
    | Some e => (Throw e, s)
    | None => hostUpdate (Figma.renameMode collection id newName) s
    end.

Definition addMode (collection : Ref VariableCollection) (name : string) : M string :=
  fun s =>
    match addMode_error (host s) (snd collection) name with
    | Some e => (Throw e, s)
    | None => hostCall (Figma.addMode collection name) s
    end.

(** "Resolve Alias": exact match, then the fallback on the name alone. *)
Definition resolveAlias (targetCollectionName targetVariableName : val)
  : M (option (Ref HostVariable)) :=
  let* allCollections := getLocalVariableCollections in
  let* allVars := getLocalVariables in
  let targetCol :=
    js_find (fun c => strictEq_string (collection_name c) targetCollectionName)
      allCollections in
  let targetVar :=
    match targetCol with
    | Some col =>
        js_find (fun v => strictEq_string (variable_name v) targetVariableName
                          && String.eqb (variableCollectionId v) (collection_id (snd col)))
          allVars
    | None => None
    end in
  match targetVar with
  | Some _ => ret targetVar
  | None =>
      let targetVar := js_find (fun v => strictEq_string (variable_name v) targetVariableName) allVars in
      match targetVar with
      | Some found =>
          let foundCol :=
            js_find (fun c => String.eqb (collection_id c) (variableCollectionId (snd found)))
              allCollections in
          let foundName :=
            match foundCol with
            | Some c => collection_name (snd c)
            | None => "undefined"
            end in
          log WARN ("Fuzzy match found for alias " ++ quote ++ toString targetVariableName
                    ++ quote ++ ": Expected collection " ++ quote
                    ++ toString targetCollectionName ++ quote ++ ", found in " ++ quote
                    ++ foundName ++ quote) >>
          ret targetVar
      | None => ret None
      end
  end.

Definition notFoundWarning (targetCollectionName targetVariableName : val) : string :=
  "Alias target variable not found: " ++ quote ++ toString targetVariableName ++ quote
  ++ " (Collection: " ++ quote ++ toString targetCollectionName ++ quote ++ ")".

(** The body of the [try] of Pass 3, for one variable and one mode. *)
Definition setValue (variable : Ref HostVariable) (id : string) (varData : val) : M unit :=
  let valueToSet := Js.get varData "$value" in
  match aliasTarget varData with
  | Some (targetCollectionName, targetVariableName) =>
      let* targetVar := resolveAlias targetCollectionName targetVariableName in
      match targetVar with
      | Some target => setValueForMode variable id (Figma.createVariableAlias (snd target))
      | None => log WARN (notFoundWarning targetCollectionName targetVariableName)
      end
  | None =>
      let* converted :=
        lift (convertForType (resolvedType (snd variable)) (unwrapStructured valueToSet)) in
      setValueForMode variable id converted
  end.

End ImportValues.

(* ================================================================== *)
(** * Import: the three passes of [handleImport] *)
(* ================================================================== *)

Definition legacyWarning : string :=
  "Your JSON file uses legacy format (value/type). Please update to W3C DTCG format ($value/$type) for full compatibility.".

Section HandleImport.

Context {env : Environment}.

(** Pass 1, the branch taken when no usable mode id was found: rename
    the default mode for the first declared mode, add a mode otherwise. *)
Definition renameOrAddMode (collection : Ref VariableCollection) (collectionName : string)
  (existingModes : list Mode) (i : nat) (modeName : string) : M string :=
  let defaultMode := js_find (fun m => String.eqb (mode_name m) "Mode 1") existingModes in
  match defaultMode with
  | Some d =>
      if (i =? 0)%nat then
        renameMode collection (modeId (snd d)) modeName >>
        log INFO ("Renamed default " ++ quote ++ "Mode 1" ++ quote ++ " to " ++ quote
                  ++ modeName ++ quote ++ " in collection " ++ quote
                  ++ collectionName ++ quote) >>
        ret (modeId (snd d))
      else
        let* id := addMode collection modeName in
        log INFO ("Adding mode " ++ quote ++ modeName ++ quote ++ " to collection "
                  ++ quote ++ collectionName ++ quote) >>
        ret id
  | None =>
      let* id := addMode collection modeName in
      log INFO ("Adding mode " ++ quote ++ modeName ++ quote ++ " to collection "
                ++ quote ++ collectionName ++ quote) >>
      ret id
  end.

(** Pass 1, the body of the loop over [jsonModeNames]. *)
Definition registerMode (collection : Ref VariableCollection) (collectionName : string)
  (existingModes : list Mode) (modeMap : gmap string string) (i : nat)
  (modeName : string) : M (gmap string string) :=
  let found := js_find (fun m => String.eqb (mode_name m) modeName) existingModes in
  let* id :=
    match found with
    | Some m =>
        if JsString.truthy (modeId (snd m)) then ret (modeId (snd m))
        else renameOrAddMode collection collectionName existingModes i modeName
    | None => renameOrAddMode collection collectionName existingModes i modeName
    end in
  ret (<[modeName := id]> modeMap).

(** Pass 1, the body of the loop over the collections of the document. *)
Definition registerCollection
  (maps : gmap string (Ref VariableCollection) * gmap string (gmap string string))
  (entry : string * val)
  : M (gmap string (Ref VariableCollection) * gmap string (gmap string string)) :=
  let '(collectionName, modes) := entry in
  let* existing := getLocalVariableCollections in
  let* collection :=
    match js_find (fun c => String.eqb (collection_name c) collectionName) existing with
    | Some c => ret c
    | None =>
        let* c := createVariableCollection collectionName in
        log INFO ("Creating collection: " ++ collectionName) >>
        ret c
    end in
  let collectionMap := <[collectionName := collection]> (fst maps) in
  let* jsonModeNames := lift (JsObject.keys modes) in
  let existingModes := collection_modes (snd collection) in
  let* modeMap :=
    for_fold_counted jsonModeNames 0 ∅
      (registerMode collection collectionName existingModes) in
  ret (collectionMap, <[collectionName := modeMap]> (snd maps)).

(** Pass 2, the body of the loop over the flattened first mode. *)
Definition createIfMissing (collection : Ref VariableCollection) (total : nat)
  (processedCount : nat) (entry : string * val) : M unit :=
  let '(varName, varData) := entry in
  (if (processedCount mod 20 =? 0)%nat then
     postMessage (MProgress ("Creating variables... (" ++ JsString.of_nat processedCount
                             ++ "/" ++ JsString.of_nat total ++ ")"))
   else ret tt) >>
  let* existingVars := getLocalVariables in
  match js_find (fun v => String.eqb (variable_name v) varName
                          && String.eqb (variableCollectionId v)
                               (collection_id (snd collection)))
          existingVars with
  | Some _ => ret tt
  | None =>
      let* type :=
        if Js.truthy (Js.get varData "$type")
        then lift (mapJsonTypeToFigmaType (Js.get varData "$type"))
        else ret STRING in
      try_catch
        (createVariable varName collection type >>
         log INFO ("Creating variable: " ++ varName ++ " (" ++ resolvedType_name type ++ ")"))
        (fun e => log ERROR ("Failed to create variable " ++ varName ++ ": " ++ e))
  end.

(** Pass 2, the body of the loop over the collections of the document. *)
Definition discoverVariables (collectionMap : gmap string (Ref VariableCollection))
  (hasLegacy : bool) (entry : string * val) : M bool :=
  let '(collectionName, modes) := entry in
  match collectionMap !! collectionName with
  | None => ret hasLegacy
  | Some collection =>
      let* modeNames := lift (JsObject.keys modes) in
      let firstModeName :=
        match modeNames with
        | n :: _ => n
        | [] => "undefined"
        end in
      let* flat := lift (flattenVariables (Js.get modes firstModeName) EmptyString hasLegacy) in
      let variables := fst flat in
      for_counted variables 0 (createIfMissing collection (length variables)) >>
      ret (snd flat)
  end.

(** Pass 3, the body of the loop over the flattened mode. *)
Definition setOne (collection : Ref VariableCollection) (id : string) (total : nat)
  (processedCount : nat) (entry : string * val) : M unit :=
  let '(varName, varData) := entry in
  (if (processedCount mod 20 =? 0)%nat then
     postMessage (MProgress ("Setting values... (" ++ JsString.of_nat processedCount
                             ++ "/" ++ JsString.of_nat total ++ ")"))
   else ret tt) >>
  let* localVariables := getLocalVariables in
  match js_find (fun v => String.eqb (variable_name v) varName
                          && String.eqb (variableCollectionId v)
                               (collection_id (snd collection)))
          localVariables with
  | None => ret tt
  | Some variable =>
      try_catch (setValue variable id varData)
        (fun e => log ERROR ("Error setting value for " ++ quote ++ varName ++ quote
                             ++ ": " ++ e))
  end.

(** Pass 3, the body of the loop over the modes of a collection. *)
Definition setMode (collection : Ref VariableCollection)
  (modeMap : option (gmap string string)) (hasLegacy : bool) (entry : string * val)
  : M bool :=
  let '(modeName, varGroups) := entry in
  match modeMap ≫= (fun m => m !! modeName) with
  | None => ret hasLegacy
  | Some id =>
      if negb (JsString.truthy id) then ret hasLegacy
      else
        let* flat := lift (flattenVariables varGroups EmptyString hasLegacy) in
        let variables := fst flat in
        for_counted variables 0 (setOne collection id (length variables)) >>
        ret (snd flat)
  end.

(** Pass 3, the body of the loop over the collections of the document. *)
Definition setCollection (collectionMap : gmap string (Ref VariableCollection))
  (collectionModeMaps : gmap string (gmap string string))
  (hasLegacy : bool) (entry : string * val) : M bool :=
  let '(collectionName, modes) := entry in
  match collectionMap !! collectionName with
  | None => ret hasLegacy
  | Some collection =>
      let modeMap := collectionModeMaps !! collectionName in
      let* modeEntries := lift (JsObject.entries modes) in
      for_fold modeEntries hasLegacy (setMode collection modeMap)
  end.

(** The three passes; the result is [legacyDetector.hasLegacy] as the
    last pass leaves it. *)
Definition importPasses (data : val) : M bool :=
  let* collections1 := lift (JsObject.entries data) in
  let* maps := for_fold collections1 (∅, ∅) registerCollection in
  let* collections2 := lift (JsObject.entries data) in
  let* hasLegacy2 := for_fold collections2 false (discoverVariables (fst maps)) in
  let* collections3 := lift (JsObject.entries data) in
  for_fold collections3 hasLegacy2 (setCollection (fst maps) (snd maps)).

(** [handleImport(data)] *)
Definition handleImport (data : val) : M unit :=
  try_catch
    (log INFO "Starting import..." >>
     let* hasLegacy := importPasses data in
     (if hasLegacy then log WARN legacyWarning else ret tt) >>
     log INFO "Import completed successfully." >>
     postMessage MImportSuccess)
    (fun err => log ERROR err >> postMessage (MError err)).

End HandleImport.

(* ================================================================== *)
(** * First revision: the pieces that differ *)
(* ================================================================== *)

Module Rev1.

(** A leaf has [type] and [value], or is an explicit alias. *)
Definition isLeaf (value : val) : bool :=
  let hasType := Js.has "type" value in
  let hasValue := Js.has "value" value in
  let isAlias := hasType && strictEq_string "VARIABLE_ALIAS" (Js.get value "type") in
  (hasType && hasValue) || isAlias.

Fixpoint flattenObject (obj : val) (prefix : string) {struct obj} : JsMap.t val :=
  match obj with
  | VObj _ props =>
      (fix loop (entries : list (string * val)) (result : JsMap.t val)
           {struct entries} : JsMap.t val :=
         match entries with
         | [] => result
         | (key, value) :: rest =>
             if JsString.startsWith key "_" then loop rest result
             else
               match value with
               | VObj _ _ =>
                   if isLeaf value then
                     loop rest (JsMap.set (newKey prefix key) value result)
                   else
                     loop rest
                       (JsMap.merge result (flattenObject value (newKey prefix key)))
               | _ => loop rest result
               end
         end) props []
  | _ => []
  end.

Definition flattenEntry (prefix : string) (entry : string * val)
  (result : JsMap.t val) : JsMap.t val :=
  let '(key, value) := entry in
  if JsString.startsWith key "_" then result
  else
    match value with
    | VObj _ _ =>
        if isLeaf value then JsMap.set (newKey prefix key) value result
        else JsMap.merge result (flattenObject value (newKey prefix key))
    | _ => result
    end.

(** [flattenVariables(obj, prefix)] *)
Definition flattenVariables (obj : val) (prefix : string) : Result (JsMap.t val) :=
  match obj with
  | VUndefined | VNull => Throw TypeError_entries
  | _ => Ok (flattenObject obj prefix)
  end.

(** Pass 3 of the first revision: the explicit alias needs the type tag
    [VARIABLE_ALIAS] as well. *)
Definition aliasTarget (varData : val) : option (val * val) :=
  let valueToSet := Js.get varData "value" in
  if strictEq_string "VARIABLE_ALIAS" (Js.get varData "type")
     && Js.truthy (Js.get varData "targetCollection")
     && Js.truthy (Js.get varData "targetVariable")
  then Some (Js.get varData "targetCollection", Js.get varData "targetVariable")
  else
    match valueToSet with
    | VStr s =>
        if JsString.startsWith s "{" && JsString.endsWith s "}" then
          let content := JsString.substring s 1 (String.length s - 1) in
          let parts := JsString.split "."%char content in
          if (2 <=? length parts)%nat
          then Some (VStr (hd EmptyString parts), VStr (JsString.join "/" (tl parts)))
          else None
        else None
    | _ => None
    end.

End Rev1.

Lemma Rev1_flattenObject_loop kind props prefix :
  Rev1.flattenObject (VObj kind props) prefix
  = fold_left (fun st e => Rev1.flattenEntry prefix e st) props [].
Proof.
  simpl. generalize (@nil (string * val)) as result.
  induction props as [|[key x] rest IH]; intros result; [reflexivity|].
  simpl fold_left. unfold Rev1.flattenEntry.
  destruct (JsString.startsWith key "_"); [apply IH|].
  destruct x; try apply IH.
  destruct (Rev1.isLeaf _); apply IH.
Qed.

(* ================================================================== *)
(** * Export: colours and the Tailwind theme *)
(* ================================================================== *)

Module Hex.

Definition hexDigit (d : Z) : ascii :=
  if (d <? 10)%Z then ascii_of_nat (48 + Z.to_nat d) else ascii_of_nat (87 + Z.to_nat d).

(** Digits of a non-negative integer in base 16, most significant first. *)
Fixpoint hexDigits (fuel : nat) (n : Z) (acc : string) : string :=
  match fuel with
  | O => acc
  | S fuel' =>
      if (n <? 16)%Z then String (hexDigit n) acc
      else hexDigits fuel' (n / 16)%Z (String (hexDigit (n mod 16)%Z) acc)
  end.

(** [n.toString(16)] for an integer *)
Definition toString16 (n : Z) : string :=
  if (n <? 0)%Z
  then String "-"%char (hexDigits (S (Z.to_nat (Z.log2 (- n)))) (- n)%Z EmptyString)
  else hexDigits (S (Z.to_nat (Z.log2 n))) n EmptyString.

(** [ToInt32] *)
Definition wrap32 (z : Z) : Z := ((z + 2 ^ 31) mod 2 ^ 32 - 2 ^ 31)%Z.

(** [a << n] on 32-bit integers *)
Definition shiftLeft (a : Z) (n : Z) : Z := wrap32 (Z.shiftl (wrap32 a) (n mod 32)).

End Hex.

Section ExportFormats.

Context {env : Environment}.

(** [Math.round(x * 255)] *)
Definition scaleChannel (x : number) : number :=
  match x with
  | NFinite q => NFinite (inject_Z (JsNumber.round (q * 255)))
  | NInfinity s => NInfinity s
  | NNaN => NNaN
  end.

(** The operand of a shift: [ToInt32] of a rounded channel. *)
Definition toInt32 (x : number) : Z :=
  match x with
  | NFinite q => Hex.wrap32 (Z.quot (Qnum q) (Zpos (Qden q)))
  | _ => 0%Z
  end.

(** [rgbToHex(r, g, b)] *)
Definition rgbToHex (r g b : number) : string :=
  let rInt := scaleChannel r in
  let gInt := scaleChannel g in
  let bInt := scaleChannel b in
  let high := (Hex.shiftLeft 1 24 + Hex.shiftLeft (toInt32 rInt) 16
               + Hex.shiftLeft (toInt32 gInt) 8)%Z in
  let rendered :=
    match bInt with
    | NFinite q => Hex.toString16 (high + Qfloor q)%Z
    | NInfinity false => "Infinity"
    | NInfinity true => "-Infinity"
    | NNaN => "NaN"
    end in
  JsString.toUpperCase (JsString.slice1 rendered).

Inductive ExportFormat : Type := simplified | fullspec | css | tailwind.

(** [ToNumber], applied by [*] to a colour channel. *)
Definition ToNumber (v : val) : number :=
  match v with
  | VNum n => n
  | VUndefined => NNaN
  | VNull => NFinite 0
  | VBool true => NFinite 1
  | VBool false => NFinite 0
  | _ => ToNumber_other v
  end.

(** The test for an alias value, shared by all the export formats. *)
Definition isAliasValue (value : val) : bool :=
  match value with
  | VObj _ _ => Js.has "type" value && strictEq_string "VARIABLE_ALIAS" (Js.get value "type")
  | _ => false
  end.

Definition TypeError_in : string :=
  "TypeError: Cannot use 'in' operator to search for 'r' in null".

(** [typeof value === 'object' && 'r' in value]; [in] throws on [null]. *)
Definition isColorObject (value : val) : Result bool :=
  match value with
  | VNull => Throw TypeError_in
  | VObj _ _ => Ok (Js.has "r" value)
  | _ => Ok false
  end.

(** [convertValueForFormat(value, variable, format)]; [Ok VNull] is
    the signal for an alias. *)
Definition convertValueForFormat (value : val) (variable : HostVariable)
  (format : ExportFormat) : Result val :=
  if isAliasValue value then Ok VNull
  else
    match format with
    | fullspec =>
        match (if resolvedType_eqb (resolvedType variable) COLOR
               then isColorObject value else Ok false) with
        | Throw e => Throw e
        | Ok true =>
            Ok (VObj PlainObject
                  [ ("colorSpace", VStr "srgb");
                    ("components",
                     VObj ArrayObject
                       [ ("0", Js.get value "r"); ("1", Js.get value "g");
                         ("2", Js.get value "b") ]) ])
        | Ok false =>
            if resolvedType_eqb (resolvedType variable) FLOAT
            then Ok (VObj PlainObject [ ("value", value); ("unit", VStr "px") ])
            else Ok value
        end
    | simplified =>
        match (if resolvedType_eqb (resolvedType variable) COLOR
               then isColorObject value else Ok false) with
        | Throw e => Throw e
        | Ok true =>
            Ok (VStr ("#" ++ rgbToHex (ToNumber (Js.get value "r"))
                               (ToNumber (Js.get value "g"))
                               (ToNumber (Js.get value "b"))))
        | Ok false => Ok value
        end
    | _ => Ok value
    end.

(** ** The Tailwind theme *)

Inductive Section_ : Type := colors | spacing | fontSize | fontFamily | borderRadius | boxShadow.

(** The sections of [themeConfig] the export writes to; the other four
    ([fontWeight], [lineHeight], [opacity], [zIndex]) stay empty. *)
Record ThemeConfig : Type :=
  { theme_colors : gmap string val;
    theme_spacing : gmap string val;
    theme_fontSize : gmap string val;
    theme_fontFamily : gmap string val;
    theme_borderRadius : gmap string val;
    theme_boxShadow : gmap string val }.

Definition emptyTheme : ThemeConfig :=
  {| theme_colors := ∅; theme_spacing := ∅; theme_fontSize := ∅;
     theme_fontFamily := ∅; theme_borderRadius := ∅; theme_boxShadow := ∅ |}.

Definition section (sec : Section_) (t : ThemeConfig) : gmap string val :=
  match sec with
  | colors => theme_colors t
  | spacing => theme_spacing t
  | fontSize => theme_fontSize t
  | fontFamily => theme_fontFamily t
  | borderRadius => theme_borderRadius t
  | boxShadow => theme_boxShadow t
  end.

(** [themeConfig.sec[key] = x] *)
Definition assign (sec : Section_) (key : string) (x : val) (t : ThemeConfig) : ThemeConfig :=
  match sec with
  | colors =>
      {| theme_colors := <[key := x]> (theme_colors t); theme_spacing := theme_spacing t;
         theme_fontSize := theme_fontSize t; theme_fontFamily := theme_fontFamily t;
         theme_borderRadius := theme_borderRadius t; theme_boxShadow := theme_boxShadow t |}
  | spacing =>
      {| theme_colors := theme_colors t; theme_spacing := <[key := x]> (theme_spacing t);
         theme_fontSize := theme_fontSize t; theme_fontFamily := theme_fontFamily t;
         theme_borderRadius := theme_borderRadius t; theme_boxShadow := theme_boxShadow t |}
  | fontSize =>
      {| theme_colors := theme_colors t; theme_spacing := theme_spacing t;
         theme_fontSize := <[key := x]> (theme_fontSize t); theme_fontFamily := theme_fontFamily t;
         theme_borderRadius := theme_borderRadius t; theme_boxShadow := theme_boxShadow t |}
  | fontFamily =>
      {| theme_colors := theme_colors t; theme_spacing := theme_spacing t;
         theme_fontSize := theme_fontSize t; theme_fontFamily := <[key := x]> (theme_fontFamily t);
         theme_borderRadius := theme_borderRadius t; theme_boxShadow := theme_boxShadow t |}
  | borderRadius =>
      {| theme_colors := theme_colors t; theme_spacing := theme_spacing t;
         theme_fontSize := theme_fontSize t; theme_fontFamily := theme_fontFamily t;
         theme_borderRadius := <[key := x]> (theme_borderRadius t); theme_boxShadow := theme_boxShadow t |}
  | boxShadow =>
      {| theme_colors := theme_colors t; theme_spacing := theme_spacing t;
         theme_fontSize := theme_fontSize t; theme_fontFamily := theme_fontFamily t;
         theme_borderRadius := theme_borderRadius t; theme_boxShadow := <[key := x]> (theme_boxShadow t) |}
  end.

(** [variable.name.split('/').join('-').toLowerCase()] *)
Definition tailwindKey (name : string) : string :=
  JsString.toLowerCase (JsString.join "-" (JsString.split "/"%char name)).

(** The section a FLOAT goes to, by the keywords in its lower-cased name. *)
Definition floatSection (lowerName : string) : Section_ :=
  if JsString.includes lowerName "spacing" || JsString.includes lowerName "space"
     || JsString.includes lowerName "gap" || JsString.includes lowerName "margin"
     || JsString.includes lowerName "padding"
  then spacing
  else if JsString.includes lowerName "font" && JsString.includes lowerName "size"
  then fontSize
  else if JsString.includes lowerName "radius" || JsString.includes lowerName "rounded"
  then borderRadius
  else spacing.

(** [`${value}px`] *)
Definition px (value : val) : val := VStr (toString value ++ "px").

(** The body of the loop over the variables of a collection; [value] is
    [variable.valuesByMode[mode.modeId]]. *)
Definition tailwindVariable (allVariables : list HostVariable) (variable : HostVariable)
  (value : val) (themeConfig : ThemeConfig) : Result ThemeConfig :=
  let tailwindKey := tailwindKey (variable_name variable) in
  match resolvedType variable with
  | COLOR =>
      if isAliasValue value then
        let aliasId := Js.get value "id" in
        match js_find (fun v => strictEq_string (variable_id v) aliasId) allVariables with
        | Some targetVariable =>
            let refKey :=
              JsString.toLowerCase
                (JsString.join "-" (JsString.split "/"%char (variable_name (snd targetVariable)))) in
            Ok (assign colors tailwindKey (VStr ("{colors." ++ refKey ++ "}")) themeConfig)
        | None => Ok themeConfig
        end
      else
        match isColorObject value with
        | Throw e => Throw e
        | Ok true =>
            Ok (assign colors tailwindKey
                  (VStr ("#" ++ rgbToHex (ToNumber (Js.get value "r"))
                                     (ToNumber (Js.get value "g"))
                                     (ToNumber (Js.get value "b"))))
                  themeConfig)
        | Ok false => Ok themeConfig
        end
  | FLOAT =>
      let lowerName := JsString.toLowerCase (variable_name variable) in
      Ok (assign (floatSection lowerName) tailwindKey (px value) themeConfig)
  | STRING =>
      let lowerName := JsString.toLowerCase (variable_name variable) in
      if JsString.includes lowerName "font"
         && (JsString.includes lowerName "family" || JsString.includes lowerName "face")
      then
        Ok (assign fontFamily tailwindKey
              (match value with
               | VStr _ => VObj ArrayObject [ ("0", value) ]
               | _ => VStr (toString value)
               end)
              themeConfig)
      else if JsString.includes lowerName "shadow"
      then Ok (assign boxShadow tailwindKey (VStr (toString value)) themeConfig)
      else Ok themeConfig
  | BOOLEAN => Ok themeConfig
  end.

Fixpoint foldResult {A B} (step : A -> B -> Result B) (l : list A) (acc : B) : Result B :=
  match l with
  | [] => Ok acc
  | x :: rest =>
      match step x acc with
      | Ok acc' => foldResult step rest acc'
      | Throw e => Throw e
      end
  end.

(** The body of the loop over the collections: only the first mode is
    read. *)
Definition tailwindCollection (allVariables : list HostVariable)
  (collection : VariableCollection) (themeConfig : ThemeConfig) : Result ThemeConfig :=
  let collectionVariables :=
    List.filter (fun v => String.eqb (variableCollectionId v) (collection_id collection))
      allVariables in
  match collection_modes collection with
  | [] => Ok themeConfig
  | mode :: _ =>
      foldResult
        (fun variable themeConfig =>
           tailwindVariable allVariables variable
             (default VUndefined (valuesByMode variable !! modeId mode)) themeConfig)
        collectionVariables themeConfig
  end.

(** [exportAsTailwind], up to the theme object: the rendering of the
    object as the text of a configuration module is not modelled. *)
Definition tailwindTheme (h : Host) : Result ThemeConfig :=
  foldResult (tailwindCollection (variables h)) (collections h) emptyTheme.

End ExportFormats.

(* ================================================================== *)
(** * A concrete environment, for running the model *)
(* ================================================================== *)

Module Sim.

Definition hexValue (c : ascii) : option Z :=
  let n := nat_of_ascii c in
  if (48 <=? n)%nat && (n <=? 57)%nat then Some (Z.of_nat (n - 48))
  else if (65 <=? n)%nat && (n <=? 70)%nat then Some (Z.of_nat (n - 55))
  else if (97 <=? n)%nat && (n <=? 102)%nat then Some (Z.of_nat (n - 87))
  else None.

Definition byte (hi lo : ascii) : option val :=
  match hexValue hi, hexValue lo with
  | Some h, Some l => Some (VNum (NFinite (Qred ((16 * h + l) # 255))))
  | _, _ => None
  end.

(** Accepts [#RRGGBB] only. *)
Definition rgb (s : string) : Result val :=
  match s with
  | String "#" (String r1 (String r0 (String g1 (String g0 (String b1 (String b0 EmptyString)))))) =>
      match byte r1 r0, byte g1 g0, byte b1 b0 with
      | Some r, Some g, Some b => Ok (VObj PlainObject [ ("r", r); ("g", g); ("b", b) ])
      | _, _, _ => Throw "Error: Invalid color"
      end
  | _ => Throw "Error: Invalid color"
  end.

(** A value the host takes for a variable of the given type. *)
Definition accepts (type : VariableResolvedDataType) (x : val) : bool :=
  match x with
  | VObj _ _ =>
      (Js.has "type" x && strictEq_string "VARIABLE_ALIAS" (Js.get x "type"))
      || (resolvedType_eqb type COLOR && Js.has "r" x && Js.has "g" x && Js.has "b" x)
  | VNum _ => resolvedType_eqb type FLOAT
  | VBool _ => resolvedType_eqb type BOOLEAN
  | VStr _ => resolvedType_eqb type STRING
  | _ => false
  end.

(** Integers in decimal, other rationals as a fraction. *)
Definition showNumber (n : number) : string :=
  match n with
  | NFinite q =>
      let q' := Qred q in
      let sign := if (Qnum q' <? 0)%Z then "-" else EmptyString in
      let num := JsString.of_nat (Z.to_nat (Z.abs (Qnum q'))) in
      if (Qden q' =? 1)%positive then sign ++ num
      else sign ++ num ++ "/" ++ JsString.of_nat (Pos.to_nat (Qden q'))
  | NInfinity false => "Infinity"
  | NInfinity true => "-Infinity"
  | NNaN => "NaN"
  end.

Definition environment : Environment :=
  {| Number_toString := showNumber;
     ToNumber_other := fun _ => NNaN;
     util_rgb := rgb;
     createVariable_error := fun _ name _ _ =>
       if String.eqb name EmptyString then Some "Error: invalid variable name" else None;
     setValueForMode_error := fun _ variable _ x =>
       if accepts (resolvedType variable) x then None
       else Some "Error: Mismatched variable resolved type for setValueForMode";
     createVariableCollection_error := fun _ _ => None;
     renameMode_error := fun _ _ _ _ => None;
     addMode_error := fun _ _ _ => None |}.

(** The same host on a plan that gives a collection one mode only. *)
Definition singleModePlan : Environment :=
  {| Number_toString := showNumber;
     ToNumber_other := fun _ => NNaN;
     util_rgb := rgb;
     createVariable_error := fun _ name _ _ =>
       if String.eqb name EmptyString then Some "Error: invalid variable name" else None;
     setValueForMode_error := fun _ variable _ x =>
       if accepts (resolvedType variable) x then None
       else Some "Error: Mismatched variable resolved type for setValueForMode";
     createVariableCollection_error := fun _ _ => None;
     renameMode_error := fun _ _ _ _ => None;
     addMode_error := fun _ _ _ => Some "Error: in addMode: Limited to 1 modes only" |}.

Definition emptyHost : Host := {| collections := []; variables := []; allocated := 0 |}.
Definition start : State := {| host := emptyHost; posted := [] |}.

Definition obj (props : list (string * val)) : val := VObj PlainObject props.

End Sim.

(* ================================================================== *)
(** * Vocabulary of the statements *)
(* ================================================================== *)

(** The two upper-case hexadecimal digits of a byte. *)
Definition upperHexDigit (d : Z) : ascii :=
  if (d <? 10)%Z then ascii_of_nat (48 + Z.to_nat d) else ascii_of_nat (55 + Z.to_nat d).

Definition hexPair (x : Z) : string :=
  String (upperHexDigit (x / 16)) (String (upperHexDigit (x mod 16)) EmptyString).

Definition isUpperHexDigit (c : ascii) : bool :=
  let n := nat_of_ascii c in
  ((48 <=? n)%nat && (n <=? 57)%nat) || ((65 <=? n)%nat && (n <=? 70)%nat).

Fixpoint allChars (p : ascii -> bool) (s : string) : bool :=
  match s with
  | EmptyString => true
  | String c t => p c && allChars p t
  end.

(** Sample host objects. *)
Definition sampleVariable (name : string) (type : VariableResolvedDataType) : HostVariable :=
  {| variable_id := "VariableID:0"; variable_name := name;
     variableCollectionId := "VariableCollectionId:0"; resolvedType := type;
     description := EmptyString; valuesByMode := ∅ |}.

Definition red : val :=
  Sim.obj [ ("r", VNum (NFinite 1)); ("g", VNum (NFinite 0)); ("b", VNum (NFinite 0));
            ("a", VNum (NFinite 1)) ].

(** A string of the form [{content}]. *)
Definition braced (content : string) : string := String "{" (content ++ "}").

(** The target a braced reference names: segment 0 is the collection, the
    other segments joined by "/" are the variable. *)
Definition bracedTarget (content : string) : val * val :=
  let parts := JsString.split "."%char content in
  (VStr (hd EmptyString parts), VStr (JsString.join "/" (tl parts))).

(** [x], at position [i], is the first element of [l] that satisfies [p]. *)
Definition firstWith {A} (p : A -> bool) (l : list A) (i : nat) (x : A) : Prop :=
  l !! i = Some x /\ p x = true /\ forall j y, (j < i)%nat -> l !! j = Some y -> p y = false.

Definition noneWith {A} (p : A -> bool) (l : list A) : Prop :=
  forall x, In x l -> p x = false.

(** The tests of the alias resolver. *)
Definition collectionNamed (name : val) (c : VariableCollection) : bool :=
  strictEq_string (collection_name c) name.


Definition variableNamedIn (name : val) (c : VariableCollection) (v : HostVariable) : bool :=
  strictEq_string (variable_name v) name
  && String.eqb (variableCollectionId v) (collection_id c).

(** Two collections, [A] and [B], each with a variable [Color/Primary]. *)
Definition twoCollections : State :=
  {| host :=
       {| collections :=
            [ {| collection_id := "c:B"; collection_name := "B";
                 collection_modes := [ {| modeId := "m:B"; mode_name := "Light" |} ] |};
              {| collection_id := "c:A"; collection_name := "A";
                 collection_modes := [ {| modeId := "m:A"; mode_name := "Light" |} ] |} ];
          variables :=
            [ {| variable_id := "v:B"; variable_name := "Color/Primary";
                 variableCollectionId := "c:B"; resolvedType := COLOR;
                 description := EmptyString; valuesByMode := ∅ |};
              {| variable_id := "v:A"; variable_name := "Color/Primary";
                 variableCollectionId := "c:A"; resolvedType := COLOR;
                 description := EmptyString; valuesByMode := ∅ |} ];
          allocated := 0 |};
     posted := [] |}.

(** No exact match: no collection of that name, or none of its variables
    has the name. *)
Definition noExactMatch (targetCollectionName targetVariableName : val) (h : Host) : Prop :=
  noneWith (collectionNamed targetCollectionName) (collections h)
  \/ exists ci col,
      firstWith (collectionNamed targetCollectionName) (collections h) ci col
      /\ noneWith (variableNamedIn targetVariableName col) (variables h).

(** [name] contains [keyword], letter case apart. *)
Definition containsCI (name keyword : string) : Prop :=
  exists pre mid post,
    name = (pre ++ mid ++ post)%string /\ JsString.toLowerCase mid = keyword.

Definition spacingName (name : string) : Prop :=
  containsCI name "spacing" \/ containsCI name "space" \/ containsCI name "gap"
  \/ containsCI name "margin" \/ containsCI name "padding".

Definition fontSizeName (name : string) : Prop :=
  containsCI name "font" /\ containsCI name "size".

Definition radiusName (name : string) : Prop :=
  containsCI name "radius" \/ containsCI name "rounded".

Definition isFloatSection (sec : Section_) : Prop :=
  sec = spacing \/ sec = fontSize \/ sec = borderRadius.

(** [x] is what the Tailwind export writes for some FLOAT variable of the
    host with this key and this section: its value in the first mode of
    its collection, rendered with the unit. *)
Definition floatEntry {env : Environment} (h : Host) (sec : Section_) (key : string)
  (x : val) : Prop :=
  exists c m ms v,
    In c (collections h) /\ collection_modes c = m :: ms
    /\ In v (variables h) /\ variableCollectionId v = collection_id c
    /\ resolvedType v = FLOAT
    /\ tailwindKey (variable_name v) = key
    /\ floatSection (JsString.toLowerCase (variable_name v)) = sec
    /\ x = VStr (toString (default VUndefined (valuesByMode v !! modeId m)) ++ "px").

(** A host with one FLOAT variable whose name has "font", "size" and "gap". *)
Definition fontSizeGapHost : Host :=
  {| collections :=
       [ {| collection_id := "c:1"; collection_name := "Tokens";
            collection_modes := [ {| modeId := "m:1"; mode_name := "Default" |} ] |} ];
     variables :=
       [ {| variable_id := "v:1"; variable_name := "Font/Size/Gap";
            variableCollectionId := "c:1"; resolvedType := FLOAT;
            description := EmptyString;
            valuesByMode := {[ "m:1" := VNum (NFinite 4) ]} |} ];
     allocated := 0 |}.

(** A host with the three FLOAT variables of the specification's example,
    valued in two modes. *)
Definition spacingHost : Host :=
  {| collections :=
       [ {| collection_id := "c:1"; collection_name := "Tokens";
            collection_modes := [ {| modeId := "m:1"; mode_name := "Compact" |};
                                  {| modeId := "m:2"; mode_name := "Roomy" |} ] |} ];
     variables :=
       [ {| variable_id := "v:1"; variable_name := "Spacing/Gap/Small";
            variableCollectionId := "c:1"; resolvedType := FLOAT;
            description := EmptyString;
            valuesByMode := {[ "m:1" := VNum (NFinite 4); "m:2" := VNum (NFinite 8) ]} |};
         {| variable_id := "v:2"; variable_name := "Radius/Button";
            variableCollectionId := "c:1"; resolvedType := FLOAT;
            description := EmptyString;
            valuesByMode := {[ "m:1" := VNum (NFinite 6); "m:2" := VNum (NFinite 12) ]} |};
         {| variable_id := "v:3"; variable_name := "Opacity/Disabled";
            variableCollectionId := "c:1"; resolvedType := FLOAT;
            description := EmptyString;
            valuesByMode := {[ "m:1" := VNum (NFinite 1); "m:2" := VNum (NFinite 2) ]} |} ];
     allocated := 0 |}.

(** A document with one collection and one mode. *)
Definition singleMode (collection mode : string) (tree : val) : val :=
  Sim.obj [ (collection, Sim.obj [ (mode, tree) ]) ].


Definition legacyLeaf (type value description : val) : val :=
  Sim.obj [ ("type", type); ("value", value); ("description", description) ].

Definition token (type : string) (value : val) : val :=
  Sim.obj [ ("$type", VStr type); ("$value", value) ].

(** Two BOOLEAN tokens given as strings. *)
Definition booleanStrings : val :=
  singleMode "Flags" "Default"
    (Sim.obj [ ("On", token "boolean" (VStr "true"));
               ("Off", token "boolean" (VStr "False")) ]).

Definition errorSettingValue (varName e : string) : UiMessage :=
  MLog ERROR ("Error setting value for " ++ quote ++ varName ++ quote ++ ": " ++ e).

(** A value that is not an object: a string, a number, a boolean, [null]
    (or [undefined]). *)
Definition nonObject (x : val) : bool :=
  match x with
  | VObj _ _ => false
  | _ => true
  end.

(** [pruned g g']: [g'] is the group [g] without one entry whose value
    is not an object, the entry being in [g] itself or in a group below it
    (an object the traversal recurses into). *)
Inductive pruned : val -> val -> Prop :=
| pruned_here kind pre key x post :
    nonObject x = true ->
    pruned (VObj kind (pre ++ (key, x) :: post)) (VObj kind (pre ++ post))
| pruned_inside kind pre key g g' post :
    isVariable g = false ->
    pruned g g' ->
    pruned (VObj kind (pre ++ (key, g) :: post)) (VObj kind (pre ++ (key, g') :: post)).

(** The document [before ++ (collection, modesBefore ++ (mode, tree) ::
    modesAfter) :: after]: a mode tree in its place. *)
Definition documentWith (before : list (string * val)) (collection : string)
  (modesBefore : list (string * val)) (mode : string) (tree : val)
  (modesAfter after : list (string * val)) : val :=
  VObj PlainObject
    (before
     ++ (collection, VObj PlainObject (modesBefore ++ (mode, tree) :: modesAfter))
     :: after).

(** What the import reads of a normalised record: its value, its explicit
    target fields, and its type tag when that is truthy. *)
Definition sameView (r1 r2 : val) : Prop :=
  Js.get r1 "$value" = Js.get r2 "$value"
  /\ Js.get r1 "targetCollection" = Js.get r2 "targetCollection"
  /\ Js.get r1 "targetVariable" = Js.get r2 "targetVariable"
  /\ Js.truthy (Js.get r1 "$type") = Js.truthy (Js.get r2 "$type")
  /\ (Js.truthy (Js.get r1 "$type") = true -> Js.get r1 "$type" = Js.get r2 "$type").

Definition sameItem (e1 e2 : string * val) : Prop :=
  fst e1 = fst e2 /\ sameView (snd e1) (snd e2).

(** Two computations end in the same state, both returning (related
    values) or both throwing (the same error). *)
Definition sameOutcome {A} (R : A -> A -> Prop) (o1 o2 : Result A * State) : Prop :=
  snd o1 = snd o2
  /\ match fst o1, fst o2 with
     | Ok a1, Ok a2 => R a1 a2
     | Throw e1, Throw e2 => e1 = e2
     | _, _ => False
     end.

(** Two mode trees flatten to the same paths with records the import
    cannot tell apart, the legacy flags being related by [F]. *)
Definition sameFlat (F : bool -> bool -> Prop) (t1 t2 : val) : Prop :=
  forall f1 f2, F f1 f2 ->
    match flattenVariables t1 EmptyString f1, flattenVariables t2 EmptyString f2 with
    | Ok (m1, g1), Ok (m2, g2) => Forall2 sameItem m1 m2 /\ F g1 g2
    | Throw e1, Throw e2 => e1 = e2
    | _, _ => False
    end.

Definition sameEntry (F : bool -> bool -> Prop) (e1 e2 : string * val) : Prop :=
  fst e1 = fst e2 /\ sameFlat F (snd e1) (snd e2).

Definition nullish (v : val) : bool :=
  match v with VUndefined | VNull => true | _ => false end.

Definition sameModes (F : bool -> bool -> Prop) (e1 e2 : string * val) : Prop :=
  fst e1 = fst e2
  /\ nullish (snd e1) = nullish (snd e2)
  /\ Forall2 (sameEntry F) (Js.ownProps (snd e1)) (Js.ownProps (snd e2)).

Definition sameDocument (F : bool -> bool -> Prop) (d1 d2 : val) : Prop :=
  nullish d1 = nullish d2
  /\ Forall2 (sameModes F) (Js.ownProps d1) (Js.ownProps d2).


(** The state after more messages were posted. *)
Definition posting (s : State) (messages : list UiMessage) : State :=
  {| host := host s; posted := posted s ++ messages |}.

Definition started (s : State) : State := posting s [ MLog INFO "Starting import..." ].

Definition completed (hasLegacy : bool) : list UiMessage :=
  (if hasLegacy then [ MLog WARN legacyWarning ] else [])
  ++ [ MLog INFO "Import completed successfully."; MImportSuccess ].

Definition failed (err : string) : list UiMessage := [ MLog ERROR err; MError err ].

(** A mode tree with a proper token and a bare string under [Primary]. *)
Definition treeWithBareString : val :=
  Sim.obj ([ ("Secondary", token "color" (VStr "#00FF00")) ]
           ++ ("Primary", VStr "#FF0000") :: []).

Definition treeWithoutBareString : val :=
  Sim.obj ([ ("Secondary", token "color" (VStr "#00FF00")) ] ++ []).






(** A property of the state that a computation keeps, however it ends. *)
Definition preserves (P : State -> Prop) {A} (m : M A) : Prop :=
  forall s r s', P s -> m s = (r, s') -> P s'.




(** The test by which Passes 2 and 3 look a variable up: its name, within
    the collection. *)
Definition variableAt (varName : string) (collection : Ref VariableCollection)
  (v : HostVariable) : bool :=
  String.eqb (variable_name v) varName
  && String.eqb (variableCollectionId v) (collection_id (snd collection)).



(* ================================================================== *)
(** * Vocabulary of the statements about collections and modes *)
(* ================================================================== *)

(** The test by which Pass 1 looks a mode up. *)
Definition modeNamed (name : string) (m : Mode) : bool := String.eqb (mode_name m) name.

(** The test by which Pass 1 looks a collection up. *)
Definition collectionCalled (name : string) (c : VariableCollection) : bool :=
  String.eqb (collection_name c) name.

Definition withModes (c : VariableCollection) (ms : list Mode) : VariableCollection :=
  {| collection_id := collection_id c;
     collection_name := collection_name c;
     collection_modes := ms |}.

(** The host with the modes of the collection at [i] replaced, and its
    counter of allocated ids set. *)
Definition setModes (i : nat) (c : VariableCollection) (ms : list Mode) (n : nat)
  (h : Host) : Host :=
  {| collections := <[i := withModes c ms]> (collections h);
     variables := variables h;
     allocated := n |}.

Definition renamed (id newName : string) (m : Mode) : Mode :=
  if String.eqb (modeId m) id then {| modeId := modeId m; mode_name := newName |} else m.

(** What one iteration of the loop over the declared mode names does to
    the modes of the collection and to the counter of ids ([st]), given the
    modes read before the loop ([existing]). *)
Definition modeStep (existing : list Mode) (i : nat) (name : string)
  (st : list Mode * nat) : list Mode * nat :=
  let reuse :=
    match js_find (modeNamed name) existing with
    | Some m => JsString.truthy (modeId (snd m))
    | None => false
    end in
  if reuse then st
  else
    match js_find (modeNamed "Mode 1") existing with
    | Some d =>
        if (i =? 0)%nat then (map (renamed (modeId (snd d)) name) (fst st), snd st)
        else (fst st ++ [ {| modeId := Figma.mode_id_of (snd st); mode_name := name |} ],
              S (snd st))
    | None =>
        (fst st ++ [ {| modeId := Figma.mode_id_of (snd st); mode_name := name |} ],
         S (snd st))
    end.

(** The mode id that iteration enters in the mode map. *)
Definition stepId (existing : list Mode) (i : nat) (name : string) (n : nat) : string :=
  let fresh :=
    match js_find (modeNamed "Mode 1") existing with
    | Some d => if (i =? 0)%nat then modeId (snd d) else Figma.mode_id_of n
    | None => Figma.mode_id_of n
    end in
  match js_find (modeNamed name) existing with
  | Some m => if JsString.truthy (modeId (snd m)) then modeId (snd m) else fresh
  | None => fresh
  end.

Fixpoint modesLoop (existing : list Mode) (names : list string) (i : nat)
  (st : list Mode * nat) : list Mode * nat :=
  match names with
  | [] => st
  | name :: rest => modesLoop existing rest (S i) (modeStep existing i name st)
  end.

Fixpoint modeMapLoop (existing : list Mode) (names : list string) (i : nat)
  (st : list Mode * nat) (modeMap : gmap string string) : gmap string string :=
  match names with
  | [] => modeMap
  | name :: rest =>
      modeMapLoop existing rest (S i) (modeStep existing i name st)
        (<[name := stepId existing i name (snd st)]> modeMap)
  end.

(** Modes added one after the other, with the ids the host hands out. *)
Fixpoint addedModes (n : nat) (names : list string) : list Mode :=
  match names with
  | [] => []
  | name :: rest => {| modeId := Figma.mode_id_of n; mode_name := name |} :: addedModes (S n) rest
  end.

Definition notDefault (name : string) : bool := negb (String.eqb name "Mode 1").

(** The collection Pass 1 makes for a name the host does not have, from
    the declared mode names [first :: others]. *)
Definition createdCollection (n : nat) (name first : string) (others : list string)
  : VariableCollection :=
  {| collection_id := Figma.collection_id_of n;
     collection_name := name;
     collection_modes :=
       {| modeId := Figma.mode_id_of (S n); mode_name := first |}
       :: addedModes (S (S n)) (List.filter notDefault others) |}.

(** No collection of the host has a mode called "Mode 1". *)
Definition noDefaultMode (h : Host) : Prop :=
  Forall (fun c => Forall (fun m => mode_name m <> "Mode 1") (collection_modes c))
    (collections h).

(** Every mode of the host has a non-empty id. *)
Definition modeIdsOk (h : Host) : Prop :=
  Forall (fun c => Forall (fun m => JsString.truthy (modeId m) = true) (collection_modes c))
    (collections h).

(** The host has a collection of that name, and the first one has a mode
    of each of these names. *)
Definition declared (name : string) (modeNames : list string) (h : Host) : Prop :=
  exists i c,
    js_find (collectionCalled name) (collections h) = Some (i, c)
    /\ Forall (fun k => Exists (fun m => mode_name m = k) (collection_modes c)) modeNames.

(** A document whose collections each declare at least one mode, none of
    them called "Mode 1". *)
Definition declaresModes (data : val) : Prop :=
  nullish data = false
  /\ Forall (fun e => nullish (snd e) = false
                      /\ Js.ownProps (snd e) <> []
                      /\ ~ In "Mode 1" (map fst (Js.ownProps (snd e))))
       (Js.ownProps data).

(** A document for the examples: a collection with three declared modes,
    the second of them called "Mode 1". *)
Definition threeModes : val :=
  Sim.obj [ ("Light", Sim.obj []); ("Mode 1", Sim.obj []); ("Dark", Sim.obj []) ].

(** A host that has the collection "Brand" with the modes "Light" and
    "Dark". *)
Definition brandCollection : VariableCollection :=
  {| collection_id := "c:1"; collection_name := "Brand";
     collection_modes := [ {| modeId := "m:1"; mode_name := "Light" |};
                           {| modeId := "m:2"; mode_name := "Dark" |} ] |}.

Definition brandHost : State :=
  {| host :=
       {| collections := [ brandCollection ];
          variables := [];
          allocated := 0 |};
     posted := [] |}.

Definition lightAndDark : val := Sim.obj [ ("Light", Sim.obj []); ("Dark", Sim.obj []) ].

(** What the import keeps of a variable: everything but its values, and
    of those the modes that have one. *)
Definition keptVariable (v0 v : HostVariable) : Prop :=
  variable_id v = variable_id v0
  /\ variable_name v = variable_name v0
  /\ variableCollectionId v = variableCollectionId v0
  /\ resolvedType v = resolvedType v0
  /\ description v = description v0
  /\ forall id, is_Some (valuesByMode v0 !! id) -> is_Some (valuesByMode v !! id).

(** What the import keeps of a collection: its id, its name, and the ids
    of its modes, in their places. *)
Definition keptCollection (c0 c : VariableCollection) : Prop :=
  collection_id c = collection_id c0
  /\ collection_name c = collection_name c0
  /\ exists more, map modeId (collection_modes c) = map modeId (collection_modes c0) ++ more.

(** [l] is [l0] with its elements changed within [R], and more elements
    after them. *)
Definition grownList {A} (R : A -> A -> Prop) (l0 l : list A) : Prop :=
  exists kept more, l = kept ++ more /\ Forall2 R l0 kept.

Definition grownFrom (h0 h : Host) : Prop :=
  grownList keptCollection (collections h0) (collections h)
  /\ grownList keptVariable (variables h0) (variables h).

(** A document for the examples: two collections, the second with two
    modes. *)
Definition twoCollectionDocument : val :=
  Sim.obj
    [ ("Brand", Sim.obj [ ("Light", Sim.obj [ ("Primary", token "color" (VStr "#FF0000")) ]) ]);
      ("Layout",
       Sim.obj [ ("Compact", Sim.obj [ ("Gap", token "number" (VNum (NFinite 4))) ]);
                 ("Roomy", Sim.obj [ ("Gap", token "number" (VNum (NFinite 8))) ]) ]) ].

(* ================================================================== *)
(** * Vocabulary of the statements about Pass 2 *)
(* ================================================================== *)

(** The progress message of Pass 2, due every 20 items. *)
Definition creatingProgress (processedCount total : nat) : list UiMessage :=
  if (processedCount mod 20 =? 0)%nat
  then [ MProgress ("Creating variables... (" ++ JsString.of_nat processedCount
                    ++ "/" ++ JsString.of_nat total ++ ")") ]
  else [].

(** The type Pass 2 gives a new variable: that of the type tag of the
    record, STRING when the tag is missing or falsy. *)
Definition tagType (varData : val) : Result VariableResolvedDataType :=
  if Js.truthy (Js.get varData "$type")
  then mapJsonTypeToFigmaType (Js.get varData "$type")
  else Ok STRING.

Definition creatingVariable (varName : string) (type : VariableResolvedDataType) : UiMessage :=
  MLog INFO ("Creating variable: " ++ varName ++ " (" ++ resolvedType_name type ++ ")").

Definition failedToCreate (varName e : string) : UiMessage :=
  MLog ERROR ("Failed to create variable " ++ varName ++ ": " ++ e).

(** A variable as Pass 2 makes it for an entry of the flattened tree
    [flat], in the collection [collection]. *)
Definition discovered (flat : JsMap.t val) (collection : Ref VariableCollection)
  (v : HostVariable) : Prop :=
  exists varData,
    In (variable_name v, varData) flat
    /\ tagType varData = Ok (resolvedType v)
    /\ variableCollectionId v = collection_id (snd collection)
    /\ description v = EmptyString
    /\ valuesByMode v = ∅.

(** A path Pass 2 is done with: the collection has a variable of that
    name, or the failure to create one was reported. *)
Definition settled (collection : Ref VariableCollection) (s : State) (entry : string * val)
  : Prop :=
  Exists (fun v => variableAt (fst entry) collection v = true) (variables (host s))
  \/ exists e, In (failedToCreate (fst entry) e) (posted s).

(** Where the import takes a new variable from: a path of the flattened
    first declared mode of a collection of the document, the variable being
    in the host collection of that name. *)
Definition fromFirstMode (data : val) (h : Host) (v : HostVariable) : Prop :=
  exists c modes k tree rest varData col,
    In (c, modes) (Js.ownProps data)
    /\ Js.ownProps modes = (k, tree) :: rest
    /\ In (variable_name v, varData) (fst (flattenObject tree EmptyString false))
    /\ tagType varData = Ok (resolvedType v)
    /\ In col (collections h)
    /\ collection_name col = c
    /\ collection_id col = variableCollectionId v.

(** The handles of the collection map are good for the host: each is the
    place of a collection of the name it is filed under, with the id the
    handle has. *)
Definition handlesOk (collectionMap : gmap string (Ref VariableCollection)) (h : Host)
  : Prop :=
  forall c collection,
    collectionMap !! c = Some collection ->
    exists col,
      collections h !! fst collection = Some col
      /\ collection_name col = c
      /\ collection_id col = collection_id (snd collection).

(** A document for the examples: the second mode has a path the first
    has not. *)
Definition unevenModes : val :=
  Sim.obj
    [ ("Brand",
       Sim.obj [ ("Light", Sim.obj [ ("Primary", token "color" (VStr "#FF0000")) ]);
                 ("Dark", Sim.obj [ ("Primary", token "color" (VStr "#00FF00"));
                                    ("Accent", token "color" (VStr "#0000FF")) ]) ]) ].



(** The double-quote character, as the messages have it around a name. *)
Definition doubleQuote : string := String "034"%char EmptyString.

(** The host takes every collection and every mode it is asked for: the
    three calls of Pass 1 do not throw. *)
Definition acceptsModes (env : Environment) : Prop :=
  (forall h name, createVariableCollection_error h name = None)
  /\ (forall h c id newName, renameMode_error h c id newName = None)
  /\ (forall h c name, addMode_error h c name = None).

(** The tests of the alias resolver on a target given by two strings. *)
Definition variableCalled (name : string) (v : HostVariable) : bool :=
  String.eqb (variable_name v) name.

Definition variableCalledIn (name : string) (c : VariableCollection) (v : HostVariable)
  : bool :=
  String.eqb (variable_name v) name && String.eqb (variableCollectionId v) (collection_id c).

Definition collectionWithId (id : string) (c : VariableCollection) : bool :=
  String.eqb (collection_id c) id.

(** No exact match for the names [tc] and [tv]: no collection is called
    [tc], or the first collection called [tc] has no variable called [tv]. *)
Definition noExactMatchFor (tc tv : string) (h : Host) : Prop :=
  noneWith (collectionCalled tc) (collections h)
  \/ exists ci col,
      firstWith (collectionCalled tc) (collections h) ci col
      /\ noneWith (variableCalledIn tv col) (variables h).

(** Two collections called [A]; only the second has [Color/Primary]. *)
Definition duplicateNames : State :=
  {| host :=
       {| collections :=
            [ {| collection_id := "c:1"; collection_name := "A";
                 collection_modes := [ {| modeId := "m:1"; mode_name := "Light" |} ] |};
              {| collection_id := "c:2"; collection_name := "A";
                 collection_modes := [ {| modeId := "m:2"; mode_name := "Light" |} ] |} ];
          variables :=
            [ {| variable_id := "v:1"; variable_name := "Color/Primary";
                 variableCollectionId := "c:2"; resolvedType := COLOR;
                 description := EmptyString; valuesByMode := ∅ |} ];
          allocated := 0 |};
     posted := [] |}.

(** A variable whose collection the host does not list. *)
Definition orphanVariable : State :=
  {| host :=
       {| collections := [];
          variables :=
            [ {| variable_id := "v:1"; variable_name := "Color/Primary";
                 variableCollectionId := "c:9"; resolvedType := COLOR;
                 description := EmptyString; valuesByMode := ∅ |} ];
          allocated := 0 |};
     posted := [] |}.


(* ================================================================== *)
(** * Vocabulary of the statements about the traversal *)
(* ================================================================== *)

(** [reaches t prefix path leaf]: going down the object [t], whose own
    path is [prefix], through keys that are not reserved and objects that
    are groups, one comes to the token [leaf], at [path]. *)
Inductive reaches : val -> string -> string -> val -> Prop :=
| reaches_leaf kind props prefix key leaf :
    In (key, leaf) props ->
    skippedKey key = false ->
    isVariable leaf = true ->
    reaches (VObj kind props) prefix (newKey prefix key) leaf
| reaches_group kind props prefix key group path leaf :
    In (key, group) props ->
    skippedKey key = false ->
    isVariable group = false ->
    reaches group (newKey prefix key) path leaf ->
    reaches (VObj kind props) prefix path leaf.

(** A tree for the examples: a group with a DTCG token and a legacy
    token, and a reserved key. *)
Definition mixedTree : val :=
  Sim.obj [ ("$description", VStr "brand colours");
            ("Color",
             Sim.obj [ ("Primary", token "color" (VStr "#FF0000"));
                       ("Muted", legacyLeaf (VStr "color") (VStr "#888888") (VStr "grey")) ]) ].

(** A document whose token [Accent] names its alias target by the explicit
    fields, with a colour as its value. *)
Definition explicitTargets : val :=
  singleMode "Brand" "Light"
    (Sim.obj [ ("Primary", token "color" (VStr "#FF0000"));
               ("Accent",
                Sim.obj [ ("$type", VStr "color"); ("$value", VStr "#00FF00");
                          ("targetCollection", VStr "Brand");
                          ("targetVariable", VStr "Primary") ]) ]).

(** The same token, with the target as a braced reference. *)
Definition bracedReference : val :=
  singleMode "Brand" "Light"
    (Sim.obj [ ("Primary", token "color" (VStr "#FF0000"));
               ("Accent", token "color" (VStr "{Brand.Primary}")) ]).

(** An alias as the export of the first revision writes it: no value. *)
Definition exportedAlias : val :=
  Sim.obj [ ("type", VStr "VARIABLE_ALIAS"); ("description", VStr EmptyString);
            ("targetCollection", VStr "Brand"); ("targetVariable", VStr "Primary") ].


(** A host that takes no new collection (a file open for viewing only). *)
Definition viewOnly : Environment :=
  {| Number_toString := Sim.showNumber;
     ToNumber_other := fun _ => NNaN;
     util_rgb := Sim.rgb;
     createVariable_error := fun _ _ _ _ => Some "Error: in createVariable: read-only file";
     setValueForMode_error := fun _ _ _ _ => Some "Error: in setValueForMode: read-only file";
     createVariableCollection_error := fun _ _ =>
       Some "Error: in createVariableCollection: read-only file";
     renameMode_error := fun _ _ _ _ => Some "Error: in renameMode: read-only file";
     addMode_error := fun _ _ _ => Some "Error: in addMode: read-only file" |}.

(*DEFS-END*)

(* ================================================================== *)
(** * Properties: colours in the simplified export *)
(* ================================================================== *)

Lemma wrap32_small z : (- 2 ^ 31 <= z < 2 ^ 31)%Z -> Hex.wrap32 z = z.
Proof. intros H. unfold Hex.wrap32. rewrite Z.mod_small; lia. Qed.

Lemma shiftLeft_byte x k :
  (0 <= x <= 255)%Z -> (k = 8 \/ k = 16)%Z -> Hex.shiftLeft x k = (x * 2 ^ k)%Z.
Proof.
  intros Hx Hk. unfold Hex.shiftLeft.
  rewrite (wrap32_small x) by lia.
  assert (k mod 32 = k)%Z as -> by (destruct Hk; subst; reflexivity).
  rewrite Z.shiftl_mul_pow2 by lia.
  apply wrap32_small. destruct Hk; subst; lia.
Qed.

Lemma hexDigits_step fuel q d acc :
  (0 < q)%Z -> (0 <= d < 16)%Z ->
  Hex.hexDigits (S fuel) (16 * q + d) acc = Hex.hexDigits fuel q (String (Hex.hexDigit d) acc).
Proof.
  intros Hq Hd. simpl.
  destruct (Z.ltb_spec (16 * q + d) 16); [lia|].
  replace ((16 * q + d) / 16)%Z with q by (apply Z.div_unique with d; lia).
  replace ((16 * q + d) mod 16)%Z with d by (apply Z.mod_unique with q; lia).
  reflexivity.
Qed.

Lemma hexDigits_last fuel d acc :
  (0 <= d < 16)%Z -> Hex.hexDigits (S fuel) d acc = String (Hex.hexDigit d) acc.
Proof. intros Hd. simpl. destruct (Z.ltb_spec d 16); [reflexivity|lia]. Qed.

Lemma nibble_cases d :
  (0 <= d < 16)%Z ->
  (d = 0 \/ d = 1 \/ d = 2 \/ d = 3 \/ d = 4 \/ d = 5 \/ d = 6 \/ d = 7 \/ d = 8
   \/ d = 9 \/ d = 10 \/ d = 11 \/ d = 12 \/ d = 13 \/ d = 14 \/ d = 15)%Z.
Proof. lia. Qed.

Lemma upper_hexDigit d :
  (0 <= d < 16)%Z -> JsString.upper_ascii (Hex.hexDigit d) = upperHexDigit d.
Proof.
  intros Hd. pose proof (nibble_cases d Hd) as H.
  repeat (destruct H as [-> | H]; [reflexivity|]). subst; reflexivity.
Qed.

Lemma upperHexDigit_ok d : (0 <= d < 16)%Z -> isUpperHexDigit (upperHexDigit d) = true.
Proof.
  intros Hd. pose proof (nibble_cases d Hd) as H.
  repeat (destruct H as [-> | H]; [reflexivity|]). subst; reflexivity.
Qed.

Lemma nibbles x :
  (0 <= x <= 255)%Z -> (0 <= x / 16 < 16)%Z /\ (0 <= x mod 16 < 16)%Z.
Proof.
  intros Hx. split.
  - split; [apply Z.div_pos; lia | apply Z.div_lt_upper_bound; lia].
  - apply Z.mod_pos_bound; lia.
Qed.

Lemma toString16_rgb R G B :
  (0 <= R <= 255)%Z -> (0 <= G <= 255)%Z -> (0 <= B <= 255)%Z ->
  JsString.toUpperCase
    (JsString.slice1 (Hex.toString16 (2 ^ 24 + R * 2 ^ 16 + G * 2 ^ 8 + B)))
  = (hexPair R ++ hexPair G ++ hexPair B)%string.
Proof.
  intros HR HG HB.
  set (n := (2 ^ 24 + R * 2 ^ 16 + G * 2 ^ 8 + B)%Z).
  assert (Hn : (2 ^ 24 <= n < 2 ^ 25)%Z) by (unfold n; lia).
  unfold Hex.toString16.
  destruct (Z.ltb_spec n 0); [lia|].
  assert (Z.log2 n = 24)%Z as -> by (apply Z.log2_unique; lia).
  change (S (Z.to_nat 24)) with (S (S (S (S (S (S (S 18))))))).
  pose proof (Z.div_mod R 16 ltac:(lia)) as ER.
  pose proof (Z.div_mod G 16 ltac:(lia)) as EG.
  pose proof (Z.div_mod B 16 ltac:(lia)) as EB.
  destruct (nibbles R HR), (nibbles G HG), (nibbles B HB).
  replace n with
    (16 * (16 * (16 * (16 * (16 * (16 * 1 + R / 16) + R mod 16) + G / 16) + G mod 16)
           + B / 16) + B mod 16)%Z by (unfold n; lia).
  rewrite !hexDigits_step by lia.
  rewrite hexDigits_last by lia.
  unfold JsString.slice1, JsString.toUpperCase. simpl JsString.map_ascii.
  rewrite !upper_hexDigit by lia. reflexivity.
Qed.

Lemma hexPair_ok x : (0 <= x <= 255)%Z -> allChars isUpperHexDigit (hexPair x) = true.
Proof.
  intros Hx. destruct (nibbles x Hx). unfold hexPair. simpl.
  rewrite !upperHexDigit_ok by lia. reflexivity.
Qed.

Lemma allChars_app p s t :
  allChars p (s ++ t)%string = allChars p s && allChars p t.
Proof. induction s as [|c s IH]; simpl; [reflexivity|]. rewrite IH. apply andb_assoc. Qed.

(** [Math.round] of a channel scaled to 255 stays within a byte and is a
    nearest integer. *)
Lemma round_channel (x : Q) :
  (0 <= x <= 1)%Q ->
  (0 <= JsNumber.round (x * 255) <= 255)%Z
  /\ (x * 255 - (1 # 2) < inject_Z (JsNumber.round (x * 255)) <= x * 255 + (1 # 2))%Q.
Proof.
  intros [H0 H1]. unfold JsNumber.round.
  assert (Hlo : (0 <= x * 255 + (1 # 2))%Q) by lra.
  assert (Hhi : (x * 255 + (1 # 2) <= 1 * 255 + (1 # 2))%Q) by lra.
  split.
  - split.
    + change 0%Z with (Qfloor 0). apply Qfloor_resp_le. exact Hlo.
    + change 255%Z with (Qfloor (1 * 255 + (1 # 2))). apply Qfloor_resp_le. exact Hhi.
  - pose proof (Qlt_floor (x * 255 + (1 # 2))) as Hlt.
    pose proof (Qfloor_le (x * 255 + (1 # 2))) as Hle.
    rewrite inject_Z_plus in Hlt. change (inject_Z 1) with 1%Q in Hlt.
    split; lra.
Qed.

Lemma rgbToHex_channels (r g b : Q) :
  (0 <= r <= 1)%Q -> (0 <= g <= 1)%Q -> (0 <= b <= 1)%Q ->
  rgbToHex (NFinite r) (NFinite g) (NFinite b)
  = (hexPair (JsNumber.round (r * 255)) ++ hexPair (JsNumber.round (g * 255))
     ++ hexPair (JsNumber.round (b * 255)))%string.
Proof.
  intros Hr Hg Hb.
  destruct (round_channel r Hr) as [HR _].
  destruct (round_channel g Hg) as [HG _].
  destruct (round_channel b Hb) as [HB _].
  unfold rgbToHex, scaleChannel, toInt32.
  cbn [Qnum Qden inject_Z]. rewrite !Z.quot_1_r.
  rewrite (wrap32_small (JsNumber.round (r * 255))) by lia.
  rewrite (wrap32_small (JsNumber.round (g * 255))) by lia.
  rewrite (shiftLeft_byte _ 16) by (auto; lia).
  rewrite (shiftLeft_byte _ 8) by (auto; lia).
  change (Hex.shiftLeft 1 24) with (2 ^ 24)%Z.
  rewrite Qfloor_Z.
  apply toString16_rgb; assumption.
Qed.

Lemma lookup_chars k s i x :
  Js.lookup k (Js.chars i s) = Some x -> exists c, x = VStr c.
Proof.
  revert i. induction s as [|c s IH]; intros i; simpl; [discriminate|].
  destruct (String.eqb _ k); [intros [= <-]; eauto | apply IH].
Qed.

Lemma get_number_is_object v k n :
  Js.get v k = VNum n -> exists kind props, v = VObj kind props /\ Js.has k v = true.
Proof.
  unfold Js.get, Js.has. destruct v as [ | | | | s | kind props]; simpl; try discriminate.
  - destruct (Js.lookup k (Js.chars 0 s)) eqn:E; [|discriminate].
    destruct (lookup_chars _ _ _ _ E) as [c ->]. discriminate.
  - destruct (Js.lookup k props); [eauto | discriminate].
Qed.

(** C7.  In the simplified export a COLOR variable whose value for the mode
    is a colour object (not an alias) with channels r, g, b between 0 and 1
    is rendered as "#" followed by the two upper-case hexadecimal digits of
    each channel, scaled to 255 and rounded to a nearest integer (halves
    up): seven characters, six of them hexadecimal digits, whatever else
    (an alpha channel) the object carries. *)
Theorem simplified_color_is_hex {env : Environment} (variable : HostVariable) (value : val)
  (r g b : Q) :
  resolvedType variable = COLOR ->
  isAliasValue value = false ->
  Js.get value "r" = VNum (NFinite r) ->
  Js.get value "g" = VNum (NFinite g) ->
  Js.get value "b" = VNum (NFinite b) ->
  (0 <= r <= 1)%Q -> (0 <= g <= 1)%Q -> (0 <= b <= 1)%Q ->
  let R := JsNumber.round (r * 255) in
  let G := JsNumber.round (g * 255) in
  let B := JsNumber.round (b * 255) in
  let digits := (hexPair R ++ hexPair G ++ hexPair B)%string in
  convertValueForFormat value variable simplified = Ok (VStr (String "#" digits))
  /\ String.length digits = 6%nat
  /\ allChars isUpperHexDigit digits = true
  /\ (0 <= R <= 255)%Z /\ (0 <= G <= 255)%Z /\ (0 <= B <= 255)%Z
  /\ (r * 255 - (1 # 2) < inject_Z R <= r * 255 + (1 # 2))%Q
  /\ (g * 255 - (1 # 2) < inject_Z G <= g * 255 + (1 # 2))%Q
  /\ (b * 255 - (1 # 2) < inject_Z B <= b * 255 + (1 # 2))%Q.
Proof.
  intros Htype Halias Er Eg Eb Hr Hg Hb R G B digits.
  destruct (round_channel r Hr) as [HR Nr].
  destruct (round_channel g Hg) as [HG Ng].
  destruct (round_channel b Hb) as [HB Nb].
  refine (conj _ (conj _ (conj _ (conj HR (conj HG (conj HB (conj Nr (conj Ng Nb)))))))).
  - unfold convertValueForFormat. rewrite Halias, Htype. simpl resolvedType_eqb.
    assert (Hobj : isColorObject value = Ok true).
    { destruct (get_number_is_object _ _ _ Er) as (kind & props & -> & Hhas).
      unfold isColorObject. rewrite Hhas. reflexivity. }
    rewrite Hobj, Er, Eg, Eb. simpl ToNumber.
    rewrite rgbToHex_channels by assumption. reflexivity.
  - subst digits. unfold hexPair. reflexivity.
  - subst digits. rewrite !allChars_app, !hexPair_ok by assumption. reflexivity.
Qed.

(** Pure red, with an alpha channel, comes out as "#FF0000". *)
Lemma simplified_color_red :
  convertValueForFormat (env := Sim.environment) red (sampleVariable "Color/Primary" COLOR)
    simplified
  = Ok (VStr "#FF0000").
Proof.
  apply (simplified_color_is_hex (env := Sim.environment)
           (sampleVariable "Color/Primary" COLOR) red 1 0 0);
    try reflexivity; split; unfold Qle; simpl; lia.
Defined.

(* ================================================================== *)
(** * Properties: alias detection *)
(* ================================================================== *)

Lemma substring_prefix_app a b :
  String.substring 0 (String.length a) (a ++ b)%string = a.
Proof. induction a as [|c a IH]; simpl; [destruct b; reflexivity | now rewrite IH]. Qed.

Lemma substring_whole b : String.substring 0 (String.length b) b = b.
Proof. induction b as [|c b IH]; simpl; [reflexivity | now rewrite IH]. Qed.

Lemma substring_suffix_app a b :
  String.substring (String.length a) (String.length b) (a ++ b)%string = b.
Proof. induction a as [|c a IH]; simpl; [apply substring_whole | exact IH]. Qed.

Lemma length_app_string a b :
  String.length (a ++ b)%string = (String.length a + String.length b)%nat.
Proof. induction a as [|c a IH]; simpl; [reflexivity | now rewrite IH]. Qed.

Lemma braced_startsWith content : JsString.startsWith (braced content) "{" = true.
Proof.
  unfold JsString.startsWith. apply String.prefix_correct.
  destruct content; reflexivity.
Qed.

Lemma braced_endsWith content : JsString.endsWith (braced content) "}" = true.
Proof.
  unfold JsString.endsWith, braced.
  set (x := String "{" content).
  change (String "{" (content ++ "}")) with (x ++ "}")%string.
  rewrite length_app_string.
  replace (String.length x + String.length "}" - String.length "}")%nat
    with (String.length x) by lia.
  rewrite substring_suffix_app.
  destruct (Nat.leb_spec (String.length "}") (String.length x + String.length "}"));
    [reflexivity | lia].
Qed.

Lemma js_substring_ordered s a b :
  (a <= b <= String.length s)%nat ->
  JsString.substring s a b = String.substring a (b - a) s.
Proof.
  intros H. unfold JsString.substring.
  replace (Nat.min a (String.length s)) with a by lia.
  replace (Nat.min b (String.length s)) with b by lia.
  replace (Nat.min a b) with a by lia.
  replace (Nat.max a b) with b by lia.
  reflexivity.
Qed.

Lemma braced_length content : String.length (braced content) = S (S (String.length content)).
Proof. unfold braced. simpl. rewrite length_app_string. simpl. lia. Qed.

Lemma braced_content content :
  JsString.substring (braced content) 1 (String.length (braced content) - 1) = content.
Proof.
  rewrite js_substring_ordered by (rewrite braced_length; lia).
  rewrite braced_length.
  replace (S (S (String.length content)) - 1 - 1)%nat with (String.length content) by lia.
  unfold braced. change (String.substring 1 ?m (String ?c ?t)) with (String.substring 0 m t).
  apply substring_prefix_app.
Qed.

(** Splitting and joining on the same separator are inverse. *)
Lemma join_split (sep : ascii) (s : string) :
  JsString.join (String sep EmptyString) (JsString.split sep s) = s.
Proof.
  unfold JsString.join. induction s as [|c s IH]; simpl; [reflexivity|].
  destruct (Ascii.eqb_spec c sep) as [->|Hne].
  - simpl. destruct (JsString.split sep s) eqn:E.
    + destruct s; simpl in E; [discriminate|].
      destruct (Ascii.eqb _ _); [discriminate|]. destruct (JsString.split sep s); discriminate.
    + rewrite IH. reflexivity.
  - destruct (JsString.split sep s) as [|h r] eqn:E.
    + destruct s; simpl in E; [discriminate|].
      destruct (Ascii.eqb _ _); [discriminate|]. destruct (JsString.split sep s); discriminate.
    + simpl in *. destruct r; simpl in *; now rewrite <- IH.
Qed.

(** The detection rule, as a function of the record's fields. *)
Lemma aliasTarget_explicit varData :
  Js.truthy (Js.get varData "targetCollection") = true ->
  Js.truthy (Js.get varData "targetVariable") = true ->
  aliasTarget varData
  = Some (Js.get varData "targetCollection", Js.get varData "targetVariable").
Proof. intros H1 H2. unfold aliasTarget. rewrite H1, H2. reflexivity. Qed.

Lemma aliasTarget_braced varData content :
  Js.truthy (Js.get varData "targetCollection")
  && Js.truthy (Js.get varData "targetVariable") = false ->
  Js.get varData "$value" = VStr (braced content) ->
  aliasTarget varData
  = let parts := JsString.split "."%char content in
    if (2 <=? length parts)%nat
    then Some (VStr (hd EmptyString parts), VStr (JsString.join "/" (tl parts)))
    else None.
Proof.
  intros H1 H2. unfold aliasTarget. rewrite H1, H2.
  rewrite braced_startsWith, braced_endsWith, braced_content. reflexivity.
Qed.

Lemma Rev1_aliasTarget_braced varData content :
  strictEq_string "VARIABLE_ALIAS" (Js.get varData "type")
  && Js.truthy (Js.get varData "targetCollection")
  && Js.truthy (Js.get varData "targetVariable") = false ->
  Js.get varData "value" = VStr (braced content) ->
  Rev1.aliasTarget varData
  = let parts := JsString.split "."%char content in
    if (2 <=? length parts)%nat
    then Some (VStr (hd EmptyString parts), VStr (JsString.join "/" (tl parts)))
    else None.
Proof.
  intros H1 H2. unfold Rev1.aliasTarget. rewrite H1, H2.
  rewrite braced_startsWith, braced_endsWith, braced_content. reflexivity.
Qed.

(** The detection rule as a function of the fields of a record, in the
    two revisions: explicit target fields that are both truthy (with the
    type tag [VARIABLE_ALIAS], in the first revision) come first; then a
    string value [{content}], which is a reference exactly when [content]
    has two segments or more. *)
Lemma aliasTarget_rule (varData : val) :
  (* second revision *)
  (Js.truthy (Js.get varData "targetCollection") = true ->
   Js.truthy (Js.get varData "targetVariable") = true ->
   aliasTarget varData
   = Some (Js.get varData "targetCollection", Js.get varData "targetVariable"))
  /\ (Js.truthy (Js.get varData "targetCollection")
      && Js.truthy (Js.get varData "targetVariable") = false ->
      (forall content,
          Js.get varData "$value" = VStr (braced content) ->
          (2 <= length (JsString.split "."%char content))%nat ->
          aliasTarget varData = Some (bracedTarget content))
      /\ (forall content,
          Js.get varData "$value" = VStr (braced content) ->
          (length (JsString.split "."%char content) < 2)%nat ->
          aliasTarget varData = None)
      /\ (Js.typeof_string (Js.get varData "$value") = false -> aliasTarget varData = None))
  (* first revision *)
  /\ (Js.get varData "type" = VStr "VARIABLE_ALIAS" ->
      Js.truthy (Js.get varData "targetCollection") = true ->
      Js.truthy (Js.get varData "targetVariable") = true ->
      Rev1.aliasTarget varData
      = Some (Js.get varData "targetCollection", Js.get varData "targetVariable"))
  /\ (strictEq_string "VARIABLE_ALIAS" (Js.get varData "type")
      && Js.truthy (Js.get varData "targetCollection")
      && Js.truthy (Js.get varData "targetVariable") = false ->
      (forall content,
          Js.get varData "value" = VStr (braced content) ->
          (2 <= length (JsString.split "."%char content))%nat ->
          Rev1.aliasTarget varData = Some (bracedTarget content))
      /\ (forall content,
          Js.get varData "value" = VStr (braced content) ->
          (length (JsString.split "."%char content) < 2)%nat ->
          Rev1.aliasTarget varData = None)
      /\ (Js.typeof_string (Js.get varData "value") = false ->
          Rev1.aliasTarget varData = None)).
Proof.
  unfold bracedTarget. repeat apply conj.
  - apply aliasTarget_explicit.
  - intros Hno. repeat apply conj.
    + intros content Hv Hlen. rewrite (aliasTarget_braced _ content Hno Hv).
      cbv zeta. destruct (Nat.leb_spec 2 (length (JsString.split "."%char content)));
        [reflexivity | lia].
    + intros content Hv Hlen. rewrite (aliasTarget_braced _ content Hno Hv).
      cbv zeta. destruct (Nat.leb_spec 2 (length (JsString.split "."%char content)));
        [lia | reflexivity].
    + intros Hv. unfold aliasTarget. rewrite Hno.
      destruct (Js.get varData "$value"); try reflexivity. discriminate Hv.
  - intros Ht H1 H2. unfold Rev1.aliasTarget. rewrite Ht, H1, H2. reflexivity.
  - intros Hno. repeat apply conj.
    + intros content Hv Hlen. rewrite (Rev1_aliasTarget_braced _ content Hno Hv).
      cbv zeta. destruct (Nat.leb_spec 2 (length (JsString.split "."%char content)));
        [reflexivity | lia].
    + intros content Hv Hlen. rewrite (Rev1_aliasTarget_braced _ content Hno Hv).
      cbv zeta. destruct (Nat.leb_spec 2 (length (JsString.split "."%char content)));
        [lia | reflexivity].
    + intros Hv. unfold Rev1.aliasTarget. rewrite Hno.
      destruct (Js.get varData "value"); try reflexivity. discriminate Hv.
Qed.

(* ================================================================== *)
(** * Properties: alias resolution *)
(* ================================================================== *)

Lemma find_from_first {A} (p : A -> bool) (l : list A) (k i : nat) (x : A) :
  find_from p l k = Some (i, x) <->
  exists j, i = (k + j)%nat /\ firstWith p l j x.
Proof.
  revert k. induction l as [|y l IH]; intros k; simpl.
  - split; [discriminate|]. intros (j & _ & H & _). discriminate H.
  - destruct (p y) eqn:Hy.
    + split.
      * intros [= <- <-]. exists 0%nat. split; [lia|].
        split; [reflexivity|]. split; [exact Hy|]. intros j z Hj; lia.
      * intros (j & -> & Hj & Hp & Hfirst). destruct j as [|j].
        -- simpl in Hj. injection Hj as <-. f_equal. f_equal. lia.
        -- specialize (Hfirst 0%nat y ltac:(lia) eq_refl). congruence.
    + rewrite IH. split.
      * intros (j & -> & Hj & Hp & Hfirst). exists (S j). split; [lia|].
        split; [exact Hj|]. split; [exact Hp|].
        intros [|j'] z Hlt Hz; [simpl in Hz; congruence|].
        apply (Hfirst j' z); [lia | exact Hz].
      * intros (j & -> & Hj & Hp & Hfirst). destruct j as [|j].
        -- simpl in Hj. congruence.
        -- exists j. split; [lia|]. split; [exact Hj|]. split; [exact Hp|].
           intros j' z Hlt Hz. apply (Hfirst (S j') z); [lia | exact Hz].
Qed.

(** [find] returns the first element that passes the test. *)
Lemma js_find_first {A} (p : A -> bool) (l : list A) (i : nat) (x : A) :
  js_find p l = Some (i, x) <-> firstWith p l i x.
Proof.
  unfold js_find. rewrite find_from_first. split.
  - intros (j & -> & H). exact H.
  - intros H. exists i. split; [reflexivity | exact H].
Qed.

Lemma find_from_none {A} (p : A -> bool) (l : list A) (k : nat) :
  find_from p l k = None <-> noneWith p l.
Proof.
  revert k. induction l as [|y l IH]; intros k; simpl.
  - split; [intros _ x []|reflexivity].
  - destruct (p y) eqn:Hy.
    + split; [discriminate|]. intros H. specialize (H y (or_introl eq_refl)). congruence.
    + rewrite IH. split.
      * intros H x [<-|Hx]; [exact Hy | apply H, Hx].
      * intros H x Hx. apply H. right. exact Hx.
Qed.

Lemma js_find_none {A} (p : A -> bool) (l : list A) :
  js_find p l = None <-> noneWith p l.
Proof. apply find_from_none. Qed.

Lemma resolveAlias_no_exact {env : Environment} (tc tv : val) (s : State) :
  noExactMatch tc tv (host s) ->
  match js_find (collectionNamed tc) (collections (host s)) with
  | Some col => js_find (variableNamedIn tv (snd col)) (variables (host s))
  | None => None
  end = None.
Proof.
  intros [Hnone | (ci & col & Hcol & Hnone)].
  - apply js_find_none in Hnone. rewrite Hnone. reflexivity.
  - apply js_find_first in Hcol. rewrite Hcol. apply js_find_none. exact Hnone.
Qed.

Lemma noExactMatchFor_val tc tv h :
  noExactMatchFor tc tv h -> noExactMatch (VStr tc) (VStr tv) h.
Proof. intros H. exact H. Qed.

(** C4.  An alias target, given by the names [tc] of a collection and [tv]
    of a variable, is looked up first as the first variable called [tv] with
    the id of the first collection called [tc]; when that succeeds the
    resolver returns it and posts nothing.  Only when it does not (no
    collection is called [tc], or the first one has no such variable), the
    first variable called [tv] anywhere is taken, and one WARN is posted:
    [Fuzzy match found for alias "tv": Expected collection "tc", found in
    "F"], where [F] is the name of the first collection with the id the
    variable has, or [undefined] when there is none.  When that fails too,
    nothing is found and nothing is posted. *)
Theorem alias_resolution_exact_before_fuzzy {env : Environment} (tc tv : string) (s : State) :
  (forall ci col vi v,
      firstWith (collectionCalled tc) (collections (host s)) ci col ->
      firstWith (variableCalledIn tv col) (variables (host s)) vi v ->
      resolveAlias (VStr tc) (VStr tv) s = (Ok (Some (vi, v)), s))
  /\ (forall vi v fi fcol,
      noExactMatchFor tc tv (host s) ->
      firstWith (variableCalled tv) (variables (host s)) vi v ->
      firstWith (collectionWithId (variableCollectionId v)) (collections (host s)) fi fcol ->
      resolveAlias (VStr tc) (VStr tv) s
      = (Ok (Some (vi, v)),
         {| host := host s;
            posted :=
              posted s
              ++ [ MLog WARN ("Fuzzy match found for alias " ++ doubleQuote ++ tv
                              ++ doubleQuote ++ ": Expected collection " ++ doubleQuote
                              ++ tc ++ doubleQuote ++ ", found in " ++ doubleQuote
                              ++ collection_name fcol ++ doubleQuote) ] |}))
  /\ (forall vi v,
      noExactMatchFor tc tv (host s) ->
      firstWith (variableCalled tv) (variables (host s)) vi v ->
      noneWith (collectionWithId (variableCollectionId v)) (collections (host s)) ->
      resolveAlias (VStr tc) (VStr tv) s
      = (Ok (Some (vi, v)),
         {| host := host s;
            posted :=
              posted s
              ++ [ MLog WARN ("Fuzzy match found for alias " ++ doubleQuote ++ tv
                              ++ doubleQuote ++ ": Expected collection " ++ doubleQuote
                              ++ tc ++ doubleQuote ++ ", found in " ++ doubleQuote
                              ++ "undefined" ++ doubleQuote) ] |}))
  /\ (noExactMatchFor tc tv (host s) ->
      noneWith (variableCalled tv) (variables (host s)) ->
      resolveAlias (VStr tc) (VStr tv) s = (Ok None, s)).
Proof.
  repeat apply conj.
  - intros ci col vi v Hcol Hv.
    apply js_find_first in Hcol. apply js_find_first in Hv.
    unfold collectionCalled in Hcol. unfold variableCalledIn in Hv.
    unfold resolveAlias, bind, getLocalVariableCollections, getLocalVariables, ret.
    cbn [strictEq_string]. rewrite Hcol. cbn [snd]. rewrite Hv. reflexivity.
  - intros vi v fi fcol Hno Hv Hf.
    pose proof (resolveAlias_no_exact (VStr tc) (VStr tv) s (noExactMatchFor_val _ _ _ Hno))
      as Hexact.
    apply js_find_first in Hv. apply js_find_first in Hf.
    unfold collectionNamed, variableNamedIn in Hexact. unfold variableCalled in Hv.
    unfold collectionWithId in Hf.
    unfold resolveAlias, bind, getLocalVariableCollections, getLocalVariables, ret.
    cbn [strictEq_string] in *.
    destruct (js_find (fun c => String.eqb (collection_name c) tc) (collections (host s)))
      as [col|];
      [rewrite Hexact|]; rewrite Hv; cbn [snd]; rewrite Hf; reflexivity.
  - intros vi v Hno Hv Hf.
    pose proof (resolveAlias_no_exact (VStr tc) (VStr tv) s (noExactMatchFor_val _ _ _ Hno))
      as Hexact.
    apply js_find_first in Hv. apply js_find_none in Hf.
    unfold collectionNamed, variableNamedIn in Hexact. unfold variableCalled in Hv.
    unfold collectionWithId in Hf.
    unfold resolveAlias, bind, getLocalVariableCollections, getLocalVariables, ret.
    cbn [strictEq_string] in *.
    destruct (js_find (fun c => String.eqb (collection_name c) tc) (collections (host s)))
      as [col|];
      [rewrite Hexact|]; rewrite Hv; cbn [snd]; rewrite Hf; reflexivity.
  - intros Hno Hnone.
    pose proof (resolveAlias_no_exact (VStr tc) (VStr tv) s (noExactMatchFor_val _ _ _ Hno))
      as Hexact.
    apply js_find_none in Hnone.
    unfold collectionNamed, variableNamedIn in Hexact. unfold variableCalled in Hnone.
    unfold resolveAlias, bind, getLocalVariableCollections, getLocalVariables, ret.
    cbn [strictEq_string] in *.
    destruct (js_find (fun c => String.eqb (collection_name c) tc) (collections (host s)))
      as [col|];
      [rewrite Hexact|]; rewrite Hnone; reflexivity.
Qed.

(** With [Color/Primary] in both [B] and [A], in that order, the reference
    [{A.Color.Primary}] resolves to the variable of [A], silently; the
    reference [{C.Color.Primary}], to a collection the host has not,
    resolves to the variable of [B] with the warning; a variable whose
    collection is not listed is found under the name [undefined]; and a
    name no variable has resolves to nothing. *)
Lemma alias_resolution_prefers_exact :
  resolveAlias (env := Sim.environment) (VStr "A") (VStr "Color/Primary") twoCollections
  = (Ok (Some (1%nat, {| variable_id := "v:A"; variable_name := "Color/Primary";
                         variableCollectionId := "c:A"; resolvedType := COLOR;
                         description := EmptyString; valuesByMode := ∅ |})),
     twoCollections)
  /\ resolveAlias (env := Sim.environment) (VStr "C") (VStr "Color/Primary") twoCollections
     = (Ok (Some (0%nat, {| variable_id := "v:B"; variable_name := "Color/Primary";
                            variableCollectionId := "c:B"; resolvedType := COLOR;
                            description := EmptyString; valuesByMode := ∅ |})),
        {| host := host twoCollections;
           posted :=
             posted twoCollections
             ++ [ MLog WARN ("Fuzzy match found for alias " ++ doubleQuote ++ "Color/Primary"
                             ++ doubleQuote ++ ": Expected collection " ++ doubleQuote
                             ++ "C" ++ doubleQuote ++ ", found in " ++ doubleQuote
                             ++ "B" ++ doubleQuote) ] |})
  /\ resolveAlias (env := Sim.environment) (VStr "C") (VStr "Color/Primary") orphanVariable
     = (Ok (Some (0%nat, {| variable_id := "v:1"; variable_name := "Color/Primary";
                            variableCollectionId := "c:9"; resolvedType := COLOR;
                            description := EmptyString; valuesByMode := ∅ |})),
        {| host := host orphanVariable;
           posted :=
             posted orphanVariable
             ++ [ MLog WARN ("Fuzzy match found for alias " ++ doubleQuote ++ "Color/Primary"
                             ++ doubleQuote ++ ": Expected collection " ++ doubleQuote
                             ++ "C" ++ doubleQuote ++ ", found in " ++ doubleQuote
                             ++ "undefined" ++ doubleQuote) ] |})
  /\ resolveAlias (env := Sim.environment) (VStr "A") (VStr "Size/Small") twoCollections
     = (Ok None, twoCollections).
Proof.
  split; [|split; [|split]].
  - refine (proj1 (alias_resolution_exact_before_fuzzy (env := Sim.environment)
                     "A" "Color/Primary" twoCollections)
              1%nat {| collection_id := "c:A"; collection_name := "A";
                       collection_modes := [ {| modeId := "m:A"; mode_name := "Light" |} ] |}
              1%nat _ _ _).
    + apply js_find_first. reflexivity.
    + apply js_find_first. reflexivity.
  - refine (proj1 (proj2 (alias_resolution_exact_before_fuzzy (env := Sim.environment)
                            "C" "Color/Primary" twoCollections))
              0%nat _ 0%nat
              {| collection_id := "c:B"; collection_name := "B";
                 collection_modes := [ {| modeId := "m:B"; mode_name := "Light" |} ] |}
              _ _ _).
    + left. apply js_find_none. reflexivity.
    + apply js_find_first. reflexivity.
    + apply js_find_first. reflexivity.
  - refine (proj1 (proj2 (proj2 (alias_resolution_exact_before_fuzzy (env := Sim.environment)
                                   "C" "Color/Primary" orphanVariable)))
              0%nat _ _ _ _).
    + left. apply js_find_none. reflexivity.
    + apply js_find_first. reflexivity.
    + apply js_find_none. reflexivity.
  - refine (proj2 (proj2 (proj2 (alias_resolution_exact_before_fuzzy (env := Sim.environment)
                                   "A" "Size/Small" twoCollections))) _ _).
    + right. exists 1%nat, {| collection_id := "c:A"; collection_name := "A";
                collection_modes := [ {| modeId := "m:A"; mode_name := "Light" |} ] |}.
      split; [apply js_find_first; reflexivity | apply js_find_none; reflexivity].
    + apply js_find_none. reflexivity.
Defined.

(** A variable that is in a collection of the target name, and yet is
    resolved by the fallback, with the warning: the host has two collections
    called [A], and the variable is in the second. *)
Lemma duplicate_collection_name_goes_fuzzy :
  (exists col v,
      In col (collections (host duplicateNames))
      /\ In v (variables (host duplicateNames))
      /\ collection_name col = "A"
      /\ variable_name v = "Color/Primary"
      /\ variableCollectionId v = collection_id col)
  /\ posted (snd (resolveAlias (env := Sim.environment) (VStr "A") (VStr "Color/Primary")
                    duplicateNames))
     = [ MLog WARN ("Fuzzy match found for alias " ++ doubleQuote ++ "Color/Primary"
                    ++ doubleQuote ++ ": Expected collection " ++ doubleQuote ++ "A"
                    ++ doubleQuote ++ ", found in " ++ doubleQuote ++ "A" ++ doubleQuote) ].
Proof.
  split.
  - eexists _, _. split; [right; left; reflexivity|]. split; [left; reflexivity|].
    repeat split.
  - vm_compute. reflexivity.
Qed.

(* ================================================================== *)
(** * Properties: the Tailwind export *)
(* ================================================================== *)

Lemma prefix_app p s :
  String.prefix p s = true <-> exists post, s = (p ++ post)%string.
Proof.
  revert s. induction p as [|c p IH]; intros s.
  - split; [intros _; exists s; reflexivity | intros _; destruct s; reflexivity].
  - destruct s as [|d s]; simpl;
      [split; [discriminate | intros [post H]; discriminate H]|].
    destruct (ascii_dec c d) as [->|Hne].
    + rewrite IH. split; intros [post H]; exists post; [now rewrite H | now injection H].
    + split; [discriminate | intros [post H]; injection H as -> _; contradiction].
Qed.

Lemma includes_unfold s p :
  JsString.includes s p
  = String.prefix p s
    || match s with
       | EmptyString => false
       | String _ t => JsString.includes t p
       end.
Proof. destruct s; reflexivity. Qed.

Lemma includes_app s p :
  JsString.includes s p = true <-> exists pre post, s = (pre ++ p ++ post)%string.
Proof.
  induction s as [|c s IH]; rewrite includes_unfold.
  - rewrite orb_false_r, prefix_app. split.
    + intros [post H]. exists EmptyString, post. exact H.
    + intros (pre & post & H). destruct pre; [exists post; exact H | discriminate H].
  - rewrite orb_true_iff, prefix_app, IH. split.
    + intros [[post H] | (pre & post & H)].
      * exists EmptyString, post. exact H.
      * exists (String c pre), post. simpl. now rewrite H.
    + intros (pre & post & H). destruct pre as [|d pre].
      * left. exists post. exact H.
      * right. injection H as -> H. exists pre, post. exact H.
Qed.

Lemma map_ascii_app f a b :
  JsString.map_ascii f (a ++ b)%string
  = (JsString.map_ascii f a ++ JsString.map_ascii f b)%string.
Proof. induction a as [|c a IH]; simpl; [reflexivity | now rewrite IH]. Qed.

Lemma map_ascii_split f s a b :
  JsString.map_ascii f s = (a ++ b)%string ->
  exists a' b', s = (a' ++ b')%string
                /\ JsString.map_ascii f a' = a /\ JsString.map_ascii f b' = b.
Proof.
  revert s. induction a as [|c a IH]; intros s H.
  - exists EmptyString, s. repeat split. exact H.
  - destruct s as [|d s]; [discriminate H|]. simpl in H. injection H as <- H.
    destruct (IH s H) as (a' & b' & -> & <- & <-).
    exists (String d a'), b'. repeat split.
Qed.

(** The plugin's test, [name.toLowerCase().includes(keyword)], is
    containment of the keyword whatever the case of the letters. *)
Lemma includes_lower name keyword :
  JsString.includes (JsString.toLowerCase name) keyword = true <-> containsCI name keyword.
Proof.
  rewrite includes_app. unfold containsCI, JsString.toLowerCase. split.
  - intros (pre & post & H).
    destruct (map_ascii_split _ _ _ _ H) as (pre' & rest & -> & <- & Hrest).
    destruct (map_ascii_split _ _ _ _ Hrest) as (mid & post' & -> & <- & <-).
    exists pre', mid, post'. split; reflexivity.
  - intros (pre & mid & post & -> & <-).
    exists (JsString.map_ascii JsString.lower_ascii pre),
      (JsString.map_ascii JsString.lower_ascii post).
    now rewrite !map_ascii_app.
Qed.

Lemma includes_lower_false name keyword :
  JsString.includes (JsString.toLowerCase name) keyword = false <-> ~ containsCI name keyword.
Proof.
  rewrite <- includes_lower. destruct (JsString.includes _ _); split; congruence.
Qed.

Lemma spacing_test name :
  JsString.includes (JsString.toLowerCase name) "spacing"
  || JsString.includes (JsString.toLowerCase name) "space"
  || JsString.includes (JsString.toLowerCase name) "gap"
  || JsString.includes (JsString.toLowerCase name) "margin"
  || JsString.includes (JsString.toLowerCase name) "padding" = true
  <-> spacingName name.
Proof. unfold spacingName. rewrite !orb_true_iff, !includes_lower. tauto. Qed.

Lemma fontSize_test name :
  JsString.includes (JsString.toLowerCase name) "font"
  && JsString.includes (JsString.toLowerCase name) "size" = true
  <-> fontSizeName name.
Proof. unfold fontSizeName. rewrite andb_true_iff, !includes_lower. tauto. Qed.

Lemma radius_test name :
  JsString.includes (JsString.toLowerCase name) "radius"
  || JsString.includes (JsString.toLowerCase name) "rounded" = true
  <-> radiusName name.
Proof. unfold radiusName. rewrite orb_true_iff, !includes_lower. tauto. Qed.

(** The section of a FLOAT, rule by rule, in the order the rules are tried. *)
Lemma floatSection_rules name :
  (spacingName name -> floatSection (JsString.toLowerCase name) = spacing)
  /\ (~ spacingName name -> fontSizeName name ->
      floatSection (JsString.toLowerCase name) = fontSize)
  /\ (~ spacingName name -> ~ fontSizeName name -> radiusName name ->
      floatSection (JsString.toLowerCase name) = borderRadius)
  /\ (~ spacingName name -> ~ fontSizeName name -> ~ radiusName name ->
      floatSection (JsString.toLowerCase name) = spacing).
Proof.
  rewrite <- spacing_test, <- fontSize_test, <- radius_test. unfold floatSection.
  destruct (_ || _ || _ || _ || _); [repeat split; intros; congruence|].
  destruct (_ && _); [repeat split; intros; congruence|].
  destruct (_ || _); repeat split; intros; congruence.
Qed.

Lemma section_assign_same sec key x t :
  section sec (assign sec key x t) = <[key := x]> (section sec t).
Proof. destruct sec; reflexivity. Qed.

Lemma section_assign_other sec sec' key x t :
  sec <> sec' -> section sec (assign sec' key x t) = section sec t.
Proof. intros Hne. destruct sec, sec'; try reflexivity; contradiction. Qed.

Lemma isFloatSection_floatSection lowerName : isFloatSection (floatSection lowerName).
Proof.
  unfold isFloatSection, floatSection.
  destruct (_ || _ || _ || _ || _); [auto|].
  destruct (_ && _); [auto|]. destruct (_ || _); auto.
Qed.

Lemma foldResult_invariant {A B} (step : A -> B -> Result B) (P : B -> Prop) l acc r :
  (forall x a a', In x l -> step x a = Ok a' -> P a -> P a') ->
  P acc -> foldResult step l acc = Ok r -> P r.
Proof.
  revert acc. induction l as [|x l IH]; intros acc Hstep Hacc H; simpl in H.
  - injection H as <-. exact Hacc.
  - destruct (step x acc) as [acc'|e] eqn:E; [|discriminate H].
    apply (IH acc'); [| |exact H].
    + intros y a a' Hy. apply Hstep. right. exact Hy.
    + apply (Hstep x acc acc'); [left; reflexivity | exact E | exact Hacc].
Qed.

Lemma foldResult_reaches {A B} (step : A -> B -> Result B) (Q : B -> Prop) l acc r x :
  (forall y a a', In y l -> step y a = Ok a' -> Q a -> Q a') ->
  (forall a a', step x a = Ok a' -> Q a') ->
  In x l -> foldResult step l acc = Ok r -> Q r.
Proof.
  revert acc. induction l as [|y l IH]; intros acc Hmono Hx Hin H; [destruct Hin|].
  simpl in H. destruct (step y acc) as [acc'|e] eqn:E; [|discriminate H].
  destruct Hin as [->|Hin].
  - apply (foldResult_invariant step Q l acc' r); [| |exact H].
    + intros z a a' Hz. apply Hmono. right. exact Hz.
    + apply (Hx acc acc'). exact E.
  - apply (IH acc'); [| exact Hx | exact Hin | exact H].
    intros z a a' Hz. apply Hmono. right. exact Hz.
Qed.

(** A FLOAT is written to the section its name selects, with the unit. *)
Lemma tailwindVariable_FLOAT {env : Environment} all variable value theme :
  resolvedType variable = FLOAT ->
  tailwindVariable all variable value theme
  = Ok (assign (floatSection (JsString.toLowerCase (variable_name variable)))
          (tailwindKey (variable_name variable))
          (VStr (toString value ++ "px")) theme).
Proof. intros H. unfold tailwindVariable. rewrite H. reflexivity. Qed.

(** A variable of another type leaves those sections alone. *)
Lemma tailwindVariable_other {env : Environment} all variable value theme theme' sec :
  resolvedType variable <> FLOAT -> isFloatSection sec ->
  tailwindVariable all variable value theme = Ok theme' ->
  section sec theme' = section sec theme.
Proof.
  intros Hne Hsec H. unfold tailwindVariable in H.
  destruct (resolvedType variable); [| contradiction | |].
  - destruct (isAliasValue value).
    + destruct (js_find _ all); injection H as <-;
        destruct Hsec as [-> | [-> | ->]]; reflexivity.
    + destruct (isColorObject value) as [[|]|]; [| |discriminate H]; injection H as <-;
        destruct Hsec as [-> | [-> | ->]]; reflexivity.
  - injection H as <-. reflexivity.
  - destruct (_ && _);
      [injection H as <-; destruct Hsec as [-> | [-> | ->]]; reflexivity|].
    destruct (JsString.includes _ "shadow"); injection H as <-;
      destruct Hsec as [-> | [-> | ->]]; reflexivity.
Qed.

Section TailwindInvariant.

Context {env : Environment} (h : Host).

Let Inv (theme : ThemeConfig) : Prop :=
  forall sec key x, isFloatSection sec -> section sec theme !! key = Some x ->
                    floatEntry h sec key x.

Let Has (sec : Section_) (key : string) (theme : ThemeConfig) : Prop :=
  is_Some (section sec theme !! key).

Lemma tailwindVariable_invariant c m ms v theme theme' :
  In c (collections h) -> collection_modes c = m :: ms ->
  In v (variables h) -> variableCollectionId v = collection_id c ->
  tailwindVariable (variables h) v (default VUndefined (valuesByMode v !! modeId m)) theme
  = Ok theme' ->
  Inv theme -> Inv theme'.
Proof.
  intros Hc Hm Hv Hid H HInv sec key x Hsec Hx.
  destruct (resolvedType v) eqn:Ht;
    try (assert (Hne : resolvedType v <> FLOAT) by congruence;
         rewrite (tailwindVariable_other _ _ _ _ _ sec Hne Hsec H) in Hx;
         exact (HInv sec key x Hsec Hx)).
  rewrite (tailwindVariable_FLOAT _ _ _ _ Ht) in H. injection H as <-.
  set (sec' := floatSection (JsString.toLowerCase (variable_name v))) in *.
  assert (Hdec : sec = sec' \/ sec <> sec') by (destruct sec, sec'; auto; right; discriminate).
  destruct Hdec as [-> | Hne].
  - rewrite section_assign_same in Hx.
    destruct (decide (tailwindKey (variable_name v) = key)) as [<- | Hk].
    + rewrite lookup_insert_eq in Hx. injection Hx as <-.
      exists c, m, ms, v. repeat split; assumption.
    + rewrite lookup_insert_ne in Hx by exact Hk. exact (HInv sec' key x Hsec Hx).
  - rewrite section_assign_other in Hx by exact Hne. exact (HInv sec key x Hsec Hx).
Qed.

Lemma tailwindVariable_keeps all v value theme theme' sec key :
  isFloatSection sec ->
  tailwindVariable all v value theme = Ok theme' ->
  Has sec key theme -> Has sec key theme'.
Proof.
  intros Hsec H Hhas. unfold Has in *.
  destruct (resolvedType v) eqn:Ht;
    try (assert (Hne : resolvedType v <> FLOAT) by congruence;
         rewrite (tailwindVariable_other _ _ _ _ _ sec Hne Hsec H);
         exact Hhas).
  rewrite (tailwindVariable_FLOAT _ _ _ _ Ht) in H. injection H as <-.
  set (sec' := floatSection (JsString.toLowerCase (variable_name v))) in *.
  assert (Hdec : sec = sec' \/ sec <> sec') by (destruct sec, sec'; auto; right; discriminate).
  destruct Hdec as [-> | Hne].
  - rewrite section_assign_same.
    destruct (decide (tailwindKey (variable_name v) = key)) as [<- | Hk].
    + rewrite lookup_insert_eq. eauto.
    + rewrite lookup_insert_ne by exact Hk. exact Hhas.
  - rewrite section_assign_other by exact Hne. exact Hhas.
Qed.

Lemma tailwindCollection_invariant c theme theme' :
  In c (collections h) ->
  tailwindCollection (variables h) c theme = Ok theme' ->
  Inv theme -> Inv theme'.
Proof.
  intros Hc H HInv. unfold tailwindCollection in H.
  destruct (collection_modes c) as [|m ms] eqn:Hm; [injection H as <-; exact HInv|].
  revert H. apply foldResult_invariant; [|exact HInv].
  intros v a a' Hv Hstep Ha.
  apply filter_In in Hv. destruct Hv as [Hv Hid]. apply String.eqb_eq in Hid.
  exact (tailwindVariable_invariant c m ms v a a' Hc Hm Hv Hid Hstep Ha).
Qed.

Lemma tailwindCollection_keeps c theme theme' sec key :
  isFloatSection sec ->
  tailwindCollection (variables h) c theme = Ok theme' ->
  Has sec key theme -> Has sec key theme'.
Proof.
  intros Hsec H Hhas. unfold tailwindCollection in H.
  destruct (collection_modes c) as [|m ms]; [injection H as <-; exact Hhas|].
  revert H. apply foldResult_invariant; [|exact Hhas].
  intros v a a' _ Hstep. exact (tailwindVariable_keeps _ _ _ _ _ _ _ Hsec Hstep).
Qed.

Lemma tailwindTheme_float c m ms v theme :
  tailwindTheme h = Ok theme ->
  In c (collections h) -> collection_modes c = m :: ms ->
  In v (variables h) -> variableCollectionId v = collection_id c ->
  resolvedType v = FLOAT ->
  exists x,
    section (floatSection (JsString.toLowerCase (variable_name v))) theme
      !! tailwindKey (variable_name v) = Some x
    /\ floatEntry h (floatSection (JsString.toLowerCase (variable_name v)))
         (tailwindKey (variable_name v)) x.
Proof.
  intros H Hc Hm Hv Hid Ht. unfold tailwindTheme in H.
  set (sec := floatSection (JsString.toLowerCase (variable_name v))).
  assert (Hsec : isFloatSection sec) by apply isFloatSection_floatSection.
  assert (HInv : Inv theme).
  { revert H. apply foldResult_invariant.
    - intros c' a a' Hc' Hstep. exact (tailwindCollection_invariant c' a a' Hc' Hstep).
    - intros s k x _ Hx.
      assert (section s emptyTheme = ∅) as E by (destruct s; reflexivity).
      rewrite E, lookup_empty in Hx. discriminate. }
  assert (Hhas : Has sec (tailwindKey (variable_name v)) theme).
  { revert H. apply foldResult_reaches with (x := c); [| |exact Hc].
    - intros c' a a' _ Hstep. exact (tailwindCollection_keeps _ _ _ _ _ Hsec Hstep).
    - intros a a' Hstep. unfold tailwindCollection in Hstep. rewrite Hm in Hstep.
      revert Hstep. apply foldResult_reaches with (x := v).
      + intros v' b b' _ Hs. exact (tailwindVariable_keeps _ _ _ _ _ _ _ Hsec Hs).
      + intros b b' Hs. rewrite (tailwindVariable_FLOAT _ _ _ _ Ht) in Hs.
        injection Hs as <-. unfold Has. fold sec.
        rewrite section_assign_same, lookup_insert_eq. eauto.
      + apply filter_In. split; [exact Hv | apply String.eqb_eq; exact Hid]. }
  destruct Hhas as [x Hx]. exists x. split; [exact Hx|].
  exact (HInv sec _ x Hsec Hx).
Qed.

End TailwindInvariant.

(** C9, as the code has it.  In the Tailwind export a FLOAT variable is
    routed by the keywords its name contains, letter case apart, the rules
    being tried in this order: "spacing", "space", "gap", "margin" or
    "padding" gives [spacing]; otherwise "font" together with "size" gives
    [fontSize]; otherwise "radius" or "rounded" gives [borderRadius];
    otherwise [spacing].  What is written under the variable's key is the
    rendering of its value followed by "px".  Over a whole host: every FLOAT
    variable of a collection that has a mode ends up with its key in the
    section its name selects, holding the value, in the first mode of its
    collection, of a FLOAT variable with that key and that section (itself,
    unless a later one has the same key). *)
Theorem tailwind_float_routing {env : Environment} :
  (forall name,
      (spacingName name -> floatSection (JsString.toLowerCase name) = spacing)
      /\ (~ spacingName name -> fontSizeName name ->
          floatSection (JsString.toLowerCase name) = fontSize)
      /\ (~ spacingName name -> ~ fontSizeName name -> radiusName name ->
          floatSection (JsString.toLowerCase name) = borderRadius)
      /\ (~ spacingName name -> ~ fontSizeName name -> ~ radiusName name ->
          floatSection (JsString.toLowerCase name) = spacing))
  /\ (forall all variable value theme,
      resolvedType variable = FLOAT ->
      tailwindVariable all variable value theme
      = Ok (assign (floatSection (JsString.toLowerCase (variable_name variable)))
              (tailwindKey (variable_name variable))
              (VStr (toString value ++ "px")) theme))
  /\ (forall h theme c m ms v,
      tailwindTheme h = Ok theme ->
      In c (collections h) -> collection_modes c = m :: ms ->
      In v (variables h) -> variableCollectionId v = collection_id c ->
      resolvedType v = FLOAT ->
      exists x,
        section (floatSection (JsString.toLowerCase (variable_name v))) theme
          !! tailwindKey (variable_name v) = Some x
        /\ floatEntry h (floatSection (JsString.toLowerCase (variable_name v)))
             (tailwindKey (variable_name v)) x).
Proof.
  split; [exact floatSection_rules|]. split.
  - intros all variable value theme. apply tailwindVariable_FLOAT.
  - intros h theme c m ms v. apply tailwindTheme_float.
Qed.

(** The three names of the specification: [Spacing/Gap/Small] goes to
    [spacing], [Radius/Button] to [borderRadius], [Opacity/Disabled] to
    [spacing]; the values are those of the first mode. *)
Lemma tailwind_float_examples :
  tailwindVariable (env := Sim.environment) [] (sampleVariable "Spacing/Gap/Small" FLOAT)
    (VNum (NFinite 4)) emptyTheme
  = Ok (assign spacing "spacing-gap-small" (VStr "4px") emptyTheme)
  /\ tailwindVariable (env := Sim.environment) [] (sampleVariable "Radius/Button" FLOAT)
       (VNum (NFinite 6)) emptyTheme
     = Ok (assign borderRadius "radius-button" (VStr "6px") emptyTheme)
  /\ tailwindVariable (env := Sim.environment) [] (sampleVariable "Opacity/Disabled" FLOAT)
       (VNum (NFinite 1)) emptyTheme
     = Ok (assign spacing "opacity-disabled" (VStr "1px") emptyTheme)
  /\ tailwindTheme (env := Sim.environment) spacingHost
     = Ok (assign spacing "opacity-disabled" (VStr "1px")
             (assign borderRadius "radius-button" (VStr "6px")
                (assign spacing "spacing-gap-small" (VStr "4px") emptyTheme))).
Proof.
  repeat apply conj.
  - exact (proj1 (proj2 (tailwind_float_routing (env := Sim.environment)))
             [] (sampleVariable "Spacing/Gap/Small" FLOAT) (VNum (NFinite 4)) emptyTheme
             eq_refl).
  - exact (proj1 (proj2 (tailwind_float_routing (env := Sim.environment)))
             [] (sampleVariable "Radius/Button" FLOAT) (VNum (NFinite 6)) emptyTheme
             eq_refl).
  - exact (proj1 (proj2 (tailwind_float_routing (env := Sim.environment)))
             [] (sampleVariable "Opacity/Disabled" FLOAT) (VNum (NFinite 1)) emptyTheme
             eq_refl).
  - vm_compute. reflexivity.
Defined.

(** C9, as stated, fails: the name [Font/Size/Gap] contains both "font" and
    "size", and the variable goes to [spacing], not to [fontSize], because
    it also contains "gap". *)
Lemma font_size_gap_goes_to_spacing :
  fontSizeName "Font/Size/Gap"
  /\ tailwindTheme (env := Sim.environment) fontSizeGapHost
     = Ok {| theme_colors := ∅;
             theme_spacing := {[ "font-size-gap" := VStr "4px" ]};
             theme_fontSize := ∅;
             theme_fontFamily := ∅;
             theme_borderRadius := ∅;
             theme_boxShadow := ∅ |}.
Proof.
  split.
  - split.
    + exists EmptyString, "Font", "/Size/Gap". split; reflexivity.
    + exists "Font/", "Size", "/Gap". split; reflexivity.
  - vm_compute. reflexivity.
Qed.

(* ================================================================== *)
(** * Properties: value coercion *)
(* ================================================================== *)

(** FLOAT: a string that [parseFloat] reads is replaced by the number, any
    other string is kept. *)
Lemma convertForType_FLOAT {env : Environment} (s : string) :
  convertForType FLOAT (VStr s)
  = Ok (if JsNumber.isNaN (JsNumber.parseFloat s) then VStr s
        else VNum (JsNumber.parseFloat s)).
Proof.
  unfold convertForType. simpl resolvedType_eqb. simpl andb.
  destruct (JsNumber.isNaN _); reflexivity.
Qed.

(** BOOLEAN: "false" in any case becomes the literal, "true" in any case
    throws, on the second call of [toLowerCase], any other string is kept. *)
Lemma convertForType_BOOLEAN {env : Environment} (s : string) :
  convertForType BOOLEAN (VStr s)
  = if String.eqb (JsString.toLowerCase s) "true" then Throw TypeError_valueToSet_toLowerCase
    else if String.eqb (JsString.toLowerCase s) "false" then Ok (VBool false)
    else Ok (VStr s).
Proof.
  unfold convertForType. simpl resolvedType_eqb. simpl andb.
  destruct (String.eqb (JsString.toLowerCase s) "true"); reflexivity.
Qed.

(** The string "true" for a BOOLEAN variable: the body of the [try] throws
    before anything is set, whatever the host. *)
Lemma setValue_boolean_true {env : Environment} variable id varData s st :
  resolvedType (snd variable) = BOOLEAN ->
  Js.get varData "$value" = VStr s ->
  aliasTarget varData = None ->
  String.eqb (JsString.toLowerCase s) "true" = true ->
  setValue variable id varData st = (Throw TypeError_valueToSet_toLowerCase, st).
Proof.
  intros Ht Hv Ha Hs. unfold setValue. rewrite Ha, Hv, Ht. simpl unwrapStructured.
  unfold bind, lift. rewrite convertForType_BOOLEAN, Hs. reflexivity.
Qed.

(** C8 at work.  Importing the BOOLEAN tokens "true" and "False" into an
    empty host: "False" is set as the literal [false]; for "true" the
    conversion throws, an error is logged and no value is set; the import
    goes on and reports success. *)
Theorem boolean_true_string_is_not_set :
  let final := snd (handleImport (env := Sim.environment) booleanStrings Sim.start) in
  map (fun v => (variable_name v, resolvedType v, map_to_list (valuesByMode v)))
    (variables (host final))
  = [ ("On", BOOLEAN, []); ("Off", BOOLEAN, [ ("ModeId:1", VBool false) ]) ]
  /\ In (errorSettingValue "On" TypeError_valueToSet_toLowerCase) (posted final)
  /\ last (posted final) = Some MImportSuccess
  /\ convertForType (env := Sim.environment) BOOLEAN (VStr "true")
     = Throw TypeError_valueToSet_toLowerCase.
Proof.
  cbv zeta. repeat apply conj.
  - vm_compute. reflexivity.
  - vm_compute. repeat (try (left; reflexivity); right).
  - vm_compute. reflexivity.
  - reflexivity.
Qed.

(* ================================================================== *)
(** * Properties: the traversal skips what is not an object *)
(* ================================================================== *)

Lemma flattenEntry_nonObject prefix key x st :
  nonObject x = true -> flattenEntry prefix (key, x) st = st.
Proof.
  intros H. unfold flattenEntry. destruct st as [result hasLegacy].
  destruct (skippedKey key); [reflexivity|].
  destruct x; try reflexivity. discriminate H.
Qed.

Lemma Rev1_flattenEntry_nonObject prefix key x st :
  nonObject x = true -> Rev1.flattenEntry prefix (key, x) st = st.
Proof.
  intros H. unfold Rev1.flattenEntry.
  destruct (JsString.startsWith key "_"); [reflexivity|].
  destruct x; try reflexivity. discriminate H.
Qed.

Lemma flattenObject_skips_nonObject kind pre key x post prefix hasLegacy :
  nonObject x = true ->
  flattenObject (VObj kind (pre ++ (key, x) :: post)) prefix hasLegacy
  = flattenObject (VObj kind (pre ++ post)) prefix hasLegacy.
Proof.
  intros H. rewrite !flattenObject_loop, !fold_left_app. cbn [fold_left].
  rewrite flattenEntry_nonObject by exact H. reflexivity.
Qed.

Lemma Rev1_flattenObject_skips_nonObject kind pre key x post prefix :
  nonObject x = true ->
  Rev1.flattenObject (VObj kind (pre ++ (key, x) :: post)) prefix
  = Rev1.flattenObject (VObj kind (pre ++ post)) prefix.
Proof.
  intros H. rewrite !Rev1_flattenObject_loop, !fold_left_app. cbn [fold_left].
  rewrite Rev1_flattenEntry_nonObject by exact H. reflexivity.
Qed.

Lemma lookup_app_some k (pre post : list (string * val)) e :
  Js.lookup k (pre ++ post) <> None -> Js.lookup k (pre ++ e :: post) <> None.
Proof.
  induction pre as [|[k' x'] pre IH]; simpl.
  - destruct e as [k' x']. simpl. destruct (String.eqb k' k); [discriminate | auto].
  - destruct (String.eqb k' k); [discriminate | exact IH].
Qed.

Lemma lookup_app_same_keys k (pre post : list (string * val)) key x x' :
  Js.lookup k (pre ++ (key, x') :: post) <> None ->
  Js.lookup k (pre ++ (key, x) :: post) <> None.
Proof.
  induction pre as [|[k' y] pre IH]; simpl.
  - destruct (String.eqb key k); [discriminate | auto].
  - destruct (String.eqb k' k); [discriminate | exact IH].
Qed.

Lemma pruned_has k g g' : pruned g g' -> Js.has k g' = true -> Js.has k g = true.
Proof.
  intros Hp. destruct Hp as [kind pre key x post Hx | kind pre key g g' post Hg Hp];
    unfold Js.has; intros H.
  - pose proof (lookup_app_some k pre post (key, x)) as L.
    destruct (Js.lookup k (pre ++ post)); [|discriminate H].
    destruct (Js.lookup k (pre ++ (key, x) :: post)); [reflexivity|].
    exfalso. apply L; [discriminate | reflexivity].
  - pose proof (lookup_app_same_keys k pre post key g g') as L.
    destruct (Js.lookup k (pre ++ (key, g') :: post)); [|discriminate H].
    destruct (Js.lookup k (pre ++ (key, g) :: post)); [reflexivity|].
    exfalso. apply L; [discriminate | reflexivity].
Qed.

Lemma pruned_isVariable g g' : pruned g g' -> isVariable g = false -> isVariable g' = false.
Proof.
  intros Hp Hg. unfold isVariable in *.
  destruct (Js.has "$type" g') eqn:E1, (Js.has "$value" g') eqn:E2,
    (Js.has "type" g') eqn:E3, (Js.has "value" g') eqn:E4; try reflexivity;
    repeat match goal with
           | E : Js.has _ g' = true |- _ => apply (pruned_has _ _ _ Hp) in E; rewrite E in Hg
           end; simpl in Hg; try discriminate Hg;
    destruct (Js.has "$type" g), (Js.has "$value" g); simpl in Hg; discriminate Hg.
Qed.

Lemma pruned_object g g' : pruned g g' -> exists kind props, g' = VObj kind props.
Proof. intros [? ? ? ? ? ? | ? ? ? ? ? ? ? ?]; eauto. Qed.

(** A pruned entry, at any depth, leaves the result of the traversal as it
    is: the map and the legacy flag. *)
Lemma flattenObject_pruned g g' :
  pruned g g' ->
  forall prefix hasLegacy, flattenObject g prefix hasLegacy = flattenObject g' prefix hasLegacy.
Proof.
  induction 1 as [kind pre key x post Hx | kind pre key g g' post Hg Hp IH];
    intros prefix hasLegacy.
  - apply flattenObject_skips_nonObject. exact Hx.
  - rewrite !flattenObject_loop, !fold_left_app. cbn [fold_left]. f_equal.
    unfold flattenEntry. destruct (fold_left _ pre _) as [result legacy].
    destruct (skippedKey key); [reflexivity|].
    pose proof (pruned_isVariable _ _ Hp Hg) as Hg'.
    destruct (pruned_object _ _ Hp) as (kind' & props' & ->).
    inversion Hp; subst; rewrite Hg, Hg', IH; reflexivity.
Qed.

(* ================================================================== *)
(** * Properties: what the import reads of a document *)
(* ================================================================== *)

Lemma sameView_refl r : sameView r r.
Proof. repeat split. Qed.

Lemma sameItem_refl e : sameItem e e.
Proof. split; [reflexivity | apply sameView_refl]. Qed.

Lemma Forall2_sameItem_refl l : Forall2 sameItem l l.
Proof. induction l; constructor; [apply sameItem_refl | assumption]. Qed.

Lemma aliasTarget_sameView r1 r2 : sameView r1 r2 -> aliasTarget r1 = aliasTarget r2.
Proof.
  intros (Hv & Hc & Ht & _). unfold aliasTarget. rewrite Hv, Hc, Ht. reflexivity.
Qed.

Lemma bind_congr {A B} (m : M A) (k1 k2 : A -> M B) s :
  (forall a s', k1 a s' = k2 a s') -> bind m k1 s = bind m k2 s.
Proof. intros H. unfold bind. destruct (m s) as [[a|e] s']; [apply H | reflexivity]. Qed.

Section SameItems.

Context {env : Environment}.

Lemma setValue_sameView variable id r1 r2 s :
  sameView r1 r2 -> setValue variable id r1 s = setValue variable id r2 s.
Proof.
  intros H. unfold setValue. rewrite (aliasTarget_sameView _ _ H).
  destruct H as (Hv & _). rewrite Hv. reflexivity.
Qed.

Lemma setOne_sameItem collection id total n e1 e2 s :
  sameItem e1 e2 ->
  setOne collection id total n e1 s = setOne collection id total n e2 s.
Proof.
  destruct e1 as [k1 r1], e2 as [k2 r2]. intros [Hk H]. simpl in Hk, H. subst k2.
  unfold setOne. apply bind_congr. intros _ s1. apply bind_congr. intros vars s2.
  destruct (js_find _ _) as [variable|]; [|reflexivity].
  unfold try_catch. rewrite (setValue_sameView _ _ _ _ _ H). reflexivity.
Qed.

Lemma createIfMissing_sameItem collection total n e1 e2 s :
  sameItem e1 e2 ->
  createIfMissing collection total n e1 s = createIfMissing collection total n e2 s.
Proof.
  destruct e1 as [k1 r1], e2 as [k2 r2]. intros [Hk H]. simpl in Hk, H. subst k2.
  destruct H as (_ & _ & _ & Ht & Heq).
  unfold createIfMissing. apply bind_congr. intros _ s1. apply bind_congr. intros vars s2.
  destruct (js_find _ _) as [variable|]; [reflexivity|].
  rewrite <- Ht. destruct (Js.truthy (Js.get r1 "$type")); [|reflexivity].
  rewrite <- (Heq eq_refl). reflexivity.
Qed.

Lemma for_counted_sameItems (body : nat -> string * val -> M unit) l1 l2 :
  Forall2 sameItem l1 l2 ->
  (forall n e1 e2 s, sameItem e1 e2 -> body n e1 s = body n e2 s) ->
  forall n s, for_counted l1 n body s = for_counted l2 n body s.
Proof.
  intros Hl Hbody. induction Hl as [|e1 e2 l1 l2 He Hl IH]; intros n s; [reflexivity|].
  simpl. unfold bind. rewrite (Hbody n e1 e2 s He).
  destruct (body n e2 s) as [[[]|e] s1]; [apply IH | reflexivity].
Qed.

End SameItems.

Lemma for_fold_sameOutcome {A B} (P : A -> A -> Prop) (R : B -> B -> Prop)
  (body : B -> A -> M B) l1 l2 :
  Forall2 P l1 l2 ->
  (forall a1 a2 x1 x2 s, R a1 a2 -> P x1 x2 -> sameOutcome R (body a1 x1 s) (body a2 x2 s)) ->
  forall a1 a2 s, R a1 a2 -> sameOutcome R (for_fold l1 a1 body s) (for_fold l2 a2 body s).
Proof.
  intros Hl Hbody. induction Hl as [|x1 x2 l1 l2 Hx Hl IH]; intros a1 a2 s Ha.
  - split; [reflexivity | exact Ha].
  - simpl. unfold bind. destruct (Hbody a1 a2 x1 x2 s Ha Hx) as [Hs Hr].
    destruct (body a1 x1 s) as [[b1|e1] s1], (body a2 x2 s) as [[b2|e2] s2];
      simpl in Hs, Hr; subst; try contradiction.
    + apply IH. exact Hr.
    + split; reflexivity.
Qed.

Section SameDocuments.

Context {env : Environment} (F : bool -> bool -> Prop).

Lemma sameFlat_undefined : sameFlat F VUndefined VUndefined.
Proof. intros f1 f2 _. reflexivity. Qed.

Lemma sameFlat_lookup k p1 p2 :
  Forall2 (sameEntry F) p1 p2 ->
  sameFlat F (match Js.lookup k p1 with Some x => x | None => VUndefined end)
    (match Js.lookup k p2 with Some x => x | None => VUndefined end).
Proof.
  induction 1 as [|[k1 x1] [k2 x2] p1 p2 [Hk Hx] Hp IH]; simpl.
  - apply sameFlat_undefined.
  - simpl in Hk, Hx. subst k2. destruct (String.eqb k1 k); [exact Hx | exact IH].
Qed.

Lemma sameEntries_keys p1 p2 :
  Forall2 (sameEntry F) p1 p2 -> map fst p1 = map fst p2.
Proof.
  induction 1 as [|e1 e2 p1 p2 [Hk _] Hp IH]; simpl; [reflexivity|]. now rewrite Hk, IH.
Qed.

Lemma sameModes_keys e1 e2 :
  sameModes F e1 e2 -> JsObject.keys (snd e1) = JsObject.keys (snd e2).
Proof.
  intros (_ & Hn & Hp). apply sameEntries_keys in Hp.
  unfold JsObject.keys. destruct (snd e1), (snd e2); try discriminate Hn;
    try reflexivity; rewrite Hp; reflexivity.
Qed.

Lemma sameModes_entries e1 e2 :
  sameModes F e1 e2 ->
  match JsObject.entries (snd e1), JsObject.entries (snd e2) with
  | Ok p1, Ok p2 => Forall2 (sameEntry F) p1 p2
  | Throw x1, Throw x2 => x1 = x2
  | _, _ => False
  end.
Proof.
  intros (_ & Hn & Hp). unfold JsObject.entries.
  destruct (snd e1), (snd e2); try discriminate Hn; try reflexivity; exact Hp.
Qed.

Lemma registerCollection_same maps e1 e2 s :
  sameModes F e1 e2 -> registerCollection maps e1 s = registerCollection maps e2 s.
Proof.
  intros H. pose proof (sameModes_keys _ _ H) as Hk.
  destruct e1 as [c1 m1], e2 as [c2 m2]. destruct H as (Hc & _). simpl in Hc, Hk. subst c2.
  unfold registerCollection. rewrite Hk. reflexivity.
Qed.

Lemma flattened_same t1 t2 f1 f2 (k : JsMap.t val -> M unit) s :
  sameFlat F t1 t2 -> F f1 f2 ->
  (forall l1 l2 s', Forall2 sameItem l1 l2 -> k l1 s' = k l2 s') ->
  sameOutcome F
    ((let* flat := lift (flattenVariables t1 EmptyString f1) in
      k (fst flat) >> ret (snd flat)) s)
    ((let* flat := lift (flattenVariables t2 EmptyString f2) in
      k (fst flat) >> ret (snd flat)) s).
Proof.
  intros Ht Hf Hk. specialize (Ht f1 f2 Hf). unfold bind, lift.
  destruct (flattenVariables t1 EmptyString f1) as [[l1 g1]|x1],
    (flattenVariables t2 EmptyString f2) as [[l2 g2]|x2]; try contradiction.
  - destruct Ht as [Hl Hg]. simpl fst. simpl snd. rewrite (Hk l1 l2 s Hl).
    destruct (k l2 s) as [[[]|x] s']; split; simpl; auto.
  - subst. split; reflexivity.
Qed.

Lemma discoverVariables_same collectionMap f1 f2 e1 e2 s :
  F f1 f2 -> sameModes F e1 e2 ->
  sameOutcome F (discoverVariables collectionMap f1 e1 s)
    (discoverVariables collectionMap f2 e2 s).
Proof.
  intros Hf H. pose proof (sameModes_keys _ _ H) as Hk.
  destruct e1 as [c1 m1], e2 as [c2 m2]. destruct H as (Hc & Hn & Hp).
  simpl in Hc, Hk, Hn, Hp. subst c2. unfold discoverVariables.
  destruct (collectionMap !! c1) as [collection|]; [|split; [reflexivity | exact Hf]].
  rewrite Hk. unfold bind at 1 3. unfold lift at 1 3.
  destruct (JsObject.keys m2) as [names|x]; [|split; reflexivity].
  apply (flattened_same _ _ f1 f2
           (fun variables => for_counted variables 0
                               (createIfMissing collection (length variables)))).
  - unfold Js.get. apply sameFlat_lookup. exact Hp.
  - exact Hf.
  - intros l1 l2 s' Hl. rewrite (Forall2_length _ _ _ Hl).
    apply for_counted_sameItems; [exact Hl|].
    intros n x1 x2 s'' Hx. apply createIfMissing_sameItem. exact Hx.
Qed.

Lemma setMode_same collection modeMap f1 f2 e1 e2 s :
  F f1 f2 -> sameEntry F e1 e2 ->
  sameOutcome F (setMode collection modeMap f1 e1 s) (setMode collection modeMap f2 e2 s).
Proof.
  intros Hf H. destruct e1 as [n1 t1], e2 as [n2 t2]. destruct H as [Hn Ht].
  simpl in Hn, Ht. subst n2. unfold setMode.
  destruct (modeMap ≫= _) as [id|]; [|split; [reflexivity | exact Hf]].
  destruct (negb (JsString.truthy id)); [split; [reflexivity | exact Hf]|].
  apply (flattened_same _ _ f1 f2
           (fun variables => for_counted variables 0
                               (setOne collection id (length variables)))).
  - exact Ht.
  - exact Hf.
  - intros l1 l2 s' Hl. rewrite (Forall2_length _ _ _ Hl).
    apply for_counted_sameItems; [exact Hl|].
    intros n x1 x2 s'' Hx. apply setOne_sameItem. exact Hx.
Qed.

Lemma setCollection_same collectionMap modeMaps f1 f2 e1 e2 s :
  F f1 f2 -> sameModes F e1 e2 ->
  sameOutcome F (setCollection collectionMap modeMaps f1 e1 s)
    (setCollection collectionMap modeMaps f2 e2 s).
Proof.
  intros Hf H. pose proof (sameModes_entries _ _ H) as He.
  destruct e1 as [c1 m1], e2 as [c2 m2]. destruct H as (Hc & _).
  simpl in Hc, He. subst c2. unfold setCollection.
  destruct (collectionMap !! c1) as [collection|]; [|split; [reflexivity | exact Hf]].
  unfold bind, lift.
  destruct (JsObject.entries m1) as [p1|x1], (JsObject.entries m2) as [p2|x2];
    try contradiction.
  - apply (for_fold_sameOutcome (sameEntry F) F); [exact He| |exact Hf].
    intros a1 a2 x1 x2 s' Ha Hx. apply setMode_same; assumption.
  - subst. split; reflexivity.
Qed.

Lemma sameDocument_entries d1 d2 :
  sameDocument F d1 d2 ->
  match JsObject.entries d1, JsObject.entries d2 with
  | Ok c1, Ok c2 => Forall2 (sameModes F) c1 c2
  | Throw x1, Throw x2 => x1 = x2
  | _, _ => False
  end.
Proof.
  intros (Hn & Hp). unfold JsObject.entries.
  destruct d1, d2; try discriminate Hn; try reflexivity; exact Hp.
Qed.

(** The three passes end in the same host with the same messages. *)
Lemma importPasses_same d1 d2 s :
  F false false -> sameDocument F d1 d2 ->
  sameOutcome F (importPasses d1 s) (importPasses d2 s).
Proof.
  intros HF H. pose proof (sameDocument_entries _ _ H) as He.
  unfold importPasses, bind, lift.
  destruct (JsObject.entries d1) as [c1|x1], (JsObject.entries d2) as [c2|x2];
    try contradiction; [|subst; split; reflexivity].
  destruct (for_fold_sameOutcome (sameModes F) eq registerCollection c1 c2 He
              ltac:(intros a1 a2 x1 x2 s' -> Hx;
                    rewrite (registerCollection_same a2 x1 x2 s' Hx);
                    destruct (registerCollection a2 x2 s') as [[?|?] ?];
                    split; reflexivity)
              (∅, ∅) (∅, ∅) s eq_refl) as [Hs Hr].
  destruct (for_fold c1 _ registerCollection s) as [[maps1|y1] s1],
    (for_fold c2 _ registerCollection s) as [[maps2|y2] s2];
    simpl in Hs, Hr; subst; try contradiction; [|split; reflexivity].
  destruct (for_fold_sameOutcome (sameModes F) F (discoverVariables (fst maps2)) c1 c2 He
              ltac:(intros a1 a2 x1 x2 s' Ha Hx; apply discoverVariables_same; assumption)
              false false s2 HF) as [Hs Hr].
  destruct (for_fold c1 false _ s2) as [[g1|y1] s1],
    (for_fold c2 false _ s2) as [[g2|y2] s3];
    simpl in Hs, Hr; subst; try contradiction; [|split; reflexivity].
  apply (for_fold_sameOutcome (sameModes F) F); [exact He| |exact Hr].
  intros a1 a2 x1 x2 s' Ha Hx. apply setCollection_same; assumption.
Qed.

End SameDocuments.

Lemma posting_posting s a b : posting (posting s a) b = posting s (a ++ b).
Proof. unfold posting. simpl. now rewrite app_assoc. Qed.

(** [handleImport] always returns: what escapes the passes is caught, logged
    and reported. *)
Lemma handleImport_outcome {env : Environment} data s :
  handleImport data s
  = match importPasses data (started s) with
    | (Ok hasLegacy, s') => (Ok tt, posting s' (completed hasLegacy))
    | (Throw err, s') => (Ok tt, posting s' (failed err))
    end.
Proof.
  unfold handleImport, try_catch, bind, log, postMessage. fold (started s).
  change {| host := host s; posted := posted s ++ [MLog INFO "Starting import..."] |}
    with (started s).
  destruct (importPasses data (started s)) as [[[|]|err] s']; unfold posting, completed, failed;
    simpl; rewrite <- ?app_assoc; reflexivity.
Qed.

(** The map the traversal builds does not depend on the flag it is given,
    and the flag it returns is the one given or raised. *)
Lemma flattenObject_flag t :
  forall prefix hasLegacy,
    flattenObject t prefix hasLegacy
    = (fst (flattenObject t prefix false), hasLegacy || snd (flattenObject t prefix false)).
Proof.
  induction t as [ | | b | n | s | kind props IH] using value_nested_ind;
    intros prefix hasLegacy; try (simpl; now rewrite orb_false_r).
  rewrite !flattenObject_loop.
  assert (forall result f,
             fold_left (fun st e => flattenEntry prefix e st) props (result, f)
             = (fst (fold_left (fun st e => flattenEntry prefix e st) props (result, false)),
                f || snd (fold_left (fun st e => flattenEntry prefix e st) props (result, false))))
    as Hfold.
  { induction IH as [|[key x] rest Hx Hrest IHrest]; intros result f.
    - simpl. now rewrite orb_false_r.
    - cbn [fold_left].
      assert (exists result' b, forall g, flattenEntry prefix (key, x) (result, g)
                                          = (result', g || b)) as (result' & b & Hstep).
      { unfold flattenEntry. destruct (skippedKey key).
        - exists result, false. intros g. now rewrite orb_false_r.
        - destruct x as [ | | ? | ? | ? | kind' props'];
            try (exists result, false; intros g; now rewrite orb_false_r).
          destruct (isVariable _).
          + eexists _, (isLegacy (VObj kind' props')). intros g.
            destruct (isLegacy _); [now rewrite orb_true_r | now rewrite orb_false_r].
          + cbn [snd] in Hx.
            eexists (JsMap.merge result (fst (flattenObject (VObj kind' props') (newKey prefix key) false))),
              (snd (flattenObject (VObj kind' props') (newKey prefix key) false)).
            intros g. rewrite (Hx (newKey prefix key) g). reflexivity. }
      rewrite !Hstep. rewrite (IHrest result' (f || b)), (IHrest result' (false || b)).
      simpl. now rewrite orb_assoc. }
  apply Hfold.
Qed.

Lemma flattenVariables_flag t prefix hasLegacy :
  flattenVariables t prefix hasLegacy
  = match flattenVariables t prefix false with
    | Ok (m, b) => Ok (m, hasLegacy || b)
    | Throw e => Throw e
    end.
Proof.
  unfold flattenVariables.
  destruct t; try reflexivity; rewrite flattenObject_flag at 1;
    destruct (flattenObject _ _ false); reflexivity.
Qed.

Lemma sameFlat_eq_refl t : sameFlat eq t t.
Proof.
  intros f1 f2 <-. destruct (flattenVariables t EmptyString f1) as [[m g]|e]; [|reflexivity].
  split; [apply Forall2_sameItem_refl | reflexivity].
Qed.


Lemma Forall2_refl_with {A} (R : A -> A -> Prop) l : (forall x, R x x) -> Forall2 R l l.
Proof. intros H. induction l; constructor; auto. Qed.

(** Two documents that differ in one mode tree only. *)
Lemma sameDocument_documentWith (F : bool -> bool -> Prop) before collection modesBefore
  mode t1 t2 modesAfter after :
  (forall t, sameFlat F t t) -> sameFlat F t1 t2 ->
  sameDocument F (documentWith before collection modesBefore mode t1 modesAfter after)
    (documentWith before collection modesBefore mode t2 modesAfter after).
Proof.
  intros Hrefl Ht.
  assert (Hentry : forall e, sameEntry F e e) by (intros e; split; [reflexivity | apply Hrefl]).
  assert (Hmodes : forall e, sameModes F e e).
  { intros e. split; [reflexivity|]. split; [reflexivity|]. apply Forall2_refl_with, Hentry. }
  split; [reflexivity|]. simpl.
  apply Forall2_app; [apply Forall2_refl_with, Hmodes|].
  constructor; [|apply Forall2_refl_with, Hmodes].
  split; [reflexivity|]. split; [reflexivity|]. simpl.
  apply Forall2_app; [apply Forall2_refl_with, Hentry|].
  constructor; [|apply Forall2_refl_with, Hentry].
  split; [reflexivity | exact Ht].
Qed.

Lemma sameOutcome_eq {A} (o1 o2 : Result A * State) : sameOutcome eq o1 o2 -> o1 = o2.
Proof.
  destruct o1 as [[a1|e1] s1], o2 as [[a2|e2] s2]; intros [Hs Hr]; simpl in Hs, Hr;
    subst; try contradiction; reflexivity.
Qed.

Lemma flattenVariables_pruned g g' prefix hasLegacy :
  pruned g g' -> flattenVariables g prefix hasLegacy = flattenVariables g' prefix hasLegacy.
Proof.
  intros H. pose proof (flattenObject_pruned g g' H prefix hasLegacy) as E.
  destruct (pruned_object _ _ H) as (kind' & props' & ->).
  inversion H; subst; unfold flattenVariables; rewrite E; reflexivity.
Qed.

Lemma sameFlat_pruned g g' : pruned g g' -> sameFlat eq g g'.
Proof.
  intros H f1 f2 <-. rewrite (flattenVariables_pruned g g' _ f1 H).
  apply sameFlat_eq_refl. reflexivity.
Qed.

(** C10.  An entry of a group whose value is not an object (a string, a
    number, a boolean, [null]) contributes nothing to the traversal, in
    either revision: the result is that of the group without the entry.
    This holds at any depth of the groups the traversal recurses into, and
    so an import of a document is the import of the document without the
    entry: the same host, the same messages. *)
Theorem nonObject_entries_are_invisible {env : Environment} :
  (forall kind pre key x post prefix hasLegacy,
      nonObject x = true ->
      flattenObject (VObj kind (pre ++ (key, x) :: post)) prefix hasLegacy
      = flattenObject (VObj kind (pre ++ post)) prefix hasLegacy)
  /\ (forall kind pre key x post prefix,
      nonObject x = true ->
      Rev1.flattenObject (VObj kind (pre ++ (key, x) :: post)) prefix
      = Rev1.flattenObject (VObj kind (pre ++ post)) prefix)
  /\ (forall g g' prefix hasLegacy,
      pruned g g' ->
      flattenVariables g prefix hasLegacy = flattenVariables g' prefix hasLegacy)
  /\ (forall before collection modesBefore mode g g' modesAfter after s,
      pruned g g' ->
      handleImport (documentWith before collection modesBefore mode g modesAfter after) s
      = handleImport (documentWith before collection modesBefore mode g' modesAfter after) s).
Proof.
  repeat apply conj.
  - intros. now apply flattenObject_skips_nonObject.
  - intros. now apply Rev1_flattenObject_skips_nonObject.
  - intros. now apply flattenVariables_pruned.
  - intros before collection modesBefore mode g g' modesAfter after s H.
    rewrite !handleImport_outcome.
    rewrite (sameOutcome_eq _ _
               (importPasses_same eq _ _ (started s) eq_refl
                  (sameDocument_documentWith eq before collection modesBefore mode g g'
                     modesAfter after sameFlat_eq_refl (sameFlat_pruned g g' H)))).
    reflexivity.
Qed.

(** The bare string ["Primary": "#FF0000"] changes nothing to an import. *)
Lemma bare_string_is_invisible :
  handleImport (env := Sim.environment)
    (documentWith [] "Brand" [] "Light" treeWithBareString [] []) Sim.start
  = handleImport (env := Sim.environment)
      (documentWith [] "Brand" [] "Light" treeWithoutBareString [] []) Sim.start.
Proof.
  apply (proj2 (proj2 (proj2 (nonObject_entries_are_invisible (env := Sim.environment))))).
  apply (pruned_here PlainObject [ ("Secondary", token "color" (VStr "#00FF00")) ]
           "Primary" (VStr "#FF0000") []).
  reflexivity.
Defined.

(* ================================================================== *)
(** * Properties: the two dialects *)
(* ================================================================== *)








Lemma flattenEntry_flag prefix e m f :
  flattenEntry prefix e (m, f)
  = (fst (flattenEntry prefix e (m, false)), f || snd (flattenEntry prefix e (m, false))).
Proof.
  destruct e as [key x]. unfold flattenEntry. destruct (skippedKey key).
  - simpl. now rewrite orb_false_r.
  - destruct x; try (simpl; now rewrite orb_false_r).
    destruct (isVariable _).
    + simpl. destruct (isLegacy _); [now rewrite orb_true_r | now rewrite orb_false_r].
    + rewrite (flattenObject_flag _ _ f).
      destruct (flattenObject _ _ false). reflexivity.
Qed.

Lemma flatten_fold_flag prefix l m f :
  fold_left (fun st e => flattenEntry prefix e st) l (m, f)
  = (fst (fold_left (fun st e => flattenEntry prefix e st) l (m, false)),
     f || snd (fold_left (fun st e => flattenEntry prefix e st) l (m, false))).
Proof.
  revert m f. induction l as [|e l IH]; intros m f; simpl.
  - now rewrite orb_false_r.
  - rewrite (flattenEntry_flag prefix e m f).
    destruct (flattenEntry prefix e (m, false)) as [m' b]. simpl.
    rewrite (IH m' (f || b)), (IH m' b). simpl. now rewrite orb_assoc.
Qed.


Lemma flatten_fold_raised prefix l m :
  snd (fold_left (fun st e => flattenEntry prefix e st) l (m, true)) = true.
Proof. rewrite flatten_fold_flag. reflexivity. Qed.





Lemma flattenEntry_group prefix key kind props m f :
  skippedKey key = false -> isVariable (VObj kind props) = false ->
  flattenEntry prefix (key, VObj kind props) (m, f)
  = (JsMap.merge m (fst (flattenObject (VObj kind props) (newKey prefix key) f)),
     snd (flattenObject (VObj kind props) (newKey prefix key) f)).
Proof.
  intros Hk Hg. unfold flattenEntry. rewrite Hk, Hg.
  destruct (flattenObject _ _ f). reflexivity.
Qed.






(* ================================================================== *)
(** * Properties: computations that return, properties that are kept *)
(* ================================================================== *)











Lemma preserves_ret P {A} (a : A) : preserves P (ret a).
Proof. intros s r s' H [= <- <-]. exact H. Qed.

Lemma preserves_lift P {A} (x : Result A) : preserves P (lift x).
Proof. intros s r s' H [= <- <-]. exact H. Qed.

Lemma preserves_bind P {A B} (m : M A) (k : A -> M B) :
  preserves P m -> (forall a, preserves P (k a)) -> preserves P (bind m k).
Proof.
  intros Hm Hk s r s' H E. unfold bind in E.
  destruct (m s) as [[a|e] s1] eqn:Em.
  - apply (Hk a s1 r s'); [apply (Hm s _ s1 H Em) | exact E].
  - injection E as <- <-. apply (Hm s _ s1 H Em).
Qed.

Lemma preserves_try_catch P {A} (body : M A) (handler : string -> M A) :
  preserves P body -> (forall e, preserves P (handler e)) ->
  preserves P (try_catch body handler).
Proof.
  intros Hb Hh s r s' H E. unfold try_catch in E.
  destruct (body s) as [[a|e] s1] eqn:Eb.
  - injection E as <- <-. apply (Hb s _ s1 H Eb).
  - apply (Hh e s1 r s'); [apply (Hb s _ s1 H Eb) | exact E].
Qed.

Lemma preserves_for_counted P {A} (l : list A) (body : nat -> A -> M unit) :
  (forall n x, In x l -> preserves P (body n x)) ->
  forall n, preserves P (for_counted l n body).
Proof.
  induction l as [|x l IH]; intros H n; simpl; [apply preserves_ret|].
  apply preserves_bind; [apply H; left; reflexivity|].
  intros _. apply IH. intros k y Hy. apply H. right. exact Hy.
Qed.

Lemma preserves_for_fold P {A B} (l : list A) (body : B -> A -> M B) :
  (forall a x, In x l -> preserves P (body a x)) ->
  forall a, preserves P (for_fold l a body).
Proof.
  induction l as [|x l IH]; intros H a; simpl; [apply preserves_ret|].
  apply preserves_bind; [apply H; left; reflexivity|].
  intros a'. apply IH. intros b y Hy. apply H. right. exact Hy.
Qed.

Lemma preserves_for_fold_counted P {A B} (l : list A) (body : B -> nat -> A -> M B) :
  (forall a n x, In x l -> preserves P (body a n x)) ->
  forall n a, preserves P (for_fold_counted l n a body).
Proof.
  induction l as [|x l IH]; intros H n a; simpl; [apply preserves_ret|].
  apply preserves_bind; [apply H; left; reflexivity|].
  intros a'. apply IH. intros b k y Hy. apply H. right. exact Hy.
Qed.

Lemma preserves_getLocalVariables P : preserves P getLocalVariables.
Proof. intros s r s' H [= <- <-]. exact H. Qed.

Lemma preserves_getLocalVariableCollections P : preserves P getLocalVariableCollections.
Proof. intros s r s' H [= <- <-]. exact H. Qed.

(** A property of the host alone is kept by posting. *)
Lemma preserves_postMessage (Q : Host -> Prop) m :
  preserves (fun s => Q (host s)) (postMessage m).
Proof. intros s r s' H [= <- <-]. exact H. Qed.

Lemma preserves_hostUpdate (Q : Host -> Prop) op :
  (forall h, Q h -> Q (op h)) -> preserves (fun s => Q (host s)) (hostUpdate op).
Proof. intros Hop s r s' H [= <- <-]. simpl. apply Hop, H. Qed.

Lemma preserves_hostCall (Q : Host -> Prop) {A} (op : Host -> A * Host) :
  (forall h, Q h -> Q (snd (op h))) -> preserves (fun s => Q (host s)) (hostCall op).
Proof.
  intros Hop s r s' H E. unfold hostCall in E. pose proof (Hop (host s) H) as Hq.
  destruct (op (host s)) as [a h']. injection E as <- <-. exact Hq.
Qed.

(* ================================================================== *)
(** * Properties: a well-formed document is imported to the end *)
(* ================================================================== *)

Section ImportReturns.

Context {env : Environment}.





Hypothesis accepted : acceptsModes env.






Lemma bind_lift_Ok {A B} (a : A) (k : A -> M B) : bind (lift (Ok a)) k = k a.
Proof. reflexivity. Qed.

Lemma keys_returns modes : nullish modes = false -> JsObject.keys modes = Ok (map fst (Js.ownProps modes)).
Proof. destruct modes; intros H; try discriminate H; reflexivity. Qed.

Lemma entries_returns x : nullish x = false -> JsObject.entries x = Ok (Js.ownProps x).
Proof. destruct x; intros H; try discriminate H; reflexivity. Qed.

Lemma flattenVariables_returns t prefix f :
  nullish t = false ->
  flattenVariables t prefix f
  = Ok (fst (flattenObject t prefix false), f || snd (flattenObject t prefix false)).
Proof.
  intros H. unfold flattenVariables.
  destruct t; try discriminate H; rewrite (flattenObject_flag _ prefix f); reflexivity.
Qed.






Lemma get_first modes k first rest :
  Js.ownProps modes = (k, first) :: rest -> Js.get modes k = first.
Proof. intros H. unfold Js.get. rewrite H. simpl. now rewrite String.eqb_refl. Qed.






End ImportReturns.

(* ================================================================== *)
(** * Properties: an alias that resolves to nothing *)
(* ================================================================== *)




Lemma acceptsModes_Sim : acceptsModes Sim.environment.
Proof. repeat split. Qed.


(* ================================================================== *)
(** * Properties: collections and modes in Pass 1 *)
(* ================================================================== *)

Lemma withModes_same c : withModes c (collection_modes c) = c.
Proof. destruct c; reflexivity. Qed.

Lemma update_at_lookup {A} (i : nat) (f : A -> A) (l : list A) (x : A) :
  l !! i = Some x -> Figma.update_at i f l = <[i := f x]> l.
Proof. intros H. unfold Figma.update_at. rewrite H. reflexivity. Qed.

Lemma setModes_same i c h :
  collections h !! i = Some c -> setModes i c (collection_modes c) (allocated h) h = h.
Proof.
  intros H. unfold setModes. rewrite withModes_same, list_insert_id by exact H.
  destruct h; reflexivity.
Qed.

Lemma setModes_lookup i c ms n h :
  (i < length (collections h))%nat -> collections (setModes i c ms n h) !! i = Some (withModes c ms).
Proof. intros H. simpl. apply list_lookup_insert_eq. exact H. Qed.

Lemma renameMode_setModes i snap c ms n h id newName :
  (i < length (collections h))%nat ->
  Figma.renameMode (i, snap) id newName (setModes i c ms n h)
  = setModes i c (map (renamed id newName) ms) n h.
Proof.
  intros H. unfold Figma.renameMode. cbn [fst].
  rewrite (update_at_lookup _ _ _ _ (setModes_lookup i c ms n h H)).
  unfold setModes. simpl. rewrite list_insert_insert_eq. reflexivity.
Qed.

Lemma addMode_setModes i snap c ms n h name :
  (i < length (collections h))%nat ->
  Figma.addMode (i, snap) name (setModes i c ms n h)
  = (Figma.mode_id_of n,
     setModes i c (ms ++ [ {| modeId := Figma.mode_id_of n; mode_name := name |} ]) (S n) h).
Proof.
  intros H. unfold Figma.addMode. cbn [fst].
  rewrite (update_at_lookup _ _ _ _ (setModes_lookup i c ms n h H)).
  unfold setModes. simpl. rewrite list_insert_insert_eq. reflexivity.
Qed.

Section ModeLoop.

Context {env : Environment}.

Hypothesis accepted : acceptsModes env.

Lemma renameOrAddMode_effect i snap collectionName existing k name c ms n h p :
  (i < length (collections h))%nat ->
  exists p',
    renameOrAddMode (i, snap) collectionName existing k name
      {| host := setModes i c ms n h; posted := p |}
    = (Ok match js_find (modeNamed "Mode 1") existing with
          | Some d => if (k =? 0)%nat then modeId (snd d) else Figma.mode_id_of n
          | None => Figma.mode_id_of n
          end,
       {| host :=
            match js_find (modeNamed "Mode 1") existing with
            | Some d =>
                if (k =? 0)%nat
                then setModes i c (map (renamed (modeId (snd d)) name) ms) n h
                else setModes i c
                       (ms ++ [ {| modeId := Figma.mode_id_of n; mode_name := name |} ])
                       (S n) h
            | None =>
                setModes i c
                  (ms ++ [ {| modeId := Figma.mode_id_of n; mode_name := name |} ])
                  (S n) h
            end;
          posted := p' |}).
Proof.
  intros Hi. destruct accepted as (_ & Hrename & Hadd).
  unfold renameOrAddMode, bind, ret, renameMode, addMode, log, postMessage.
  fold (modeNamed "Mode 1").
  destruct (js_find (modeNamed "Mode 1") existing) as [d|]; [destruct (k =? 0)%nat|];
    cbn [host posted].
  - rewrite Hrename. unfold hostUpdate. cbn [host posted].
    rewrite (renameMode_setModes _ _ _ _ _ _ _ _ Hi). eexists. reflexivity.
  - rewrite Hadd. unfold hostCall. cbn [host posted].
    rewrite (addMode_setModes _ _ _ _ _ _ _ Hi). eexists. reflexivity.
  - rewrite Hadd. unfold hostCall. cbn [host posted].
    rewrite (addMode_setModes _ _ _ _ _ _ _ Hi). eexists. reflexivity.
Qed.

(** One iteration of the loop over the declared mode names, on the host. *)
Lemma registerMode_effect i snap collectionName existing modeMap k name c ms n h p :
  (i < length (collections h))%nat ->
  exists p',
    registerMode (i, snap) collectionName existing modeMap k name
      {| host := setModes i c ms n h; posted := p |}
    = (Ok (<[name := stepId existing k name n]> modeMap),
       {| host := setModes i c (fst (modeStep existing k name (ms, n)))
                    (snd (modeStep existing k name (ms, n))) h;
          posted := p' |}).
Proof.
  intros Hi. unfold registerMode, modeStep, stepId, bind, ret.
  fold (modeNamed name).
  destruct (renameOrAddMode_effect i snap collectionName existing k name c ms n h p Hi)
    as (p' & Hnew).
  destruct (js_find (modeNamed name) existing) as [m|];
    [destruct (JsString.truthy (modeId (snd m)))|].
  - eexists. reflexivity.
  - rewrite Hnew. eexists.
    destruct (js_find (modeNamed "Mode 1") existing) as [d|];
      [destruct (k =? 0)%nat|]; reflexivity.
  - rewrite Hnew. eexists.
    destruct (js_find (modeNamed "Mode 1") existing) as [d|];
      [destruct (k =? 0)%nat|]; reflexivity.
Qed.

(** The whole loop, on the host. *)
Lemma registerModes_effect i snap collectionName existing names :
  forall modeMap k c ms n h p,
    (i < length (collections h))%nat ->
    exists p',
      for_fold_counted names k modeMap (registerMode (i, snap) collectionName existing)
        {| host := setModes i c ms n h; posted := p |}
      = (Ok (modeMapLoop existing names k (ms, n) modeMap),
         {| host := setModes i c (fst (modesLoop existing names k (ms, n)))
                      (snd (modesLoop existing names k (ms, n))) h;
            posted := p' |}).
Proof.
  induction names as [|name names IH]; intros modeMap k c ms n h p Hi; simpl.
  - eexists. reflexivity.
  - destruct (registerMode_effect i snap collectionName existing modeMap k name c ms n h p Hi)
      as (p1 & E).
    unfold bind. rewrite E.
    destruct (modeStep existing k name (ms, n)) as [ms1 n1]. cbn [fst snd].
    apply IH. exact Hi.
Qed.

End ModeLoop.

Lemma mode_id_truthy n : JsString.truthy (Figma.mode_id_of n) = true.
Proof. reflexivity. Qed.

Lemma js_find_default_single id :
  js_find (modeNamed "Mode 1") [ {| modeId := id; mode_name := "Mode 1" |} ]
  = Some (0%nat, {| modeId := id; mode_name := "Mode 1" |}).
Proof. reflexivity. Qed.

Lemma js_find_named_single id name :
  js_find (modeNamed name) [ {| modeId := id; mode_name := "Mode 1" |} ]
  = if notDefault name then None else Some (0%nat, {| modeId := id; mode_name := "Mode 1" |}).
Proof.
  unfold js_find, modeNamed, notDefault. cbn [find_from mode_name].
  rewrite (String.eqb_sym name). destruct (String.eqb "Mode 1" name); reflexivity.
Qed.

(** In a collection just created, the modes declared after the first are
    added, but for "Mode 1", which the snapshot still has. *)
Lemma modesLoop_fresh_rest id rest :
  JsString.truthy id = true ->
  forall i ms n,
    modesLoop [ {| modeId := id; mode_name := "Mode 1" |} ] rest (S i) (ms, n)
    = (ms ++ addedModes n (List.filter notDefault rest),
       (n + length (List.filter notDefault rest))%nat).
Proof.
  intros Hid. induction rest as [|name rest IH]; intros i ms n; simpl.
  - rewrite app_nil_r, Nat.add_0_r. reflexivity.
  - unfold modeStep. rewrite js_find_named_single, js_find_default_single.
    destruct (notDefault name); cbn [snd fst modeId Nat.eqb].
    + rewrite IH. simpl. rewrite <- app_assoc. simpl. f_equal. lia.
    + rewrite Hid. apply IH.
Qed.

Lemma modesLoop_fresh id first rest n :
  JsString.truthy id = true ->
  modesLoop [ {| modeId := id; mode_name := "Mode 1" |} ] (first :: rest) 0
    ([ {| modeId := id; mode_name := "Mode 1" |} ], n)
  = ({| modeId := id; mode_name := first |} :: addedModes n (List.filter notDefault rest),
     (n + length (List.filter notDefault rest))%nat).
Proof.
  intros Hid. cbn [modesLoop]. unfold modeStep at 1.
  rewrite js_find_named_single, js_find_default_single.
  unfold notDefault at 1. destruct (String.eqb first "Mode 1") eqn:E; cbn [negb snd fst modeId].
  - rewrite Hid. cbv iota. apply String.eqb_eq in E. subst first.
    rewrite modesLoop_fresh_rest by exact Hid. reflexivity.
  - cbn [Nat.eqb map]. unfold renamed. cbn [modeId]. rewrite String.eqb_refl.
    rewrite modesLoop_fresh_rest by exact Hid. reflexivity.
Qed.

(** The entry of the mode map for "Mode 1", in a collection just created. *)
Lemma modeMapLoop_fresh_default id names :
  JsString.truthy id = true ->
  forall i st modeMap,
    In "Mode 1" names \/ modeMap !! "Mode 1" = Some id ->
    modeMapLoop [ {| modeId := id; mode_name := "Mode 1" |} ] names i st modeMap !! "Mode 1"
    = Some id.
Proof.
  intros Hid. induction names as [|name names IH]; intros i st modeMap H; simpl.
  - destruct H as [[]|H]. exact H.
  - apply IH. destruct (String.eqb_spec name "Mode 1") as [->|Hne].
    + right. rewrite lookup_insert_eq. unfold stepId.
      rewrite js_find_named_single. cbn [notDefault negb String.eqb snd modeId].
      simpl. rewrite Hid. reflexivity.
    + destruct H as [[H|H]|H]; [congruence | left; exact H |].
      right. rewrite lookup_insert_ne by exact Hne. exact H.
Qed.

Lemma find_from_app_none {A} (p : A -> bool) (l l' : list A) :
  forall i, find_from p l i = None -> find_from p (l ++ l') i = find_from p l' (i + length l).
Proof.
  induction l as [|x l IH]; intros i H; simpl in *.
  - rewrite Nat.add_0_r. reflexivity.
  - destruct (p x); [discriminate|]. rewrite IH by exact H. f_equal. lia.
Qed.

Lemma find_from_app_some {A} (p : A -> bool) (l l' : list A) r :
  forall i, find_from p l i = Some r -> find_from p (l ++ l') i = Some r.
Proof.
  induction l as [|x l IH]; intros i H; simpl in *; [discriminate|].
  destruct (p x); [exact H | apply IH, H].
Qed.

Section FreshCollection.

Context {env : Environment}.

Hypothesis accepted : acceptsModes env.

(** Pass 1 on a collection the host does not have. *)
Lemma registerCollection_fresh maps c modes first rest s :
  js_find (collectionCalled c) (collections (host s)) = None ->
  JsObject.keys modes = Ok (first :: rest) ->
  let n := allocated (host s) in
  let default := {| modeId := Figma.mode_id_of (S n); mode_name := "Mode 1" |} in
  let new := {| collection_id := Figma.collection_id_of n; collection_name := c;
                collection_modes := [ default ] |} in
  exists p',
    registerCollection maps (c, modes) s
    = (Ok (<[c := (length (collections (host s)), new)]> (fst maps),
           <[c := modeMapLoop [ default ] (first :: rest) 0 ([ default ], S (S n)) ∅]>
             (snd maps)),
       {| host :=
            {| collections := collections (host s) ++ [ createdCollection n c first rest ];
               variables := variables (host s);
               allocated := (S (S n) + length (List.filter notDefault rest))%nat |};
          posted := p' |}).
Proof.
  intros Hnone Hkeys n default new.
  unfold registerCollection, bind, getLocalVariableCollections.
  fold (collectionCalled c). rewrite Hnone.
  unfold createVariableCollection. rewrite (proj1 accepted).
  unfold hostCall, Figma.createVariableCollection, log, postMessage, ret, lift.
  cbn [host posted fst snd]. rewrite Hkeys. fold n. fold default. fold new.
  cbn [collection_modes].
  set (h1 := {| collections := collections (host s) ++ [new];
                variables := variables (host s); allocated := S (S n) |}).
  assert (Hlook : collections h1 !! length (collections (host s)) = Some new).
  { simpl. rewrite lookup_app_r by lia. rewrite Nat.sub_diag. reflexivity. }
  assert (Hlen : (length (collections (host s)) < length (collections h1))%nat).
  { simpl. rewrite length_app. simpl. lia. }
  rewrite <- (setModes_same _ _ _ Hlook).
  destruct (registerModes_effect accepted (length (collections (host s))) new c
              (collection_modes new)
              (first :: rest) ∅ 0%nat new (collection_modes new) (allocated h1) h1
              (posted s ++ [MLog INFO ("Creating collection: " ++ c)]) Hlen) as (p' & E).
  rewrite E. exists p'. f_equal. f_equal.
  subst h1 new default. cbn [collection_modes allocated].
  rewrite (modesLoop_fresh _ first rest (S (S n)) (mode_id_truthy (S n))).
  unfold setModes, createdCollection, withModes.
  cbn [fst snd collections variables collection_id collection_name].
  f_equal.
  rewrite insert_app_r_alt by lia. rewrite Nat.sub_diag. reflexivity.
Qed.

End FreshCollection.

(** When the host refuses the collection, Pass 1 throws there, the host as
    it was. *)
Lemma registerCollection_refused {env : Environment} maps c modes e s :
  js_find (collectionCalled c) (collections (host s)) = None ->
  createVariableCollection_error (host s) c = Some e ->
  registerCollection maps (c, modes) s = (Throw e, s).
Proof.
  intros Hnone He.
  unfold registerCollection, bind, getLocalVariableCollections.
  fold (collectionCalled c). rewrite Hnone.
  unfold createVariableCollection. rewrite He. reflexivity.
Qed.

Lemma registerMode_reuse {env : Environment} collection collectionName existing modeMap i
  name j m s :
  firstWith (modeNamed name) existing j m ->
  JsString.truthy (modeId m) = true ->
  registerMode collection collectionName existing modeMap i name s
  = (Ok (<[name := modeId m]> modeMap), s).
Proof.
  intros Hm Hid. apply js_find_first in Hm.
  unfold registerMode, bind, ret. fold (modeNamed name). rewrite Hm. cbn [snd].
  rewrite Hid. reflexivity.
Qed.

Lemma registerModes_reuse {env : Environment} collection collectionName existing names :
  Forall (fun k => exists j m, firstWith (modeNamed k) existing j m
                               /\ JsString.truthy (modeId m) = true) names ->
  forall i modeMap s,
  exists modeMap',
    for_fold_counted names i modeMap (registerMode collection collectionName existing) s
    = (Ok modeMap', s)
    /\ forall k j m, firstWith (modeNamed k) existing j m ->
                     In k names \/ modeMap !! k = Some (modeId m) ->
                     modeMap' !! k = Some (modeId m).
Proof.
  induction 1 as [|name names (j0 & m0 & Hm0 & Hid0) Hnames IH]; intros i modeMap s; simpl.
  - exists modeMap. split; [reflexivity|]. intros k j m _ [[]|H]. exact H.
  - unfold bind. rewrite (registerMode_reuse _ _ _ _ _ _ _ _ _ Hm0 Hid0).
    destruct (IH (S i) (<[name := modeId m0]> modeMap) s) as (modeMap' & E & Hmap).
    exists modeMap'. split; [exact E|].
    intros k j m Hk Hin. apply (Hmap k j m Hk).
    destruct (String.eqb_spec name k) as [->|Hne].
    + right. rewrite lookup_insert_eq.
      apply js_find_first in Hk, Hm0. congruence.
    + destruct Hin as [[Heq|Hin]|Hin]; [congruence | left; exact Hin |].
      right. rewrite lookup_insert_ne by exact Hne. exact Hin.
Qed.

(* ================================================================== *)
(** * Properties: what the import keeps of the host *)
(* ================================================================== *)

Section HostInvariant.

Context {env : Environment}.

Variable Q : Host -> Prop.

Hypothesis Q_createVariable :
  forall name collection type h, Q h -> Q (snd (Figma.createVariable name collection type h)).
Hypothesis Q_setValueForMode :
  forall variable id x h, Q h -> Q (Figma.setValueForMode variable id x h).

Lemma kept_log level message : preserves (fun s => Q (host s)) (log level message).
Proof. apply preserves_postMessage. Qed.

Lemma kept_progress (b : bool) message :
  preserves (fun s => Q (host s)) (if b then postMessage (MProgress message) else ret tt).
Proof. destruct b; [apply preserves_postMessage | apply preserves_ret]. Qed.

Lemma kept_createVariable name collection type :
  preserves (fun s => Q (host s)) (createVariable name collection type).
Proof.
  intros s r s' H E. unfold createVariable in E.
  destruct (createVariable_error _ _ _ _).
  - injection E as <- <-. exact H.
  - revert E. apply (preserves_hostCall Q); [|exact H]. intros h. apply Q_createVariable.
Qed.

Lemma kept_setValueForMode variable id x :
  preserves (fun s => Q (host s)) (setValueForMode variable id x).
Proof.
  intros s r s' H E. unfold setValueForMode in E.
  destruct (setValueForMode_error _ _ _ _).
  - injection E as <- <-. exact H.
  - revert E. apply (preserves_hostUpdate Q); [|exact H]. intros h. apply Q_setValueForMode.
Qed.

Lemma kept_resolveAlias tc tv : preserves (fun s => Q (host s)) (resolveAlias tc tv).
Proof.
  unfold resolveAlias.
  apply preserves_bind; [apply preserves_getLocalVariableCollections|]. intros cols.
  apply preserves_bind; [apply preserves_getLocalVariables|]. intros vars.
  destruct (match js_find _ cols with Some _ => _ | None => _ end); [apply preserves_ret|].
  destruct (js_find _ vars); [|apply preserves_ret].
  apply preserves_bind; [apply kept_log|]. intros _. apply preserves_ret.
Qed.

Lemma kept_setValue variable id varData :
  preserves (fun s => Q (host s)) (setValue variable id varData).
Proof.
  unfold setValue. destruct (aliasTarget varData) as [[tc tv]|].
  - apply preserves_bind; [apply kept_resolveAlias|]. intros [target|];
      [apply kept_setValueForMode | apply kept_log].
  - apply preserves_bind; [apply preserves_lift|]. intros x. apply kept_setValueForMode.
Qed.

Lemma kept_setOne collection id total n entry :
  preserves (fun s => Q (host s)) (setOne collection id total n entry).
Proof.
  destruct entry as [varName varData]. unfold setOne.
  apply preserves_bind; [apply kept_progress|]. intros _.
  apply preserves_bind; [apply preserves_getLocalVariables|]. intros vars.
  destruct (js_find _ vars); [|apply preserves_ret].
  apply preserves_try_catch; [apply kept_setValue|]. intros e. apply kept_log.
Qed.

Lemma kept_createIfMissing collection total n entry :
  preserves (fun s => Q (host s)) (createIfMissing collection total n entry).
Proof.
  destruct entry as [varName varData]. unfold createIfMissing.
  apply preserves_bind; [apply kept_progress|]. intros _.
  apply preserves_bind; [apply preserves_getLocalVariables|]. intros vars.
  destruct (js_find _ vars); [apply preserves_ret|].
  apply preserves_bind.
  { destruct (Js.truthy _); [apply preserves_lift | apply preserves_ret]. }
  intros type. apply preserves_try_catch; [|intros e; apply kept_log].
  apply preserves_bind; [apply kept_createVariable|]. intros _. apply kept_log.
Qed.

Lemma kept_discoverVariables collectionMap f entry :
  preserves (fun s => Q (host s)) (discoverVariables collectionMap f entry).
Proof.
  destruct entry as [collectionName modes]. unfold discoverVariables.
  destruct (collectionMap !! collectionName); [|apply preserves_ret].
  apply preserves_bind; [apply preserves_lift|]. intros names.
  apply preserves_bind; [apply preserves_lift|]. intros flat.
  apply preserves_bind; [|intros _; apply preserves_ret].
  apply preserves_for_counted. intros n x _. apply kept_createIfMissing.
Qed.

Lemma kept_setMode collection modeMap f entry :
  preserves (fun s => Q (host s)) (setMode collection modeMap f entry).
Proof.
  destruct entry as [modeName tree]. unfold setMode.
  destruct (modeMap ≫= _) as [id|]; [|apply preserves_ret].
  destruct (negb _); [apply preserves_ret|].
  apply preserves_bind; [apply preserves_lift|]. intros flat.
  apply preserves_bind; [|intros _; apply preserves_ret].
  apply preserves_for_counted. intros n x _. apply kept_setOne.
Qed.

Lemma kept_setCollection collectionMap modeMaps f entry :
  preserves (fun s => Q (host s)) (setCollection collectionMap modeMaps f entry).
Proof.
  destruct entry as [collectionName modes]. unfold setCollection.
  destruct (collectionMap !! collectionName); [|apply preserves_ret].
  apply preserves_bind; [apply preserves_lift|]. intros modeEntries.
  apply preserves_for_fold. intros a x _. apply kept_setMode.
Qed.

(** Passes 2 and 3, after any Pass 1. *)
Lemma kept_later_passes data maps f :
  preserves (fun s => Q (host s))
    (bind (lift (JsObject.entries data)) (fun collections2 =>
     bind (for_fold collections2 f (discoverVariables (fst maps))) (fun hasLegacy2 =>
     bind (lift (JsObject.entries data)) (fun collections3 =>
     for_fold collections3 hasLegacy2 (setCollection (fst maps) (snd maps)))))).
Proof.
  apply preserves_bind; [apply preserves_lift|]. intros c2.
  apply preserves_bind.
  { apply preserves_for_fold. intros a x _. apply kept_discoverVariables. }
  intros g. apply preserves_bind; [apply preserves_lift|]. intros c3.
  apply preserves_for_fold. intros a x _. apply kept_setCollection.
Qed.

Hypothesis Q_createVariableCollection :
  forall name h, Q h -> Q (snd (Figma.createVariableCollection name h)).
Hypothesis Q_renameMode :
  forall collection id newName h, Q h -> Q (Figma.renameMode collection id newName h).
Hypothesis Q_addMode :
  forall collection name h, Q h -> Q (snd (Figma.addMode collection name h)).

Lemma kept_createVariableCollection name :
  preserves (fun s => Q (host s)) (createVariableCollection name).
Proof.
  intros s r s' H E. unfold createVariableCollection in E.
  destruct (createVariableCollection_error _ _).
  - injection E as <- <-. exact H.
  - revert E. apply (preserves_hostCall Q); [|exact H]. intros h.
    apply Q_createVariableCollection.
Qed.

Lemma kept_renameMode collection id newName :
  preserves (fun s => Q (host s)) (renameMode collection id newName).
Proof.
  intros s r s' H E. unfold renameMode in E.
  destruct (renameMode_error _ _ _ _).
  - injection E as <- <-. exact H.
  - revert E. apply (preserves_hostUpdate Q); [|exact H]. intros h. apply Q_renameMode.
Qed.

Lemma kept_addMode collection name : preserves (fun s => Q (host s)) (addMode collection name).
Proof.
  intros s r s' H E. unfold addMode in E.
  destruct (addMode_error _ _ _).
  - injection E as <- <-. exact H.
  - revert E. apply (preserves_hostCall Q); [|exact H]. intros h. apply Q_addMode.
Qed.

Lemma kept_renameOrAddMode collection collectionName existingModes i modeName :
  preserves (fun s => Q (host s))
    (renameOrAddMode collection collectionName existingModes i modeName).
Proof.
  unfold renameOrAddMode.
  destruct (js_find _ existingModes) as [d|]; [destruct (i =? 0)%nat|].
  - apply preserves_bind; [apply kept_renameMode|].
    intros _. apply preserves_bind; [apply kept_log|]. intros _. apply preserves_ret.
  - apply preserves_bind; [apply kept_addMode|].
    intros id. apply preserves_bind; [apply kept_log|]. intros _. apply preserves_ret.
  - apply preserves_bind; [apply kept_addMode|].
    intros id. apply preserves_bind; [apply kept_log|]. intros _. apply preserves_ret.
Qed.

Lemma kept_registerMode collection collectionName existingModes modeMap i modeName :
  preserves (fun s => Q (host s))
    (registerMode collection collectionName existingModes modeMap i modeName).
Proof.
  unfold registerMode. apply preserves_bind; [|intros id; apply preserves_ret].
  destruct (js_find _ existingModes) as [m|]; [|apply kept_renameOrAddMode].
  destruct (JsString.truthy _); [apply preserves_ret | apply kept_renameOrAddMode].
Qed.

Lemma kept_registerCollection maps entry :
  preserves (fun s => Q (host s)) (registerCollection maps entry).
Proof.
  destruct entry as [collectionName modes]. unfold registerCollection.
  apply preserves_bind; [apply preserves_getLocalVariableCollections|]. intros existing.
  apply preserves_bind.
  { destruct (js_find _ existing); [apply preserves_ret|].
    apply preserves_bind; [apply kept_createVariableCollection|].
    intros c. apply preserves_bind; [apply kept_log|]. intros _. apply preserves_ret. }
  intros collection. apply preserves_bind; [apply preserves_lift|]. intros names.
  apply preserves_bind; [|intros modeMap; apply preserves_ret].
  apply preserves_for_fold_counted. intros a n x _. apply kept_registerMode.
Qed.

Lemma kept_importPasses data : preserves (fun s => Q (host s)) (importPasses data).
Proof.
  unfold importPasses.
  apply preserves_bind; [apply preserves_lift|]. intros c1.
  apply preserves_bind.
  { apply preserves_for_fold. intros a x _. apply kept_registerCollection. }
  intros maps. apply (kept_later_passes data maps false).
Qed.

Lemma kept_handleImport data : preserves (fun s => Q (host s)) (handleImport data).
Proof.
  unfold handleImport. apply preserves_try_catch.
  - apply preserves_bind; [apply kept_log|]. intros _.
    apply preserves_bind; [apply kept_importPasses|]. intros g.
    apply preserves_bind; [destruct g; [apply kept_log | apply preserves_ret]|]. intros _.
    apply preserves_bind; [apply kept_log|]. intros _. apply preserves_postMessage.
  - intros e. apply preserves_bind; [apply kept_log|]. intros _. apply preserves_postMessage.
Qed.

End HostInvariant.

Lemma keptVariable_refl v : keptVariable v v.
Proof. repeat split; auto. Qed.

Lemma keptVariable_trans v0 v1 v2 :
  keptVariable v0 v1 -> keptVariable v1 v2 -> keptVariable v0 v2.
Proof.
  intros (A1 & A2 & A3 & A4 & A5 & A6) (B1 & B2 & B3 & B4 & B5 & B6).
  repeat split; try congruence. intros id H. apply B6, A6, H.
Qed.

Lemma keptCollection_refl c : keptCollection c c.
Proof. repeat split. exists []. now rewrite app_nil_r. Qed.

Lemma keptCollection_trans c0 c1 c2 :
  keptCollection c0 c1 -> keptCollection c1 c2 -> keptCollection c0 c2.
Proof.
  intros (A1 & A2 & m1 & A3) (B1 & B2 & m2 & B3).
  repeat split; try congruence. exists (m1 ++ m2). rewrite B3, A3, app_assoc. reflexivity.
Qed.

Lemma Forall2_same {A} (R : A -> A -> Prop) (l : list A) :
  (forall x, R x x) -> Forall2 R l l.
Proof. intros H. induction l; constructor; auto. Qed.

Lemma grownList_refl {A} (R : A -> A -> Prop) (l : list A) :
  (forall x, R x x) -> grownList R l l.
Proof.
  intros H. exists l, []. split; [now rewrite app_nil_r | apply Forall2_same, H].
Qed.

Lemma grownList_trans {A} (R : A -> A -> Prop) (l0 l1 l2 : list A) :
  (forall x y z, R x y -> R y z -> R x z) ->
  grownList R l0 l1 -> grownList R l1 l2 -> grownList R l0 l2.
Proof.
  intros Ht (k1 & m1 & -> & H1) (k2 & m2 & -> & H2).
  apply Forall2_app_inv_l in H2 as (k2a & k2b & Ha & Hb & ->).
  exists k2a, (k2b ++ m2). split; [now rewrite app_assoc|].
  clear Hb. revert k2a Ha. induction H1 as [|x y l l' Hxy Hl IH]; intros k2a Ha.
  - inversion Ha. constructor.
  - inversion Ha as [|? z ? k' Hyz Hrest]; subst. constructor; [eapply Ht; eauto|].
    apply IH, Hrest.
Qed.

Lemma grownList_snoc {A} (R : A -> A -> Prop) (l : list A) (x : A) :
  (forall x, R x x) -> grownList R l (l ++ [x]).
Proof. intros H. exists l, [x]. split; [reflexivity | apply Forall2_same, H]. Qed.

Lemma grownList_update_at {A} (R : A -> A -> Prop) (i : nat) (f : A -> A) (l : list A) :
  (forall x, R x x) -> (forall x, R x (f x)) -> grownList R l (Figma.update_at i f l).
Proof.
  intros Hr Hf. exists (Figma.update_at i f l), []. split; [now rewrite app_nil_r|].
  unfold Figma.update_at. destruct (l !! i) as [x|] eqn:E; [|apply Forall2_same, Hr].
  revert i E. induction l as [|y l IH]; intros [|i] E; simpl in *; try discriminate.
  - injection E as ->. constructor; [apply Hf | apply Forall2_same, Hr].
  - constructor; [apply Hr | apply IH, E].
Qed.

Lemma grownFrom_refl h : grownFrom h h.
Proof.
  split; apply grownList_refl; [apply keptCollection_refl | apply keptVariable_refl].
Qed.

Lemma grownFrom_trans h0 h1 h2 : grownFrom h0 h1 -> grownFrom h1 h2 -> grownFrom h0 h2.
Proof.
  intros [A1 A2] [B1 B2]. split.
  - eapply grownList_trans; eauto using keptCollection_trans.
  - eapply grownList_trans; eauto using keptVariable_trans.
Qed.

Lemma grown_createVariableCollection name h :
  grownFrom h (snd (Figma.createVariableCollection name h)).
Proof.
  split; simpl; [apply grownList_snoc, keptCollection_refl
                | apply grownList_refl, keptVariable_refl].
Qed.

Lemma grown_renameMode collection id newName h :
  grownFrom h (Figma.renameMode collection id newName h).
Proof.
  split; simpl; [|apply grownList_refl, keptVariable_refl].
  apply grownList_update_at; [apply keptCollection_refl|].
  intros c. repeat split. exists []. cbn [collection_modes]. rewrite app_nil_r, map_map.
  apply map_ext. intros m. destruct (String.eqb (modeId m) id); reflexivity.
Qed.

Lemma grown_addMode collection name h : grownFrom h (snd (Figma.addMode collection name h)).
Proof.
  split; simpl; [|apply grownList_refl, keptVariable_refl].
  apply grownList_update_at; [apply keptCollection_refl|].
  intros c. repeat split. eexists. cbn [collection_modes]. rewrite map_app. reflexivity.
Qed.

Lemma grown_createVariable name collection type h :
  grownFrom h (snd (Figma.createVariable name collection type h)).
Proof.
  split; simpl; [apply grownList_refl, keptCollection_refl
                | apply grownList_snoc, keptVariable_refl].
Qed.

Lemma grown_setValueForMode variable id x h :
  grownFrom h (Figma.setValueForMode variable id x h).
Proof.
  split; simpl; [apply grownList_refl, keptCollection_refl|].
  apply grownList_update_at; [apply keptVariable_refl|].
  intros v. repeat split. cbn [valuesByMode]. intros id' H.
  destruct (decide (id = id')) as [->|Hne].
  - rewrite lookup_insert_eq. eauto.
  - rewrite lookup_insert_ne by exact Hne. exact H.
Qed.

(** X4.  Whatever the document and however the import ends, the host
    afterwards has every collection and every variable it had, at the same
    place: a collection keeps its id, its name and the ids of its modes (new
    modes come after them), a variable keeps its id, its name, its
    collection, its type and its description, and has a value for every mode
    it had one for; new collections and new variables come after. *)
Theorem import_only_adds {env : Environment} data s :
  grownFrom (host s) (host (snd (handleImport data s))).
Proof.
  destruct (handleImport data s) as [r s'] eqn:E. cbn [snd].
  apply (kept_handleImport (grownFrom (host s))) with (data := data) (s := s) (r := r);
    try exact E; try apply grownFrom_refl; intros;
    (eapply grownFrom_trans; [eassumption|]).
  - apply grown_createVariable.
  - apply grown_setValueForMode.
  - apply grown_createVariableCollection.
  - apply grown_renameMode.
  - apply grown_addMode.
Qed.

(* ================================================================== *)
(** * Properties: importing a document again *)
(* ================================================================== *)

Lemma find_from_start {A} (p : A -> bool) (l : list A) k j x :
  find_from p l k = Some (j, x) -> (k <= j)%nat.
Proof. intros H. apply find_from_first in H as (i & -> & _). lia. Qed.

Lemma find_from_insert {A} (p : A -> bool) (l : list A) :
  forall i x y k,
    l !! i = Some x -> p y = p x ->
    find_from p (<[i := y]> l) k
    = match find_from p l k with
      | Some (j, z) => Some (j, if (j =? k + i)%nat then y else z)
      | None => None
      end.
Proof.
  induction l as [|a l IH]; intros [|i] x y k Hi Hp; simpl in *; try discriminate.
  - injection Hi as ->. rewrite Hp. destruct (p x).
    + rewrite Nat.add_0_r, Nat.eqb_refl. reflexivity.
    + destruct (find_from p l (S k)) as [[j z]|] eqn:E; [|reflexivity].
      apply find_from_start in E.
      destruct (Nat.eqb_spec j (k + 0)); [lia | reflexivity].
  - destruct (p a).
    + destruct (Nat.eqb_spec k (k + S i)); [lia | reflexivity].
    + rewrite (IH i x y (S k) Hi Hp).
      destruct (find_from p l (S k)) as [[j z]|]; [|reflexivity].
      replace (k + S i)%nat with (S k + i)%nat by lia. reflexivity.
Qed.

Lemma js_find_insert {A} (p : A -> bool) (l : list A) i x y :
  l !! i = Some x -> p y = p x ->
  js_find p (<[i := y]> l)
  = match js_find p l with
    | Some (j, z) => Some (j, if (j =? i)%nat then y else z)
    | None => None
    end.
Proof. intros Hi Hp. unfold js_find. rewrite (find_from_insert p l i x y 0 Hi Hp). reflexivity. Qed.

Lemma js_find_exists {A} (p : A -> bool) (l : list A) :
  Exists (fun x => p x = true) l -> exists j x, js_find p l = Some (j, x).
Proof.
  intros H. destruct (js_find p l) as [[j x]|] eqn:E; [eauto|].
  apply js_find_none in E. apply List.Exists_exists in H as (x & Hx & Hp).
  rewrite (E x Hx) in Hp. discriminate.
Qed.

Lemma js_find_lookup {A} (p : A -> bool) (l : list A) j x :
  js_find p l = Some (j, x) -> l !! j = Some x.
Proof. intros H. apply js_find_first in H. apply H. Qed.

(** An existing collection with no default mode: the loop adds modes
    after those it has, for the declared names it does not find. *)
Lemma modesLoop_no_default existing names :
  js_find (modeNamed "Mode 1") existing = None ->
  forall i ms n,
  exists extra,
    fst (modesLoop existing names i (ms, n)) = ms ++ extra
    /\ Forall (fun m => In (mode_name m) names /\ JsString.truthy (modeId m) = true) extra
    /\ Forall (fun k => Exists (fun m => mode_name m = k) (existing ++ extra)) names.
Proof.
  intros Hnone. induction names as [|name names IH]; intros i ms n; simpl.
  - exists []. rewrite app_nil_r. repeat constructor.
  - unfold modeStep at 1. rewrite Hnone.
    destruct (js_find (modeNamed name) existing) as [[j m]|] eqn:Hfind; cbn [snd fst].
    + destruct (JsString.truthy (modeId m)) eqn:Hid.
      * destruct (IH (S i) ms n) as (extra & E & Hextra & Hnames).
        exists extra. split; [exact E|]. split.
        -- eapply Forall_impl; [exact Hextra|]. intros x [Hx Hy]. split; [right|]; assumption.
        -- constructor; [|exact Hnames].
           apply Exists_app. left. apply List.Exists_exists. exists m.
           apply js_find_first in Hfind as (Hl & Hp & _). split.
           ++ apply list_elem_of_In. eapply list_elem_of_lookup_2, Hl.
           ++ apply String.eqb_eq, Hp.
      * destruct (IH (S i) (ms ++ [ {| modeId := Figma.mode_id_of n; mode_name := name |} ]) (S n))
          as (extra & E & Hextra & Hnames).
        exists ({| modeId := Figma.mode_id_of n; mode_name := name |} :: extra).
        split; [rewrite E, <- app_assoc; reflexivity|]. split.
        -- constructor; [split; [left; reflexivity | reflexivity]|].
           eapply Forall_impl; [exact Hextra|]. intros x [Hx Hy]. split; [right|]; assumption.
        -- constructor.
           ++ apply Exists_app. right. left. reflexivity.
           ++ eapply Forall_impl; [exact Hnames|]. intros k Hk. cbv beta in *.
              apply Exists_app in Hk as [Hk|Hk]; apply Exists_app; [left | right; right];
                exact Hk.
    + destruct (IH (S i) (ms ++ [ {| modeId := Figma.mode_id_of n; mode_name := name |} ]) (S n))
        as (extra & E & Hextra & Hnames).
      exists ({| modeId := Figma.mode_id_of n; mode_name := name |} :: extra).
      split; [rewrite E, <- app_assoc; reflexivity|]. split.
      * constructor; [split; [left; reflexivity | reflexivity]|].
        eapply Forall_impl; [exact Hextra|]. intros x [Hx Hy]. split; [right|]; assumption.
      * constructor.
        -- apply Exists_app. right. left. reflexivity.
        -- eapply Forall_impl; [exact Hnames|]. intros k Hk. cbv beta in *.
           apply Exists_app in Hk as [Hk|Hk]; apply Exists_app; [left | right; right];
             exact Hk.
Qed.

Section DeclaredModes.

Context {env : Environment}.

Hypothesis accepted : acceptsModes env.

(** Pass 1 on a collection the host has. *)
Lemma registerCollection_existing maps c modes names i col s :
  js_find (collectionCalled c) (collections (host s)) = Some (i, col) ->
  JsObject.keys modes = Ok names ->
  exists p',
    registerCollection maps (c, modes) s
    = (Ok (<[c := (i, col)]> (fst maps),
           <[c := modeMapLoop (collection_modes col) names 0
                    (collection_modes col, allocated (host s)) ∅]> (snd maps)),
       {| host :=
            setModes i col
              (fst (modesLoop (collection_modes col) names 0
                      (collection_modes col, allocated (host s))))
              (snd (modesLoop (collection_modes col) names 0
                      (collection_modes col, allocated (host s))))
              (host s);
          posted := p' |}).
Proof.
  intros Hc Hkeys. pose proof (js_find_lookup _ _ _ _ Hc) as Hlook.
  unfold registerCollection, bind, getLocalVariableCollections, ret, lift.
  fold (collectionCalled c). rewrite Hc, Hkeys. cbn [snd].
  destruct s as [h p]. cbn [host] in *.
  assert (Hlen : (i < length (collections h))%nat) by (eapply lookup_lt_Some, Hlook).
  destruct (registerModes_effect accepted i col c (collection_modes col) names ∅ 0%nat col
              (collection_modes col) (allocated h) h p Hlen) as (p' & E).
  rewrite (setModes_same i col h Hlook) in E. rewrite E. exists p'. reflexivity.
Qed.

Lemma addedModes_Forall (P : string -> Prop) n names :
  Forall P names ->
  Forall (fun m => P (mode_name m) /\ JsString.truthy (modeId m) = true) (addedModes n names).
Proof.
  intros H. revert n. induction H as [|k names Hk Hnames IH]; intros n; simpl; constructor.
  - split; [exact Hk | reflexivity].
  - apply IH.
Qed.

Lemma addedModes_Exists n names k :
  In k names -> Exists (fun m => mode_name m = k) (addedModes n names).
Proof.
  revert n. induction names as [|k' names IH]; intros n []; simpl.
  - subst. left. reflexivity.
  - right. apply IH. assumption.
Qed.

Lemma noDefault_find h i col :
  noDefaultMode h -> collections h !! i = Some col ->
  js_find (modeNamed "Mode 1") (collection_modes col) = None.
Proof.
  intros H Hl. apply js_find_none. intros m Hm.
  pose proof (Forall_lookup_1 _ _ _ _ H Hl) as Hc. cbv beta in Hc.
  rewrite List.Forall_forall in Hc. specialize (Hc m Hm).
  unfold modeNamed. apply String.eqb_neq, Hc.
Qed.

(** Pass 1 on one collection of a document that declares modes, none
    called "Mode 1", in a host without default modes: afterwards the host
    still has no default mode, and it has the collection with a mode for
    every declared name. *)
Lemma registerCollection_declares maps c modes s :
  nullish modes = false ->
  Js.ownProps modes <> [] ->
  ~ In "Mode 1" (map fst (Js.ownProps modes)) ->
  noDefaultMode (host s) -> modeIdsOk (host s) ->
  exists maps' s',
    registerCollection maps (c, modes) s = (Ok maps', s')
    /\ noDefaultMode (host s') /\ modeIdsOk (host s')
    /\ declared c (map fst (Js.ownProps modes)) (host s')
    /\ forall c' ks, declared c' ks (host s) -> declared c' ks (host s').
Proof.
  intros Hn Hprops Hnot Hnd Hids.
  pose proof (keys_returns modes Hn) as Hkeys.
  set (names := map fst (Js.ownProps modes)) in *.
  destruct (js_find (collectionCalled c) (collections (host s))) as [[i col]|] eqn:Hc.
  - destruct (registerCollection_existing maps c modes names i col s Hc Hkeys) as (p' & E).
    pose proof (js_find_lookup _ _ _ _ Hc) as Hlook.
    destruct (modesLoop_no_default (collection_modes col) names
                (noDefault_find _ _ _ Hnd Hlook) 0%nat (collection_modes col)
                (allocated (host s))) as (extra & Hms & Hextra & Hnames).
    rewrite Hms in E. eexists _, _. split; [exact E|]. cbn [host].
    pose proof (Forall_lookup_1 _ _ _ _ Hnd Hlook) as Hnd_col.
    pose proof (Forall_lookup_1 _ _ _ _ Hids Hlook) as Hids_col. cbv beta in *.
    split; [|split; [|split]].
    + apply Forall_insert; [exact Hnd|]. cbn [withModes collection_modes].
      apply Forall_app. split; [exact Hnd_col|].
      eapply Forall_impl; [exact Hextra|]. intros m [Hm _] Heq. rewrite Heq in Hm.
      exact (Hnot Hm).
    + apply Forall_insert; [exact Hids|]. cbn [withModes collection_modes].
      apply Forall_app. split; [exact Hids_col|].
      eapply Forall_impl; [exact Hextra|]. intros m [_ Hm]. exact Hm.
    + eexists i, _. split.
      * unfold setModes; cbn [collections].
        pose proof (js_find_insert (collectionCalled c) _ i col
                      (withModes col (collection_modes col ++ extra)) Hlook eq_refl) as X.
        rewrite X.
        rewrite Hc, Nat.eqb_refl. reflexivity.
      * exact Hnames.
    + intros c' ks (j & cj & Hj & Hks).
      eexists j, _. unfold setModes; cbn [collections]. split.
      * rewrite (js_find_insert (collectionCalled c') _ i col
                   (withModes col (collection_modes col ++ extra)) Hlook eq_refl).
        rewrite Hj. reflexivity.
      * destruct (Nat.eqb_spec j i) as [->|Hne]; [|exact Hks].
        pose proof (js_find_lookup _ _ _ _ Hj) as Hlj.
        assert (cj = col) by congruence. subst cj.
        cbn [withModes collection_modes].
        eapply Forall_impl; [exact Hks|]. intros k Hk. apply Exists_app. left. exact Hk.
  - destruct names as [|first rest] eqn:Enames.
    { exfalso. apply Hprops. subst names. destruct (Js.ownProps modes); [reflexivity|discriminate]. }
    destruct (registerCollection_fresh accepted maps c modes first rest s Hc Hkeys) as (p' & E).
    eexists _, _. split; [exact E|]. cbn [host].
    assert (Hfirst : first <> "Mode 1") by (intros ->; apply Hnot; left; reflexivity).
    assert (Hrest : Forall (fun k => k <> "Mode 1") rest).
    { apply List.Forall_forall. intros k Hk ->. apply Hnot. right. exact Hk. }
    assert (Hfilter : List.filter notDefault rest = rest).
    { clear -Hrest. induction Hrest as [|k rest Hk _ IH]; simpl; [reflexivity|].
      unfold notDefault at 1. apply String.eqb_neq in Hk. rewrite Hk. simpl. now rewrite IH. }
    pose proof (addedModes_Forall _ (S (S (allocated (host s)))) _ Hrest) as Hadded.
    split; [|split; [|split]].
    + apply Forall_app. split; [exact Hnd|]. constructor; [|constructor].
      unfold createdCollection. cbn [collection_modes]. rewrite Hfilter.
      constructor; [exact Hfirst|].
      eapply Forall_impl; [exact Hadded|]. intros m [Hm _]. exact Hm.
    + apply Forall_app. split; [exact Hids|]. constructor; [|constructor].
      unfold createdCollection. cbn [collection_modes]. rewrite Hfilter.
      constructor; [reflexivity|].
      eapply Forall_impl; [exact Hadded|]. intros m [_ Hm]. exact Hm.
    + eexists _, _. split.
      * cbn [collections]. unfold js_find in *.
        rewrite (find_from_app_none _ _ _ _ Hc). cbn [find_from].
        unfold collectionCalled at 1, createdCollection at 1. cbn [collection_name].
        rewrite String.eqb_refl. reflexivity.
      * unfold createdCollection. cbn [collection_modes]. rewrite Hfilter.
        constructor; [left; reflexivity|].
        apply List.Forall_forall. intros k Hk. right. apply addedModes_Exists, Hk.
    + intros c' ks (j & cj & Hj & Hks). exists j, cj. split; [|exact Hks].
      cbn [collections]. apply find_from_app_some, Hj.
Qed.

(** Pass 1 on such a document. *)
Lemma pass1_declares entries :
  Forall (fun e => nullish (snd e) = false
                   /\ Js.ownProps (snd e) <> []
                   /\ ~ In "Mode 1" (map fst (Js.ownProps (snd e)))) entries ->
  forall maps s,
    noDefaultMode (host s) -> modeIdsOk (host s) ->
    exists maps' s',
      for_fold entries maps registerCollection s = (Ok maps', s')
      /\ noDefaultMode (host s') /\ modeIdsOk (host s')
      /\ Forall (fun e => declared (fst e) (map fst (Js.ownProps (snd e))) (host s')) entries
      /\ forall c' ks, declared c' ks (host s) -> declared c' ks (host s').
Proof.
  induction 1 as [|[c modes] entries (Hn & Hprops & Hnot) Hrest IH]; intros maps s Hnd Hids.
  - exists maps, s. repeat split; auto.
  - cbn [snd fst] in *.
    destruct (registerCollection_declares maps c modes s Hn Hprops Hnot Hnd Hids)
      as (maps1 & s1 & E1 & Hnd1 & Hids1 & Hd1 & Hmono1).
    destruct (IH maps1 s1 Hnd1 Hids1) as (maps2 & s2 & E2 & Hnd2 & Hids2 & Hd2 & Hmono2).
    exists maps2, s2. split.
    { cbn [for_fold]. unfold bind. rewrite E1. exact E2. }
    split; [exact Hnd2|]. split; [exact Hids2|]. split.
    + constructor; [apply Hmono2, Hd1 | exact Hd2].
    + intros c' ks H. apply Hmono2, Hmono1, H.
Qed.

End DeclaredModes.

Lemma declared_known c names h :
  modeIdsOk h -> declared c names h ->
  exists i col,
    firstWith (collectionCalled c) (collections h) i col
    /\ Forall (fun k => exists j m, firstWith (modeNamed k) (collection_modes col) j m
                                    /\ JsString.truthy (modeId m) = true) names.
Proof.
  intros Hids (i & col & Hc & Hnames). exists i, col. split; [apply js_find_first, Hc|].
  pose proof (Forall_lookup_1 _ _ _ _ Hids (js_find_lookup _ _ _ _ Hc)) as Hcol.
  cbv beta in Hcol.
  eapply Forall_impl; [exact Hnames|]. intros k Hk. cbv beta in Hk.
  destruct (js_find_exists (modeNamed k) (collection_modes col)) as (j & m & Hm).
  { eapply List.Exists_impl; [|exact Hk]. intros m Hm. apply String.eqb_eq, Hm. }
  exists j, m. split; [apply js_find_first, Hm|].
  apply (Forall_lookup_1 _ _ _ _ Hcol (js_find_lookup _ _ _ _ Hm)).
Qed.

Lemma registerCollection_known {env : Environment} maps c modes names i col s :
  firstWith (collectionCalled c) (collections (host s)) i col ->
  JsObject.keys modes = Ok names ->
  Forall (fun k => exists j m, firstWith (modeNamed k) (collection_modes col) j m
                               /\ JsString.truthy (modeId m) = true) names ->
  exists modeMap,
    registerCollection maps (c, modes) s
    = (Ok (<[c := (i, col)]> (fst maps), <[c := modeMap]> (snd maps)), s)
    /\ forall k j m, In k names -> firstWith (modeNamed k) (collection_modes col) j m ->
                     modeMap !! k = Some (modeId m).
Proof.
  intros Hc Hkeys Hnames. apply js_find_first in Hc.
  destruct (registerModes_reuse (i, col) c (collection_modes col) names Hnames 0%nat ∅ s)
    as (modeMap & E & Hmap).
  exists modeMap. split.
  - unfold registerCollection, bind, getLocalVariableCollections, ret, lift.
    fold (collectionCalled c). rewrite Hc, Hkeys. cbn [snd]. rewrite E. reflexivity.
  - intros k j m Hin Hk. apply (Hmap k j m Hk). left. exact Hin.
Qed.

(** Pass 1 on a document whose collections and modes the host all has. *)
Lemma pass1_again {env : Environment} entries s :
  modeIdsOk (host s) ->
  Forall (fun e => nullish (snd e) = false
                   /\ declared (fst e) (map fst (Js.ownProps (snd e))) (host s)) entries ->
  forall maps, exists maps', for_fold entries maps registerCollection s = (Ok maps', s).
Proof.
  intros Hids. induction 1 as [|[c modes] entries [Hn Hd] Hrest IH]; intros maps.
  - exists maps. reflexivity.
  - cbn [fst snd] in *.
    destruct (declared_known _ _ _ Hids Hd) as (i & col & Hc & Hnames).
    destruct (registerCollection_known maps c modes _ i col s Hc (keys_returns modes Hn) Hnames)
      as (modeMap & E & _).
    destruct (IH (<[c := (i, col)]> (fst maps), <[c := modeMap]> (snd maps))) as (maps' & E').
    exists maps'. cbn [for_fold]. unfold bind. rewrite E. exact E'.
Qed.

Section Reimport.

Context {env : Environment}.

(** Passes 2 and 3 leave the collections as Pass 1 made them. *)
Lemma importPasses_collections data s :
  nullish data = false ->
  collections (host (snd (importPasses data s)))
  = collections (host (snd (for_fold (Js.ownProps data) (∅, ∅) registerCollection s))).
Proof.
  intros Hn. unfold importPasses. rewrite (entries_returns data Hn), bind_lift_Ok.
  unfold bind at 1.
  destruct (for_fold (Js.ownProps data) (∅, ∅) registerCollection s) as [[maps|e] s1] eqn:E1;
    [|reflexivity].
  cbn [snd].
  match goal with |- collections (host (snd (?m s1))) = _ =>
    destruct (m s1) as [r s'] eqn:E end.
  cbn [snd].
  apply (kept_later_passes (fun h => collections h = collections (host s1)))
    with (data := data) (maps := maps) (f := false) (s := s1) (r := r);
    [intros name c ty h H; exact H | intros v id x h H; exact H | reflexivity |].
  rewrite (entries_returns data Hn). exact E.
Qed.

Lemma handleImport_host data s :
  host (snd (handleImport data s)) = host (snd (importPasses data (started s))).
Proof.
  rewrite handleImport_outcome.
  destruct (importPasses data (started s)) as [[g|e] s']; reflexivity.
Qed.

End Reimport.

Lemma declaresModes_parts data :
  declaresModes data ->
  nullish data = false
  /\ Forall (fun e => nullish (snd e) = false
                      /\ Js.ownProps (snd e) <> []
                      /\ ~ In "Mode 1" (map fst (Js.ownProps (snd e)))) (Js.ownProps data).
Proof. intros H. exact H. Qed.

(** C6, as the code has it.  Importing a document twice.  The document
    gives every collection at least one mode and calls none "Mode 1"; the
    host has no mode called "Mode 1" to begin with (an empty host, for one)
    and no mode with an empty id, and it refuses no collection and no mode.
    Then no mode is called "Mode 1" after the first import, and the second
    import leaves the collections and their modes exactly as the first one
    left them. *)
Theorem reimport_keeps_collections {env : Environment} data s :
  acceptsModes env ->
  declaresModes data ->
  noDefaultMode (host s) ->
  modeIdsOk (host s) ->
  noDefaultMode (host (snd (handleImport data s)))
  /\ collections (host (snd (handleImport data (snd (handleImport data s)))))
     = collections (host (snd (handleImport data s))).
Proof.
  intros Hacc [Hn Hentries] Hnd Hids.
  destruct (pass1_declares Hacc _ Hentries (∅, ∅) (started s) Hnd Hids)
    as (maps1 & s1 & E1 & Hnd1 & Hids1 & Hd1 & _).
  set (t := snd (handleImport data s)).
  assert (Hcols : collections (host t) = collections (host s1)).
  { subst t. rewrite handleImport_host, (importPasses_collections data _ Hn), E1. reflexivity. }
  assert (Hnd_t : noDefaultMode (host t)) by (unfold noDefaultMode; rewrite Hcols; exact Hnd1).
  assert (Hids_t : modeIdsOk (host (started t)))
    by (unfold modeIdsOk; cbn [started posting host]; rewrite Hcols; exact Hids1).
  split; [exact Hnd_t|].
  rewrite handleImport_host, (importPasses_collections data _ Hn).
  destruct (pass1_again (Js.ownProps data) (started t) Hids_t) with (maps := (∅, ∅) : gmap string (Ref VariableCollection) * gmap string (gmap string string))
    as (maps2 & E2).
  { clear -Hentries Hd1 Hcols.
    induction Hentries as [|e entries (Hn & _) _ IH]; [constructor|].
    inversion Hd1 as [|? ? Hd Hrest]; subst. constructor; [|apply IH, Hrest].
    split; [exact Hn|]. unfold declared in *. cbn [started posting host]. rewrite Hcols.
    exact Hd. }
  rewrite E2. reflexivity.
Qed.

Lemma reimport_example :
  noDefaultMode
    (host (snd (handleImport (env := Sim.environment) twoCollectionDocument Sim.start)))
  /\ collections
       (host (snd (handleImport (env := Sim.environment) twoCollectionDocument
                     (snd (handleImport (env := Sim.environment) twoCollectionDocument
                             Sim.start)))))
     = collections
         (host (snd (handleImport (env := Sim.environment) twoCollectionDocument Sim.start))).
Proof.
  apply (reimport_keeps_collections (env := Sim.environment) twoCollectionDocument Sim.start).
  - exact acceptsModes_Sim.
  - split; [reflexivity|].
    repeat constructor; cbn; try discriminate; intros H;
      repeat (destruct H as [H|H]; [discriminate H|]); exact H.
  - constructor.
  - constructor.
Defined.

(** C6, as stated, fails.  A document whose first declared mode is called
    "Mode 1", or whose collection declares no mode, leaves a mode of that
    name in the collection it creates.  And with "Mode 1" declared after
    another mode, the first import makes no mode for it and the second import
    adds one: the second import is not without effect on the modes. *)
Lemma declared_default_mode_stays :
  map (fun c => map mode_name (collection_modes c))
    (collections (host (snd (handleImport (env := Sim.environment)
                               (singleMode "Brand" "Mode 1" (Sim.obj [])) Sim.start))))
  = [ [ "Mode 1" ] ]
  /\ map (fun c => map mode_name (collection_modes c))
       (collections (host (snd (handleImport (env := Sim.environment)
                                  (Sim.obj [ ("Brand", Sim.obj []) ]) Sim.start))))
     = [ [ "Mode 1" ] ]
  /\ map (fun c => map mode_name (collection_modes c))
       (collections (host (snd (handleImport (env := Sim.environment)
                                  (Sim.obj [ ("Brand", threeModes) ]) Sim.start))))
     = [ [ "Light"; "Dark" ] ]
  /\ map (fun c => map mode_name (collection_modes c))
       (collections
          (host (snd (handleImport (env := Sim.environment)
                        (Sim.obj [ ("Brand", threeModes) ])
                        (snd (handleImport (env := Sim.environment)
                                (Sim.obj [ ("Brand", threeModes) ]) Sim.start))))))
     = [ [ "Light"; "Dark"; "Mode 1" ] ].
Proof. repeat split; vm_compute; reflexivity. Qed.

Lemma addedModes_names n names : map mode_name (addedModes n names) = names.
Proof.
  revert n. induction names as [|k names IH]; intros n; simpl; [reflexivity|].
  rewrite IH. reflexivity.
Qed.

Lemma filter_notDefault names :
  Forall (fun k => k <> "Mode 1") (List.filter notDefault names).
Proof.
  induction names as [|k names IH]; simpl; [constructor|].
  unfold notDefault at 1. destruct (String.eqb_spec k "Mode 1"); simpl;
    [exact IH | constructor; assumption].
Qed.

(** X1.  Pass 1 on a collection the host lacks, on a host that accepts the
    calls: the collection is added at the end; its first mode is the default
    mode the host made with it, with the same id and the first declared
    name; then comes one mode for each of the other declared names but
    "Mode 1"; no other collection and no variable changes. *)
Theorem new_collection_gets_declared_modes {env : Environment} maps c modes first rest s :
  acceptsModes env ->
  noneWith (collectionCalled c) (collections (host s)) ->
  JsObject.keys modes = Ok (first :: rest) ->
  exists maps' s' created default others,
    registerCollection maps (c, modes) s = (Ok maps', s')
    /\ collections (host s') = collections (host s) ++ [ created ]
    /\ collection_name created = c
    /\ collection_modes (snd (fst (Figma.createVariableCollection c (host s)))) = [ default ]
    /\ collection_modes created = {| modeId := modeId default; mode_name := first |} :: others
    /\ map mode_name others = List.filter notDefault rest
    /\ variables (host s') = variables (host s).
Proof.
  intros Hacc Hnone Hkeys. apply js_find_none in Hnone.
  destruct (registerCollection_fresh Hacc maps c modes first rest s Hnone Hkeys) as (p' & E).
  eexists _, _, _, _, _. split; [exact E|]. cbn [host collections variables].
  split; [reflexivity|]. split; [reflexivity|].
  split; [reflexivity|]. split; [reflexivity|]. split; [|reflexivity].
  apply addedModes_names.
Qed.

Lemma new_collection_example :
  exists maps' s' created default others,
    registerCollection (env := Sim.environment) (∅, ∅) ("Brand", threeModes) Sim.start
    = (Ok maps', s')
    /\ collections (host s') = collections (host Sim.start) ++ [ created ]
    /\ collection_name created = "Brand"
    /\ collection_modes (snd (fst (Figma.createVariableCollection "Brand" (host Sim.start))))
       = [ default ]
    /\ collection_modes created = {| modeId := modeId default; mode_name := "Light" |} :: others
    /\ map mode_name others = List.filter notDefault [ "Mode 1"; "Dark" ]
    /\ variables (host s') = variables (host Sim.start).
Proof.
  apply (new_collection_gets_declared_modes (env := Sim.environment)).
  - exact acceptsModes_Sim.
  - intros x [].
  - reflexivity.
Defined.

(** X2.  In a collection Pass 1 creates, on a host that accepts the calls, a
    declared mode called "Mode 1" that is not the first one is found in the
    modes read before the renaming: no mode is made for it, and the mode map
    gives it the id of the first mode, which by then carries the first
    declared name. *)
Theorem later_default_mode_shares_first_id {env : Environment} maps c modes first rest s :
  acceptsModes env ->
  noneWith (collectionCalled c) (collections (host s)) ->
  JsObject.keys modes = Ok (first :: rest) ->
  In "Mode 1" rest ->
  exists maps' s' modeMap created others,
    registerCollection maps (c, modes) s = (Ok maps', s')
    /\ snd maps' !! c = Some modeMap
    /\ modeMap !! "Mode 1" = Some (Figma.mode_id_of (S (allocated (host s))))
    /\ collections (host s') = collections (host s) ++ [ created ]
    /\ collection_modes created
       = {| modeId := Figma.mode_id_of (S (allocated (host s))); mode_name := first |} :: others
    /\ Forall (fun m => mode_name m <> "Mode 1") others.
Proof.
  intros Hacc Hnone Hkeys Hin. apply js_find_none in Hnone.
  destruct (registerCollection_fresh Hacc maps c modes first rest s Hnone Hkeys) as (p' & E).
  eexists _, _, _, _, _. split; [exact E|]. cbn [snd host collections].
  split; [apply lookup_insert_eq|].
  split.
  { apply modeMapLoop_fresh_default; [apply mode_id_truthy | left; right; exact Hin]. }
  split; [reflexivity|]. split; [reflexivity|].
  apply List.Forall_forall. intros m Hm.
  apply (in_map mode_name) in Hm. rewrite addedModes_names in Hm.
  pose proof (filter_notDefault rest) as Hf. rewrite List.Forall_forall in Hf. apply Hf, Hm.
Qed.

Lemma later_default_mode_example :
  exists maps' s' modeMap created others,
    registerCollection (env := Sim.environment) (∅, ∅) ("Brand", threeModes) Sim.start
    = (Ok maps', s')
    /\ snd maps' !! "Brand" = Some modeMap
    /\ modeMap !! "Mode 1" = Some (Figma.mode_id_of (S (allocated (host Sim.start))))
    /\ collections (host s') = collections (host Sim.start) ++ [ created ]
    /\ collection_modes created
       = {| modeId := Figma.mode_id_of (S (allocated (host Sim.start))); mode_name := "Light" |}
         :: others
    /\ Forall (fun m => mode_name m <> "Mode 1") others.
Proof.
  apply (later_default_mode_shares_first_id (env := Sim.environment) (∅, ∅) "Brand" threeModes
           "Light" [ "Mode 1"; "Dark" ] Sim.start).
  - exact acceptsModes_Sim.
  - intros x [].
  - reflexivity.
  - left. reflexivity.
Defined.

(** X3.  Pass 1 on a collection the host has, with a mode (of non-empty
    id) for every declared name: nothing is created, renamed or posted, and
    the mode map gives each declared name the id of the first mode of that
    name. *)
Theorem known_collection_is_left_alone {env : Environment} maps c modes names i col s :
  firstWith (collectionCalled c) (collections (host s)) i col ->
  JsObject.keys modes = Ok names ->
  Forall (fun k => exists j m, firstWith (modeNamed k) (collection_modes col) j m
                               /\ JsString.truthy (modeId m) = true) names ->
  exists modeMap,
    registerCollection maps (c, modes) s
    = (Ok (<[c := (i, col)]> (fst maps), <[c := modeMap]> (snd maps)), s)
    /\ forall k j m, In k names -> firstWith (modeNamed k) (collection_modes col) j m ->
                     modeMap !! k = Some (modeId m).
Proof. apply registerCollection_known. Qed.

Lemma known_collection_example :
  exists modeMap,
    registerCollection (env := Sim.environment) (∅, ∅) ("Brand", lightAndDark) brandHost
    = (Ok (<[ "Brand" := (0%nat, brandCollection) ]> ∅, <[ "Brand" := modeMap ]> ∅), brandHost)
    /\ forall k j m, In k [ "Light"; "Dark" ] ->
         firstWith (modeNamed k) (collection_modes brandCollection) j m ->
         modeMap !! k = Some (modeId m).
Proof.
  refine (known_collection_is_left_alone (env := Sim.environment) (∅, ∅) "Brand" lightAndDark
            [ "Light"; "Dark" ] 0%nat brandCollection brandHost _ _ _).
  - apply js_find_first. reflexivity.
  - reflexivity.
  - repeat constructor.
    + exists 0%nat, {| modeId := "m:1"; mode_name := "Light" |}.
      split; [apply js_find_first; reflexivity | reflexivity].
    + exists 1%nat, {| modeId := "m:2"; mode_name := "Dark" |}.
      split; [apply js_find_first; reflexivity | reflexivity].
Defined.

(* ================================================================== *)
(** * Properties: Pass 2, the discovery of variables *)
(* ================================================================== *)

Section Discovery.

Context {env : Environment}.

(** The body of the loop of Pass 2, case by case. *)
Lemma createIfMissing_cases collection total n varName varData s :
  createIfMissing collection total n (varName, varData) s
  = match js_find (variableAt varName collection) (variables (host s)) with
    | Some _ => (Ok tt, posting s (creatingProgress n total))
    | None =>
        match tagType varData with
        | Throw e => (Throw e, posting s (creatingProgress n total))
        | Ok type =>
            match createVariable_error (host s) varName (snd collection) type with
            | Some e =>
                (Ok tt, posting s (creatingProgress n total ++ [ failedToCreate varName e ]))
            | None =>
                (Ok tt,
                 {| host := snd (Figma.createVariable varName collection type (host s));
                    posted := posted s ++ creatingProgress n total
                              ++ [ creatingVariable varName type ] |})
            end
        end
    end.
Proof.
  assert (Hprogress :
    (if (n mod 20 =? 0)%nat
     then postMessage (MProgress ("Creating variables... (" ++ JsString.of_nat n
                                  ++ "/" ++ JsString.of_nat total ++ ")"))
     else ret tt) s = (Ok tt, posting s (creatingProgress n total))).
  { unfold creatingProgress, posting. destruct (n mod 20 =? 0)%nat; [reflexivity|].
    unfold ret. rewrite app_nil_r. destruct s; reflexivity. }
  unfold createIfMissing, bind at 1. rewrite Hprogress.
  unfold bind at 1, getLocalVariables. cbn [posting host]. fold (variableAt varName collection).
  destruct (js_find (variableAt varName collection) (variables (host s))); [reflexivity|].
  unfold tagType, bind at 1.
  destruct (Js.truthy (Js.get varData "$type")).
  - unfold lift. destruct (mapJsonTypeToFigmaType (Js.get varData "$type")) as [type|e];
      [|reflexivity].
    unfold try_catch, bind, createVariable. cbn [posting host posted].
    destruct (createVariable_error _ _ _ _) as [e|].
    + unfold log, postMessage, failedToCreate, posting. cbn [host posted].
      rewrite <- List.app_assoc. reflexivity.
    + unfold hostCall, log, postMessage, creatingVariable, posting.
      cbn [host posted fst snd Figma.createVariable].
      rewrite <- List.app_assoc. reflexivity.
  - unfold ret. unfold try_catch, bind, createVariable. cbn [posting host posted].
    destruct (createVariable_error _ _ _ _) as [e|].
    + unfold log, postMessage, failedToCreate, posting. cbn [host posted].
      rewrite <- List.app_assoc. reflexivity.
    + unfold hostCall, log, postMessage, creatingVariable, posting.
      cbn [host posted fst snd Figma.createVariable].
      rewrite <- List.app_assoc. reflexivity.
Qed.

End Discovery.

Lemma Exists_app_l {A} (P : A -> Prop) (l l' : list A) : Exists P l -> Exists P (l ++ l').
Proof. intros H. apply Exists_app. left. exact H. Qed.

Lemma discovered_more flat flat' collection v :
  (forall e, In e flat -> In e flat') -> discovered flat collection v ->
  discovered flat' collection v.
Proof. intros Hsub (varData & Hin & H). exists varData. split; [apply Hsub, Hin | exact H]. Qed.

Lemma settled_later collection s s' entry :
  (exists new, variables (host s') = variables (host s) ++ new) ->
  (exists more, posted s' = posted s ++ more) ->
  settled collection s entry -> settled collection s' entry.
Proof.
  intros (new & Hv) (more & Hp) [H|(e & H)].
  - left. rewrite Hv. apply Exists_app_l, H.
  - right. exists e. rewrite Hp. apply in_or_app. left. exact H.
Qed.

Section DiscoveryLoop.

Context {env : Environment}.

(** One item of Pass 2: nothing but variables and messages changes, a
    variable is added at most, and it is made from the item; when the item
    returns, its path is settled. *)
Lemma createIfMissing_step collection total n varName varData s :
  exists new more,
    collections (host (snd (createIfMissing collection total n (varName, varData) s)))
    = collections (host s)
    /\ variables (host (snd (createIfMissing collection total n (varName, varData) s)))
       = variables (host s) ++ new
    /\ posted (snd (createIfMissing collection total n (varName, varData) s))
       = posted s ++ more
    /\ Forall (discovered [ (varName, varData) ] collection) new
    /\ (fst (createIfMissing collection total n (varName, varData) s) = Ok tt ->
        settled collection (snd (createIfMissing collection total n (varName, varData) s))
          (varName, varData)).
Proof.
  rewrite createIfMissing_cases.
  destruct (js_find (variableAt varName collection) (variables (host s))) as [[i v]|] eqn:Hfind.
  - exists [], (creatingProgress n total). cbn [snd fst posting host posted].
    rewrite app_nil_r. repeat split; [constructor|]. intros _. left.
    apply js_find_first in Hfind as (Hl & Hp & _).
    apply List.Exists_exists. exists v. split; [|exact Hp].
    apply list_elem_of_In. eapply list_elem_of_lookup_2, Hl.
  - destruct (tagType varData) as [type|e] eqn:Htag.
    + destruct (createVariable_error _ _ _ _) as [e|].
      * exists [], (creatingProgress n total ++ [ failedToCreate varName e ]).
        cbn [snd fst posting host posted]. rewrite app_nil_r.
        repeat split; [constructor|]. intros _. right. exists e.
        apply in_or_app. right. apply in_or_app. right. left. reflexivity.
      * eexists [ _ ], (creatingProgress n total ++ [ creatingVariable varName type ]).
        cbn [snd fst host posted Figma.createVariable collections variables].
        repeat split.
        -- constructor; [|constructor]. exists varData. cbn.
           repeat split; [left; reflexivity | exact Htag].
        -- intros _. left. apply Exists_app. right. left. cbn.
           unfold variableAt. cbn. now rewrite !String.eqb_refl.
    + exists [], (creatingProgress n total). cbn [snd fst posting host posted].
      rewrite app_nil_r. repeat split; [constructor|]. discriminate.
Qed.

(** The loop of Pass 2 over a flattened tree. *)
Lemma createLoop_step collection total flat :
  forall n s,
  exists new more,
    collections (host (snd (for_counted flat n (createIfMissing collection total) s)))
    = collections (host s)
    /\ variables (host (snd (for_counted flat n (createIfMissing collection total) s)))
       = variables (host s) ++ new
    /\ posted (snd (for_counted flat n (createIfMissing collection total) s))
       = posted s ++ more
    /\ Forall (discovered flat collection) new
    /\ (fst (for_counted flat n (createIfMissing collection total) s) = Ok tt ->
        Forall (settled collection
                  (snd (for_counted flat n (createIfMissing collection total) s))) flat).
Proof.
  induction flat as [|[varName varData] flat IH]; intros n s.
  - exists [], []. cbn. rewrite !app_nil_r. repeat split; constructor.
  - cbn [for_counted]. unfold bind.
    destruct (createIfMissing_step collection total n varName varData s)
      as (new1 & more1 & Hc1 & Hv1 & Hp1 & Hnew1 & Hdone1).
    destruct (createIfMissing collection total n (varName, varData) s) as [[[]|e] s1].
    + cbn [fst snd] in *.
      destruct (IH (S n) s1) as (new2 & more2 & Hc2 & Hv2 & Hp2 & Hnew2 & Hdone2).
      exists (new1 ++ new2), (more1 ++ more2).
      split; [congruence|]. split; [rewrite Hv2, Hv1, app_assoc; reflexivity|].
      split; [rewrite Hp2, Hp1, app_assoc; reflexivity|]. split.
      * apply Forall_app. split.
        -- eapply Forall_impl; [exact Hnew1|]. intros v. apply discovered_more.
           intros x [<-|[]]. left. reflexivity.
        -- eapply Forall_impl; [exact Hnew2|]. intros v. apply discovered_more.
           intros x Hx. right. exact Hx.
      * intros Hok. constructor; [|apply Hdone2, Hok].
        eapply settled_later; [eauto | eauto | apply Hdone1; reflexivity].
    + cbn [fst snd] in *. exists new1, more1.
      split; [exact Hc1|]. split; [exact Hv1|]. split; [exact Hp1|]. split; [|discriminate].
      eapply Forall_impl; [exact Hnew1|]. intros v. apply discovered_more.
      intros x [<-|[]]. left. reflexivity.
Qed.

(** Pass 2 on one collection that declares a first mode. *)
Lemma discoverVariables_first_mode collectionMap f c modes collection k tree rest s :
  collectionMap !! c = Some collection ->
  Js.ownProps modes = (k, tree) :: rest ->
  exists new,
    collections (host (snd (discoverVariables collectionMap f (c, modes) s)))
    = collections (host s)
    /\ variables (host (snd (discoverVariables collectionMap f (c, modes) s)))
       = variables (host s) ++ new
    /\ Forall (discovered (fst (flattenObject tree EmptyString false)) collection) new
    /\ forall g,
        fst (discoverVariables collectionMap f (c, modes) s) = Ok g ->
        Forall (settled collection (snd (discoverVariables collectionMap f (c, modes) s)))
          (fst (flattenObject tree EmptyString false)).
Proof.
  intros Hc Hprops.
  assert (Hn : nullish modes = false) by (destruct modes; try reflexivity; discriminate Hprops).
  unfold discoverVariables. rewrite Hc, (keys_returns modes Hn), Hprops, bind_lift_Ok.
  cbn [map fst]. rewrite (get_first modes k tree rest Hprops).
  destruct (nullish tree) eqn:Htree.
  - exists []. assert (E : flattenVariables tree EmptyString f = Throw TypeError_entries)
      by (destruct tree; try discriminate Htree; reflexivity).
    rewrite E. cbn. rewrite app_nil_r. repeat split; [constructor|discriminate].
  - rewrite (flattenVariables_returns _ _ _ Htree), bind_lift_Ok. cbn [fst snd].
    set (flat := fst (flattenObject tree EmptyString false)).
    destruct (createLoop_step collection (length flat) flat 0%nat s)
      as (new & more & Hcols & Hvars & _ & Hnew & Hdone).
    unfold bind. destruct (for_counted flat 0 (createIfMissing collection (length flat)) s)
      as [[[]|e] s1]; cbn [fst snd] in *.
    + exists new. repeat split; try assumption. intros g _. apply Hdone. reflexivity.
    + exists new. repeat split; try assumption. discriminate.
Qed.

(** X6.  Pass 2 on one collection reads the first declared mode only.
    Whatever the outcome, the collections are untouched, the variables of
    the host are kept as they are, and each variable added after them is
    made from a path of the flattened tree of the first declared mode: its
    name is the path, its type is that of the type tag of the record (STRING
    without a tag), it is in the collection, and it has no value yet.  When
    the pass returns, every such path is settled: the collection has a
    variable of that name, or the failure to create it was reported. *)
Theorem discovery_reads_first_mode collectionMap f c modes collection k tree rest s :
  collectionMap !! c = Some collection ->
  Js.ownProps modes = (k, tree) :: rest ->
  exists new,
    collections (host (snd (discoverVariables collectionMap f (c, modes) s)))
    = collections (host s)
    /\ variables (host (snd (discoverVariables collectionMap f (c, modes) s)))
       = variables (host s) ++ new
    /\ Forall (discovered (fst (flattenObject tree EmptyString false)) collection) new
    /\ forall g,
        fst (discoverVariables collectionMap f (c, modes) s) = Ok g ->
        Forall (settled collection (snd (discoverVariables collectionMap f (c, modes) s)))
          (fst (flattenObject tree EmptyString false)).
Proof. apply discoverVariables_first_mode. Qed.

End DiscoveryLoop.

Lemma discovery_example :
  exists new,
    collections
      (host (snd (discoverVariables (env := Sim.environment)
                    {[ "Brand" := (0%nat, brandCollection) ]} false
                    ("Brand", Js.get unevenModes "Brand") brandHost)))
    = collections (host brandHost)
    /\ variables
         (host (snd (discoverVariables (env := Sim.environment)
                       {[ "Brand" := (0%nat, brandCollection) ]} false
                       ("Brand", Js.get unevenModes "Brand") brandHost)))
       = variables (host brandHost) ++ new
    /\ Forall (discovered
                 (fst (flattenObject (Sim.obj [ ("Primary", token "color" (VStr "#FF0000")) ])
                         EmptyString false))
                 (0%nat, brandCollection)) new
    /\ forall g,
        fst (discoverVariables (env := Sim.environment)
               {[ "Brand" := (0%nat, brandCollection) ]} false
               ("Brand", Js.get unevenModes "Brand") brandHost) = Ok g ->
        Forall (settled (0%nat, brandCollection)
                  (snd (discoverVariables (env := Sim.environment)
                          {[ "Brand" := (0%nat, brandCollection) ]} false
                          ("Brand", Js.get unevenModes "Brand") brandHost)))
          (fst (flattenObject (Sim.obj [ ("Primary", token "color" (VStr "#FF0000")) ])
                  EmptyString false)).
Proof.
  refine (discovery_reads_first_mode (env := Sim.environment)
            {[ "Brand" := (0%nat, brandCollection) ]} false "Brand"
            (Js.get unevenModes "Brand") (0%nat, brandCollection) "Light"
            (Sim.obj [ ("Primary", token "color" (VStr "#FF0000")) ]) _ brandHost _ _).
  - reflexivity.
  - reflexivity.
Defined.

(* ================================================================== *)
(** * Properties: where new variables come from *)
(* ================================================================== *)

Lemma Forall2_update_at {A} (R : A -> A -> Prop) (i : nat) (f : A -> A) (l : list A) :
  (forall x, R x x) -> (forall x, R x (f x)) -> Forall2 R l (Figma.update_at i f l).
Proof.
  intros Hr Hf. unfold Figma.update_at. destruct (l !! i) as [x|] eqn:E; [|apply Forall2_same, Hr].
  revert i E. induction l as [|y l IH]; intros [|i] E; simpl in *; try discriminate.
  - injection E as ->. constructor; [apply Hf | apply Forall2_same, Hr].
  - constructor; [apply Hr | apply IH, E].
Qed.

Lemma Forall2_chain {A} (R : A -> A -> Prop) (l0 l1 l2 : list A) :
  (forall x y z, R x y -> R y z -> R x z) ->
  Forall2 R l0 l1 -> Forall2 R l1 l2 -> Forall2 R l0 l2.
Proof.
  intros Ht H1. revert l2. induction H1 as [|x y l l' Hxy Hl IH]; intros l2 H2.
  - inversion H2. constructor.
  - inversion H2 as [|? z ? k' Hyz Hrest]; subst. constructor; [eapply Ht; eauto|].
    apply IH, Hrest.
Qed.

Lemma grownList_lookup {A} (R : A -> A -> Prop) (l0 l : list A) i x :
  grownList R l0 l -> l0 !! i = Some x -> exists y, l !! i = Some y /\ R x y.
Proof.
  intros (kept & more & -> & H) Hx.
  destruct (Forall2_lookup_l _ _ _ _ _ H Hx) as (y & Hy & Hxy).
  exists y. split; [|exact Hxy]. apply lookup_app_l_Some, Hy.
Qed.

Lemma handlesOk_grown collectionMap h h' :
  handlesOk collectionMap h -> grownFrom h h' -> handlesOk collectionMap h'.
Proof.
  intros H [Hg _] c collection Hc. destruct (H c collection Hc) as (col & Hl & Hname & Hid).
  destruct (grownList_lookup _ _ _ _ _ Hg Hl) as (col' & Hl' & Hid' & Hname' & _).
  exists col'. split; [exact Hl'|]. split; congruence.
Qed.

Lemma handlesOk_insert collectionMap h c collection col :
  handlesOk collectionMap h ->
  collections h !! fst collection = Some col ->
  collection_name col = c ->
  collection_id col = collection_id (snd collection) ->
  handlesOk (<[c := collection]> collectionMap) h.
Proof.
  intros H Hl Hname Hid c' collection' Hc'.
  destruct (decide (c = c')) as [<-|Hne].
  - rewrite lookup_insert_eq in Hc'. injection Hc' as <-. exists col. auto.
  - rewrite lookup_insert_ne in Hc' by exact Hne. apply (H c' collection' Hc').
Qed.

Section Handles.

Context {env : Environment}.

(** The loop over the declared modes only grows the host. *)
Lemma registerModes_grown collection collectionName existing names :
  forall i modeMap s,
    grownFrom (host s)
      (host (snd (for_fold_counted names i modeMap
                    (registerMode collection collectionName existing) s))).
Proof.
  intros i modeMap s.
  destruct (for_fold_counted names i modeMap (registerMode collection collectionName existing) s)
    as [r s'] eqn:E. cbn [snd].
  apply (preserves_for_fold_counted (fun s' => grownFrom (host s) (host s')) names
           (registerMode collection collectionName existing)) with (n := i) (a := modeMap)
           (s := s) (r := r); [|apply grownFrom_refl|exact E].
  intros a n x _.
  apply (kept_registerMode (grownFrom (host s))); intros;
    (eapply grownFrom_trans; [eassumption|]);
    [apply grown_renameMode | apply grown_addMode].
Qed.

(** Pass 1 on one collection: the variables are untouched, and the
    handles stay good. *)
Lemma registerCollection_handles maps c modes s :
  handlesOk (fst maps) (host s) ->
  variables (host (snd (registerCollection maps (c, modes) s))) = variables (host s)
  /\ forall maps', fst (registerCollection maps (c, modes) s) = Ok maps' ->
       handlesOk (fst maps') (host (snd (registerCollection maps (c, modes) s))).
Proof.
  intros Hok. split.
  - destruct (registerCollection maps (c, modes) s) as [r s'] eqn:E. cbn [snd].
    apply (kept_registerCollection (fun h => variables h = variables (host s)))
      with (maps := maps) (entry := (c, modes)) (s := s) (r := r);
      [intros; assumption | intros; assumption | intros; assumption | reflexivity | exact E].
  - unfold registerCollection, bind, getLocalVariableCollections.
    fold (collectionCalled c).
    destruct (js_find (collectionCalled c) (collections (host s))) as [[i col]|] eqn:Hc.
    + unfold ret, lift. destruct (JsObject.keys modes) as [names|e];
        [|intros maps' H; discriminate H].
      cbn [snd].
      pose proof (registerModes_grown (i, col) c (collection_modes col) names 0%nat ∅ s) as Hg.
      destruct (for_fold_counted names 0 ∅ (registerMode (i, col) c (collection_modes col)) s)
        as [[modeMap|e] s1]; cbn [fst snd ret] in *; [|intros maps' H; discriminate H].
      intros maps' [= <-]. cbn [fst].
      apply (handlesOk_grown _ (host s)); [|exact Hg].
      apply js_find_first in Hc as (Hl & Hp & _).
      apply (handlesOk_insert _ _ c (i, col) col Hok Hl); [apply String.eqb_eq, Hp | reflexivity].
    + unfold createVariableCollection.
      destruct (createVariableCollection_error (host s) c) as [e|];
        [intros maps' H; discriminate H|].
      unfold hostCall, Figma.createVariableCollection, log, postMessage, ret, lift.
      cbn [host posted fst snd].
      destruct (JsObject.keys modes) as [names|e]; [|intros maps' H; discriminate H].
      set (new := {| collection_id := Figma.collection_id_of (allocated (host s));
                     collection_name := c;
                     collection_modes :=
                       [ {| modeId := Figma.mode_id_of (S (allocated (host s)));
                            mode_name := "Mode 1" |} ] |}).
      set (s0 := {| host := {| collections := collections (host s) ++ [new];
                               variables := variables (host s);
                               allocated := S (S (allocated (host s))) |};
                    posted := posted s ++ [MLog INFO ("Creating collection: " ++ c)] |}).
      pose proof (registerModes_grown (length (collections (host s)), new) c
                    (collection_modes new) names 0%nat ∅ s0) as Hg.
      destruct (for_fold_counted names 0 ∅
                  (registerMode (length (collections (host s)), new) c (collection_modes new)) s0)
        as [[modeMap|e] s1]; cbn [fst snd ret] in *; [|intros maps' H; discriminate H].
      intros maps' [= <-]. cbn [fst].
      apply (handlesOk_grown _ (host s0)); [|exact Hg].
      apply (handlesOk_insert _ _ c (length (collections (host s)), new) new).
      * apply (handlesOk_grown _ (host s)); [exact Hok|].
        apply (grown_createVariableCollection c (host s)).
      * cbn. rewrite lookup_app_r by lia. rewrite Nat.sub_diag. reflexivity.
      * reflexivity.
      * reflexivity.
Qed.

Lemma pass1_handles entries :
  forall maps s,
    handlesOk (fst maps) (host s) ->
    variables (host (snd (for_fold entries maps registerCollection s))) = variables (host s)
    /\ forall maps', fst (for_fold entries maps registerCollection s) = Ok maps' ->
         handlesOk (fst maps') (host (snd (for_fold entries maps registerCollection s))).
Proof.
  induction entries as [|[c modes] entries IH]; intros maps s Hok.
  - cbn. split; [reflexivity|]. intros maps' [= <-]. exact Hok.
  - cbn [for_fold]. unfold bind.
    destruct (registerCollection_handles maps c modes s Hok) as [Hv Hh].
    destruct (registerCollection maps (c, modes) s) as [[maps1|e] s1]; cbn [fst snd] in *.
    + destruct (IH maps1 s1 (Hh maps1 eq_refl)) as [Hv2 Hh2].
      split; [congruence | exact Hh2].
    + split; [exact Hv|]. intros maps' H. discriminate H.
Qed.

End Handles.

Section Origins.

Context {env : Environment}.

(** Pass 2 on any collection of the document. *)
Lemma discoverVariables_step collectionMap f c modes s :
  exists new,
    collections (host (snd (discoverVariables collectionMap f (c, modes) s)))
    = collections (host s)
    /\ variables (host (snd (discoverVariables collectionMap f (c, modes) s)))
       = variables (host s) ++ new
    /\ Forall (fun v => exists collection k tree rest,
                 collectionMap !! c = Some collection
                 /\ Js.ownProps modes = (k, tree) :: rest
                 /\ discovered (fst (flattenObject tree EmptyString false)) collection v) new.
Proof.
  destruct (collectionMap !! c) as [collection|] eqn:Hc.
  - destruct (Js.ownProps modes) as [|[k tree] rest] eqn:Hprops.
    + exists []. unfold discoverVariables. rewrite Hc.
      destruct (nullish modes) eqn:Hn.
      * assert (E : JsObject.keys modes = Throw TypeError_entries)
          by (destruct modes; try discriminate Hn; reflexivity).
        rewrite E. cbn. rewrite app_nil_r. repeat split. constructor.
      * rewrite (keys_returns modes Hn), Hprops, bind_lift_Ok. cbn [map].
        unfold Js.get. rewrite Hprops. cbn. rewrite app_nil_r. repeat split. constructor.
    + destruct (discoverVariables_first_mode collectionMap f c modes collection k tree rest s
                  Hc Hprops) as (new & Hcols & Hvars & Hnew & _).
      exists new. split; [exact Hcols|]. split; [exact Hvars|].
      eapply Forall_impl; [exact Hnew|]. intros v Hv. exists collection, k, tree, rest. auto.
  - exists []. unfold discoverVariables. rewrite Hc. cbn. rewrite app_nil_r.
    repeat split. constructor.
Qed.

Lemma pass2_origins collectionMap entries :
  forall f s,
  exists new,
    collections (host (snd (for_fold entries f (discoverVariables collectionMap) s)))
    = collections (host s)
    /\ variables (host (snd (for_fold entries f (discoverVariables collectionMap) s)))
       = variables (host s) ++ new
    /\ Forall (fun v => exists c modes collection k tree rest,
                 In (c, modes) entries
                 /\ collectionMap !! c = Some collection
                 /\ Js.ownProps modes = (k, tree) :: rest
                 /\ discovered (fst (flattenObject tree EmptyString false)) collection v) new.
Proof.
  induction entries as [|[c modes] entries IH]; intros f s.
  - exists []. cbn. rewrite app_nil_r. repeat split. constructor.
  - cbn [for_fold]. unfold bind.
    destruct (discoverVariables_step collectionMap f c modes s) as (new1 & Hc1 & Hv1 & Hn1).
    destruct (discoverVariables collectionMap f (c, modes) s) as [[g|e] s1]; cbn [snd] in *.
    + destruct (IH g s1) as (new2 & Hc2 & Hv2 & Hn2).
      exists (new1 ++ new2). split; [congruence|].
      split; [rewrite Hv2, Hv1, app_assoc; reflexivity|].
      apply Forall_app. split.
      * eapply Forall_impl; [exact Hn1|].
        intros v (collection & k & tree & rest & H1 & H2 & H3).
        exists c, modes, collection, k, tree, rest. split; [left; reflexivity | auto].
      * eapply Forall_impl; [exact Hn2|].
        intros v (c' & modes' & collection & k & tree & rest & H0 & H1 & H2 & H3).
        exists c', modes', collection, k, tree, rest. split; [right; exact H0 | auto].
    + exists new1. split; [exact Hc1|]. split; [exact Hv1|].
      eapply Forall_impl; [exact Hn1|].
      intros v (collection & k & tree & rest & H1 & H2 & H3).
      exists c, modes, collection, k, tree, rest. split; [left; reflexivity | auto].
Qed.

(** Pass 3 keeps the collections, and the variables but for their
    values. *)
Lemma pass3_keeps collectionMap modeMaps entries f s :
  collections (host (snd (for_fold entries f (setCollection collectionMap modeMaps) s)))
  = collections (host s)
  /\ Forall2 keptVariable (variables (host s))
       (variables (host (snd (for_fold entries f (setCollection collectionMap modeMaps) s)))).
Proof.
  destruct (for_fold entries f (setCollection collectionMap modeMaps) s) as [r s'] eqn:E.
  cbn [snd].
  apply (preserves_for_fold
           (fun s' => collections (host s') = collections (host s)
                      /\ Forall2 keptVariable (variables (host s)) (variables (host s')))
           entries (setCollection collectionMap modeMaps)) with (a := f) (s := s) (r := r);
    [|split; [reflexivity | apply Forall2_same, keptVariable_refl]|exact E].
  intros a x _.
  apply (kept_setCollection
           (fun h => collections h = collections (host s)
                     /\ Forall2 keptVariable (variables (host s)) (variables h))).
  intros variable id y h [Hc Hv]. split; [exact Hc|].
  eapply Forall2_chain; [apply keptVariable_trans | exact Hv |].
  cbn [Figma.setValueForMode variables].
  apply Forall2_update_at; [apply keptVariable_refl|].
  intros v. repeat split. cbn [valuesByMode]. intros id' H.
  destruct (decide (id = id')) as [->|Hne].
  - rewrite lookup_insert_eq. eauto.
  - rewrite lookup_insert_ne by exact Hne. exact H.
Qed.

Lemma fromFirstMode_kept data h v v' :
  keptVariable v v' -> fromFirstMode data h v -> fromFirstMode data h v'.
Proof.
  intros (_ & Hname & Hcol & Htype & _)
    (c & modes & k & tree & rest & varData & col & H1 & H2 & H3 & H4 & H5 & H6 & H7).
  exists c, modes, k, tree, rest, varData, col.
  rewrite Hname, Htype, Hcol. auto 10.
Qed.

(** The three passes. *)
Lemma importPasses_origins data s r s' :
  importPasses data s = (r, s') ->
  exists kept new,
    variables (host s') = kept ++ new
    /\ Forall2 keptVariable (variables (host s)) kept
    /\ Forall (fromFirstMode data (host s')) new.
Proof.
  intros E. unfold importPasses in E.
  destruct (nullish data) eqn:Hn.
  { exists (variables (host s)), [].
    assert (E' : JsObject.entries data = Throw TypeError_entries)
      by (destruct data; try discriminate Hn; reflexivity).
    rewrite E' in E. cbn in E. injection E as <- <-. rewrite app_nil_r.
    split; [reflexivity|]. split; [apply Forall2_same, keptVariable_refl | constructor]. }
  rewrite (entries_returns data Hn), bind_lift_Ok in E. unfold bind at 1 in E.
  assert (Hok0 : handlesOk (fst ((∅, ∅) : gmap string (Ref VariableCollection)
                                          * gmap string (gmap string string))) (host s)).
  { intros c collection H. cbn [fst] in H. rewrite lookup_empty in H. discriminate H. }
  destruct (pass1_handles (Js.ownProps data) _ s Hok0) as [Hv1 Hh1].
  destruct (for_fold (Js.ownProps data) (∅, ∅) registerCollection s) as [[maps|e] s1];
    cbn [fst snd] in *.
  2:{ injection E as <- <-. exists (variables (host s)), []. rewrite app_nil_r, Hv1.
      split; [reflexivity|]. split; [apply Forall2_same, keptVariable_refl | constructor]. }
  specialize (Hh1 maps eq_refl).
  rewrite bind_lift_Ok in E. unfold bind at 1 in E.
  destruct (pass2_origins (fst maps) (Js.ownProps data) false s1) as (new2 & Hc2 & Hv2 & Hn2).
  assert (Hfrom : Forall (fromFirstMode data (host s1)) new2).
  { eapply Forall_impl; [exact Hn2|].
    intros v (c & modes & collection & k & tree & rest & H0 & H1 & H2 & varData & H3 & H4 & H5 & _).
    destruct (Hh1 c collection H1) as (col & Hl & Hname & Hid).
    exists c, modes, k, tree, rest, varData, col.
    repeat split; try assumption; [|congruence].
    apply list_elem_of_In. eapply list_elem_of_lookup_2, Hl. }
  destruct (for_fold (Js.ownProps data) false (discoverVariables (fst maps)) s1)
    as [[g|e] s2]; cbn [snd] in *.
  - rewrite bind_lift_Ok in E.
    destruct (pass3_keeps (fst maps) (snd maps) (Js.ownProps data) g s2) as [Hc3 Hv3].
    rewrite E in Hc3, Hv3. cbn [snd] in *.
    rewrite Hv2, Hv1 in Hv3.
    apply Forall2_app_inv_l in Hv3 as (kept & new & Hkept & Hnew & Hsplit).
    exists kept, new. split; [exact Hsplit|]. split; [exact Hkept|].
    clear -Hnew Hfrom Hc3 Hc2.
    induction Hnew as [|v v' l l' Hvv _ IH]; [constructor|].
    inversion Hfrom as [|? ? Hv Hrest]; subst. constructor; [|apply IH, Hrest].
    apply (fromFirstMode_kept _ _ v v' Hvv).
    destruct Hv as (c & modes & k & tree & rest & varData & col & H1 & H2 & H3 & H4 & H5 & H6).
    exists c, modes, k, tree, rest, varData, col. rewrite Hc3, Hc2. auto 10.
  - injection E as <- <-. exists (variables (host s)), new2. rewrite Hv2, Hv1.
    split; [reflexivity|]. split; [apply Forall2_same, keptVariable_refl|].
    eapply Forall_impl; [exact Hfrom|]. intros v.
    intros (c & modes & k & tree & rest & varData & col & H1 & H2 & H3 & H4 & H5 & H6).
    exists c, modes, k, tree, rest, varData, col. rewrite Hc2. auto 10.
Qed.

End Origins.

(** X7.  Every variable the import adds to the host comes from the first
    declared mode of a collection of the document: its name is a path of the
    flattened tree of that mode, its type is that of the type tag of the
    record there (STRING without a tag), and it belongs to the host
    collection of that name.  So a path that only a later mode has gives no
    variable.  The variables the host had are kept, before the new ones. *)
Theorem new_variables_come_from_first_modes {env : Environment} data s :
  exists kept new,
    variables (host (snd (handleImport data s))) = kept ++ new
    /\ Forall2 keptVariable (variables (host s)) kept
    /\ Forall (fromFirstMode data (host (snd (handleImport data s)))) new.
Proof.
  rewrite handleImport_host.
  destruct (importPasses data (started s)) as [r s'] eqn:E.
  apply (importPasses_origins data (started s) r s' E).
Qed.

(* ================================================================== *)
(** * Properties: the migration warning of a legacy document *)
(* ================================================================== *)







Lemma flattenVariables_true t prefix m b :
  flattenVariables t prefix true = Ok (m, b) -> b = true.
Proof.
  rewrite flattenVariables_flag.
  destruct (flattenVariables t prefix false) as [[m' b']|e]; [|discriminate].
  intros [= _ <-]. reflexivity.
Qed.

Section LegacyWarning.

Context {env : Environment}.











Lemma discoverVariables_flag_stays collectionMap e s g s' :
  discoverVariables collectionMap true e s = (Ok g, s') -> g = true.
Proof.
  destruct e as [collectionName modes]. unfold discoverVariables.
  destruct (collectionMap !! collectionName) as [collection|]; [|unfold ret; congruence].
  unfold bind, lift. destruct (JsObject.keys modes) as [names|e]; [|discriminate].
  match goal with
  | |- context [flattenVariables ?t EmptyString true] =>
      destruct (flattenVariables t EmptyString true) as [[m b]|e'] eqn:E; [|discriminate]
  end.
  cbn [fst snd].
  destruct (for_counted m 0 (createIfMissing collection (length m)) s) as [[[]|e'] s1];
    [|discriminate].
  unfold ret. intros [= <- _]. exact (flattenVariables_true _ _ _ _ E).
Qed.




End LegacyWarning.




(* ================================================================== *)
(** * Properties: what the traversal collects *)
(* ================================================================== *)

Lemma In_set {A} k (x : A) (m : JsMap.t A) e :
  In e (JsMap.set k x m) -> e = (k, x) \/ In e m.
Proof.
  induction m as [|[k1 x1] m IH]; simpl.
  - intros [<-|[]]. left. reflexivity.
  - destruct (String.eqb k1 k).
    + intros [<-|H]; [left; reflexivity | right; right; exact H].
    + intros [<-|H]; [right; left; reflexivity|].
      destruct (IH H) as [->|H']; [left; reflexivity | right; right; exact H'].
Qed.

Lemma In_merge {A} (dst src : JsMap.t A) e :
  In e (JsMap.merge dst src) -> In e dst \/ In e src.
Proof.
  unfold JsMap.merge. revert dst. induction src as [|[k x] src IH]; intros dst; simpl.
  - intros H. left. exact H.
  - intros H. destruct (IH _ H) as [H'|H']; [|right; right; exact H'].
    destruct (In_set _ _ _ _ H') as [->|H'']; [right; left; reflexivity | left; exact H''].
Qed.

Lemma get_set {A} k k' (x : A) (m : JsMap.t A) :
  JsMap.get k (JsMap.set k' x m) = if String.eqb k' k then Some x else JsMap.get k m.
Proof.
  induction m as [|[k1 x1] m IH]; simpl; [reflexivity|].
  destruct (String.eqb_spec k1 k') as [->|Hne]; simpl.
  - destruct (String.eqb k' k); reflexivity.
  - rewrite IH. destruct (String.eqb_spec k1 k) as [->|Hk]; [|reflexivity].
    destruct (String.eqb_spec k' k) as [->|_]; [congruence | reflexivity].
Qed.

Lemma get_In {A} k (x : A) (m : JsMap.t A) : JsMap.get k m = Some x -> In (k, x) m.
Proof.
  induction m as [|[k1 x1] m IH]; simpl; [discriminate|].
  destruct (String.eqb_spec k1 k) as [->|_].
  - intros [= ->]. left. reflexivity.
  - intros H. right. apply IH, H.
Qed.

Lemma get_set_some {A} k k' (x : A) (m : JsMap.t A) :
  k = k' \/ is_Some (JsMap.get k m) -> is_Some (JsMap.get k (JsMap.set k' x m)).
Proof.
  rewrite get_set. destruct (String.eqb_spec k' k) as [->|Hne]; [eauto|].
  intros [->|H]; [congruence | exact H].
Qed.

Lemma get_merge_some {A} k (dst src : JsMap.t A) :
  is_Some (JsMap.get k dst) \/ is_Some (JsMap.get k src) ->
  is_Some (JsMap.get k (JsMap.merge dst src)).
Proof.
  unfold JsMap.merge. revert dst. induction src as [|[k1 x1] src IH]; intros dst; simpl.
  - intros [H|[x H]]; [exact H | discriminate H].
  - intros H. apply IH. destruct (String.eqb_spec k1 k) as [->|Hne].
    + left. apply get_set_some. left. reflexivity.
    + destruct H as [H|H]; [left; apply get_set_some; right; exact H | right; exact H].
Qed.

Lemma set_keys {A} k (x : A) (m : JsMap.t A) k' :
  In k' (map fst (JsMap.set k x m)) -> k' = k \/ In k' (map fst m).
Proof.
  intros H. apply in_map_iff in H as ([k1 x1] & <- & H).
  destruct (In_set _ _ _ _ H) as [[= -> ->]|H']; [left; reflexivity|].
  right. apply in_map_iff. exists (k1, x1). split; [reflexivity | exact H'].
Qed.

Lemma set_NoDup {A} k (x : A) (m : JsMap.t A) :
  List.NoDup (map fst m) -> List.NoDup (map fst (JsMap.set k x m)).
Proof.
  induction m as [|[k1 x1] m IH]; simpl; intros H.
  - constructor; [intros [] | constructor].
  - inversion H as [|? ? Hnot Hrest]; subst.
    destruct (String.eqb_spec k1 k) as [->|Hne]; simpl.
    + constructor; assumption.
    + constructor; [|apply IH, Hrest].
      intros Hin. destruct (set_keys _ _ _ _ Hin) as [->|Hin']; [congruence | exact (Hnot Hin')].
Qed.

Lemma merge_NoDup {A} (dst src : JsMap.t A) :
  List.NoDup (map fst dst) -> List.NoDup (map fst (JsMap.merge dst src)).
Proof.
  unfold JsMap.merge. revert dst. induction src as [|[k x] src IH]; intros dst H; simpl;
    [exact H|]. apply IH, set_NoDup, H.
Qed.

Lemma isVariable_object leaf : isVariable leaf = true -> exists kind props, leaf = VObj kind props.
Proof. destruct leaf; try discriminate. eauto. Qed.

Lemma reaches_object t prefix path leaf :
  reaches t prefix path leaf -> exists kind props, t = VObj kind props.
Proof. intros []; eauto. Qed.

(** One iteration of the loop, case by case. *)
Lemma flattenEntry_skipped prefix key x st :
  skippedKey key = true -> flattenEntry prefix (key, x) st = st.
Proof. intros H. unfold flattenEntry. destruct st. rewrite H. reflexivity. Qed.

Lemma flattenEntry_token prefix key leaf m f :
  skippedKey key = false -> isVariable leaf = true ->
  flattenEntry prefix (key, leaf) (m, f)
  = (JsMap.set (newKey prefix key) (normalized leaf) m, if isLegacy leaf then true else f).
Proof.
  intros Hk Hv. destruct (isVariable_object leaf Hv) as (kind & props & ->).
  unfold flattenEntry. rewrite Hk, Hv. reflexivity.
Qed.

Section Traversal.

Variables (kind : ObjKind) (props : list (string * val)) (prefix : string).

Hypothesis children :
  Forall (fun kv =>
            forall prefix' f path r,
              In (path, r) (fst (flattenObject (snd kv) prefix' f)) ->
              exists leaf, reaches (snd kv) prefix' path leaf /\ r = normalized leaf) props.

Lemma fold_sound l :
  (forall e, In e l -> In e props) ->
  forall m f,
    (forall path r, In (path, r) m ->
       exists leaf, reaches (VObj kind props) prefix path leaf /\ r = normalized leaf) ->
    forall path r,
      In (path, r) (fst (fold_left (fun st e => flattenEntry prefix e st) l (m, f))) ->
      exists leaf, reaches (VObj kind props) prefix path leaf /\ r = normalized leaf.
Proof.
  induction l as [|[key x] l IH]; intros Hsub m f Hm; [exact Hm|].
  cbn [fold_left].
  assert (Hin : In (key, x) props) by (apply Hsub; left; reflexivity).
  assert (Hsub' : forall e, In e l -> In e props) by (intros e He; apply Hsub; right; exact He).
  destruct (skippedKey key) eqn:Hk.
  { rewrite flattenEntry_skipped by exact Hk. apply IH; assumption. }
  destruct (isVariable x) eqn:Hv.
  { rewrite flattenEntry_token by assumption. apply IH; [exact Hsub'|].
    intros path r H. destruct (In_set _ _ _ _ H) as [[= -> ->]|H']; [|apply Hm, H'].
    exists x. split; [|reflexivity]. apply reaches_leaf; assumption. }
  destruct x as [ | | b | n | s | kind' props'];
    try (unfold flattenEntry; rewrite Hk; apply IH; assumption).
  rewrite flattenEntry_group by assumption. apply IH; [exact Hsub'|].
  intros path r H. destruct (In_merge _ _ _ H) as [H'|H']; [apply Hm, H'|].
  rewrite List.Forall_forall in children.
  destruct (children _ Hin _ _ _ _ H') as (leaf & Hreach & ->).
  exists leaf. split; [|reflexivity]. eapply reaches_group; eassumption.
Qed.

End Traversal.

Lemma flattenObject_sound t :
  forall prefix f path r,
    In (path, r) (fst (flattenObject t prefix f)) ->
    exists leaf, reaches t prefix path leaf /\ r = normalized leaf.
Proof.
  induction t as [ | | b | n | s | kind props IH] using value_nested_ind;
    intros prefix f path r H; try (destruct H).
  rewrite flattenObject_loop in H.
  apply (fold_sound kind props prefix IH props (fun e He => He) [] f); [|exact H].
  intros p x [].
Qed.

Lemma fold_keeps prefix l :
  forall m f path,
    is_Some (JsMap.get path m) ->
    is_Some (JsMap.get path (fst (fold_left (fun st e => flattenEntry prefix e st) l (m, f)))).
Proof.
  induction l as [|[key x] l IH]; intros m f path H; [exact H|].
  cbn [fold_left]. destruct (flattenEntry prefix (key, x) (m, f)) as [m' f'] eqn:E.
  apply IH. unfold flattenEntry in E. destruct (skippedKey key); [injection E as <- <-; exact H|].
  destruct x; try (injection E as <- <-; exact H).
  destruct (isVariable _).
  - injection E as <- <-. apply get_set_some. right. exact H.
  - destruct (flattenObject _ _ f). injection E as <- <-. apply get_merge_some. left. exact H.
Qed.

Lemma flattenObject_reaches t prefix path leaf :
  reaches t prefix path leaf ->
  forall f, is_Some (JsMap.get path (fst (flattenObject t prefix f))).
Proof.
  induction 1 as [kind props prefix key leaf Hin Hk Hv
                 | kind props prefix key group path leaf Hin Hk Hv Hreach IH]; intros f.
  - rewrite flattenObject_loop. apply in_split in Hin as (pre & post & ->).
    rewrite fold_left_app. cbn [fold_left].
    destruct (fold_left (fun st e => flattenEntry prefix e st) pre ([], f)) as [m b].
    rewrite flattenEntry_token by assumption. apply fold_keeps, get_set_some. left. reflexivity.
  - rewrite flattenObject_loop. apply in_split in Hin as (pre & post & ->).
    rewrite fold_left_app. cbn [fold_left].
    destruct (fold_left (fun st e => flattenEntry prefix e st) pre ([], f)) as [m b].
    destruct (reaches_object _ _ _ _ Hreach) as (kind' & props' & ->).
    rewrite flattenEntry_group by assumption. apply fold_keeps, get_merge_some. right. apply IH.
Qed.

Lemma flattenObject_NoDup t :
  forall prefix f, List.NoDup (map fst (fst (flattenObject t prefix f))).
Proof.
  destruct t as [ | | b | n | s | kind props]; intros prefix f; try constructor.
  rewrite flattenObject_loop.
  assert (H : forall l m g, List.NoDup (map fst m) ->
              List.NoDup (map fst (fst (fold_left (fun st e => flattenEntry prefix e st) l (m, g))))).
  { induction l as [|[key x] l IH]; intros m g Hm; [exact Hm|].
    cbn [fold_left]. destruct (flattenEntry prefix (key, x) (m, g)) as [m' g'] eqn:E.
    apply IH. unfold flattenEntry in E. destruct (skippedKey key); [injection E as <- <-; exact Hm|].
    destruct x; try (injection E as <- <-; exact Hm).
    destruct (isVariable _).
    - injection E as <- <-. apply set_NoDup, Hm.
    - destruct (flattenObject _ _ g). injection E as <- <-. apply merge_NoDup, Hm. }
  apply H. constructor.
Qed.

Lemma normalized_targets leaf :
  Js.get (normalized leaf) "targetCollection" = VUndefined
  /\ Js.get (normalized leaf) "targetVariable" = VUndefined.
Proof. split; reflexivity. Qed.

(** X8.  What [flattenVariables] collects.  Every entry of the result is
    the normalised record of a token the traversal reaches, at the path of
    that token; every path at which the traversal reaches a token has an
    entry (that of the token reached last at that path); and no path has
    two entries. *)
Theorem flatten_collects_reached_tokens t prefix f :
  (forall path r,
      In (path, r) (fst (flattenObject t prefix f)) ->
      exists leaf, reaches t prefix path leaf /\ r = normalized leaf)
  /\ (forall path leaf,
      reaches t prefix path leaf ->
      exists leaf', reaches t prefix path leaf'
                    /\ JsMap.get path (fst (flattenObject t prefix f))
                       = Some (normalized leaf'))
  /\ List.NoDup (map fst (fst (flattenObject t prefix f))).
Proof.
  split; [|split].
  - apply flattenObject_sound.
  - intros path leaf H. destruct (flattenObject_reaches t prefix path leaf H f) as [r Hr].
    destruct (flattenObject_sound t prefix f path r (get_In _ _ _ Hr)) as (leaf' & Hreach & ->).
    exists leaf'. split; [exact Hreach | exact Hr].
  - apply flattenObject_NoDup.
Qed.

Lemma ends_with_char c s :
  (1 <= String.length s)%nat ->
  String.substring (String.length s - 1) 1 s = String c EmptyString ->
  exists x, s = (x ++ String c EmptyString)%string.
Proof.
  induction s as [|a t IH]; intros Hlen H; [simpl in Hlen; lia|].
  destruct t as [|b t'].
  - simpl in H. injection H as ->. exists EmptyString. reflexivity.
  - cbn [String.length] in H.
    replace (S (S (String.length t')) - 1)%nat with (S (String.length t')) in H by lia.
    cbn [String.substring] in H.
    destruct IH as [x Hx].
    + cbn [String.length]. lia.
    + cbn [String.length]. replace (S (String.length t') - 1)%nat with (String.length t') by lia.
      exact H.
    + exists (String a x). rewrite Hx. reflexivity.
Qed.

(** The test of the string form picks the strings [{content}]. *)
Lemma braced_form s :
  JsString.startsWith s "{" && JsString.endsWith s "}" = true ->
  exists content, s = braced content.
Proof.
  intros H. apply andb_prop in H as [H1 H2].
  unfold JsString.startsWith in H1. apply prefix_app in H1 as [rest ->].
  unfold JsString.endsWith in H2. cbv zeta in H2. apply andb_prop in H2 as [Hle Heq].
  apply Nat.leb_le in Hle. apply String.eqb_eq in Heq.
  change (String.length "}") with 1%nat in *.
  destruct (ends_with_char _ _ Hle Heq) as [x Hx].
  change ("{" ++ rest)%string with (String "{" rest) in *.
  destruct x as [|a x]; [discriminate Hx|].
  change (String a x ++ "}")%string with (String a (x ++ "}")) in Hx.
  injection Hx as Ha Hr. subst. exists x. reflexivity.
Qed.

(** C3.  The records Pass 3 gets never carry explicit alias targets.  The
    normaliser keeps the type, the value and the description of a token
    only, so for every record of a flattened tree the fields
    [targetCollection] and [targetVariable] are undefined, whatever the
    token had, and whether the record is an alias is decided by its value
    alone: a string [{content}] is an alias exactly when [content] has two
    segments or more, with segment 0 as the collection and the others joined
    by "/" as the variable; a string of another form, or a value that is not
    a string, is not an alias.  So the token [Accent] of the document
    [explicitTargets], whose explicit fields name [Brand] and [Primary], is
    given its colour and not the alias, where the same target written
    [{Brand.Primary}] gives the alias; and an alias as the first revision
    exports it, which has no value, is not even seen as a token: the second
    revision collects nothing from it, where the first collects it and reads
    its target. *)
Theorem explicit_alias_targets_are_dropped :
  (forall t prefix f path r,
      In (path, r) (fst (flattenObject t prefix f)) ->
      Js.get r "targetCollection" = VUndefined
      /\ Js.get r "targetVariable" = VUndefined
      /\ (forall content,
            Js.get r "$value" = VStr (braced content) ->
            (2 <= length (JsString.split "."%char content))%nat ->
            aliasTarget r = Some (bracedTarget content))
      /\ (forall content,
            Js.get r "$value" = VStr (braced content) ->
            (length (JsString.split "."%char content) < 2)%nat ->
            aliasTarget r = None)
      /\ (forall s,
            Js.get r "$value" = VStr s ->
            (forall content, s <> braced content) ->
            aliasTarget r = None)
      /\ (Js.typeof_string (Js.get r "$value") = false -> aliasTarget r = None))
  /\ map (fun v => (variable_name v, map_to_list (valuesByMode v)))
       (variables (host (snd (handleImport (env := Sim.environment) explicitTargets
                                Sim.start))))
     = [ ("Primary", [ ("ModeId:1", Sim.obj [ ("r", VNum (NFinite 1)); ("g", VNum (NFinite 0));
                                              ("b", VNum (NFinite 0)) ]) ]);
         ("Accent", [ ("ModeId:1", Sim.obj [ ("r", VNum (NFinite 0)); ("g", VNum (NFinite 1));
                                             ("b", VNum (NFinite 0)) ]) ]) ]
  /\ map (fun v => (variable_name v, variable_id v, map_to_list (valuesByMode v)))
       (variables (host (snd (handleImport (env := Sim.environment) bracedReference
                                Sim.start))))
     = [ ("Primary", "VariableID:2",
          [ ("ModeId:1", Sim.obj [ ("r", VNum (NFinite 1)); ("g", VNum (NFinite 0));
                                   ("b", VNum (NFinite 0)) ]) ]);
         ("Accent", "VariableID:3",
          [ ("ModeId:1", Sim.obj [ ("type", VStr "VARIABLE_ALIAS");
                                   ("id", VStr "VariableID:2") ]) ]) ]
  /\ fst (flattenObject (Sim.obj [ ("Accent", exportedAlias) ]) EmptyString false) = []
  /\ Rev1.flattenObject (Sim.obj [ ("Accent", exportedAlias) ]) EmptyString
     = [ ("Accent", exportedAlias) ]
  /\ Rev1.aliasTarget exportedAlias = Some (VStr "Brand", VStr "Primary").
Proof.
  split; [|repeat split; vm_compute; reflexivity].
  intros t prefix f path r H.
  destruct (flattenObject_sound t prefix f path r H) as (leaf & _ & ->).
  split; [reflexivity|]. split; [reflexivity|].
  destruct (aliasTarget_rule (normalized leaf)) as (_ & Hrule & _).
  destruct (Hrule eq_refl) as (Hyes & Hno & Hother).
  split; [exact Hyes|]. split; [exact Hno|]. split; [|exact Hother].
  intros s Hs Hform. unfold aliasTarget.
  change (Js.get (normalized leaf) "targetCollection") with VUndefined.
  cbn [Js.truthy andb]. rewrite Hs.
  destruct (JsString.startsWith s "{" && JsString.endsWith s "}") eqn:E; [|reflexivity].
  destruct (braced_form s E) as [content ->]. exfalso. exact (Hform content eq_refl).
Qed.

(** The token [Accent] of [explicitTargets], as Pass 3 gets it: no target
    field, and no alias. *)
Lemma explicit_alias_targets_example :
  Js.get (normalized (Js.get (Js.get (Js.get explicitTargets "Brand") "Light") "Accent"))
    "targetCollection" = VUndefined
  /\ Js.get (normalized (Js.get (Js.get (Js.get explicitTargets "Brand") "Light") "Accent"))
       "targetVariable" = VUndefined
  /\ aliasTarget
       (normalized (Js.get (Js.get (Js.get explicitTargets "Brand") "Light") "Accent"))
     = None.
Proof.
  destruct (proj1 explicit_alias_targets_are_dropped
              (Js.get (Js.get explicitTargets "Brand") "Light") EmptyString false "Accent"
              (normalized (Js.get (Js.get (Js.get explicitTargets "Brand") "Light") "Accent")))
    as (H1 & H2 & _ & _ & H3 & _).
  { right. left. reflexivity. }
  split; [exact H1|]. split; [exact H2|].
  apply (H3 "#00FF00"); [reflexivity|]. intros content Hc. discriminate Hc.
Defined.

Lemma flatten_example :
  exists leaf',
    reaches mixedTree EmptyString "Color/Muted" leaf'
    /\ JsMap.get "Color/Muted" (fst (flattenObject mixedTree EmptyString false))
       = Some (normalized leaf').
Proof.
  apply (proj1 (proj2 (flatten_collects_reached_tokens mixedTree EmptyString false))
           "Color/Muted" (legacyLeaf (VStr "color") (VStr "#888888") (VStr "grey"))).
  apply (reaches_group PlainObject _ EmptyString "Color"
           (Sim.obj [ ("Primary", token "color" (VStr "#FF0000"));
                      ("Muted", legacyLeaf (VStr "color") (VStr "#888888") (VStr "grey")) ])
           "Color/Muted");
    [right; left; reflexivity | reflexivity | reflexivity |].
  apply (reaches_leaf PlainObject _ "Color" "Muted"); [right; left; reflexivity | reflexivity..].
Defined.

Lemma fold_flag_sound kind props prefix :
  Forall (fun kv =>
            forall prefix',
              snd (flattenObject (snd kv) prefix' false) = true ->
              exists path leaf, reaches (snd kv) prefix' path leaf /\ isLegacy leaf = true)
    props ->
  forall l,
    (forall e, In e l -> In e props) ->
    forall m f,
      snd (fold_left (fun st e => flattenEntry prefix e st) l (m, f)) = true ->
      f = true
      \/ exists path leaf, reaches (VObj kind props) prefix path leaf /\ isLegacy leaf = true.
Proof.
  intros children. induction l as [|[key x] l IH]; intros Hsub m f H; [left; exact H|].
  cbn [fold_left] in H.
  assert (Hin : In (key, x) props) by (apply Hsub; left; reflexivity).
  assert (Hsub' : forall e, In e l -> In e props) by (intros e He; apply Hsub; right; exact He).
  destruct (skippedKey key) eqn:Hk.
  { rewrite flattenEntry_skipped in H by exact Hk. apply (IH Hsub' m f H). }
  destruct (isVariable x) eqn:Hv.
  { rewrite flattenEntry_token in H by assumption.
    destruct (IH Hsub' _ _ H) as [Hf|Hr]; [|right; exact Hr].
    destruct (isLegacy x) eqn:Hl; [|left; exact Hf].
    right. exists (newKey prefix key), x. split; [|exact Hl]. apply reaches_leaf; assumption. }
  destruct x as [ | | b | n | s | kind' props'];
    try (unfold flattenEntry in H; rewrite Hk in H; apply (IH Hsub' m f H)).
  rewrite flattenEntry_group in H by assumption.
  destruct (IH Hsub' _ _ H) as [Hf|Hr]; [|right; exact Hr].
  rewrite flattenObject_flag in Hf. cbn [snd] in Hf. apply orb_true_iff in Hf as [Hf|Hf];
    [left; exact Hf|].
  rewrite List.Forall_forall in children.
  destruct (children _ Hin _ Hf) as (path & leaf & Hreach & Hl).
  right. exists path, leaf. split; [|exact Hl]. eapply reaches_group; eassumption.
Qed.

Lemma flattenObject_flag_sound t :
  forall prefix,
    snd (flattenObject t prefix false) = true ->
    exists path leaf, reaches t prefix path leaf /\ isLegacy leaf = true.
Proof.
  induction t as [ | | b | n | s | kind props IH] using value_nested_ind;
    intros prefix H; try discriminate H.
  rewrite flattenObject_loop in H.
  destruct (fold_flag_sound kind props prefix IH props (fun e He => He) [] false H)
    as [Hf|Hr]; [discriminate Hf | exact Hr].
Qed.

Lemma flattenObject_flag_raised t prefix path leaf :
  reaches t prefix path leaf -> isLegacy leaf = true ->
  forall f, snd (flattenObject t prefix f) = true.
Proof.
  induction 1 as [kind props prefix key leaf Hin Hk Hv
                 | kind props prefix key group path leaf Hin Hk Hv Hreach IH]; intros Hl f.
  - rewrite flattenObject_loop. apply in_split in Hin as (pre & post & ->).
    rewrite fold_left_app. cbn [fold_left].
    destruct (fold_left (fun st e => flattenEntry prefix e st) pre ([], f)) as [m b].
    rewrite flattenEntry_token by assumption. rewrite Hl. apply flatten_fold_raised.
  - rewrite flattenObject_loop. apply in_split in Hin as (pre & post & ->).
    rewrite fold_left_app. cbn [fold_left].
    destruct (fold_left (fun st e => flattenEntry prefix e st) pre ([], f)) as [m b].
    destruct (reaches_object _ _ _ _ Hreach) as (kind' & props' & ->).
    rewrite flattenEntry_group by assumption. rewrite (IH Hl b). apply flatten_fold_raised.
Qed.

(** X9.  The legacy flag.  The traversal never lowers the flag, the
    paths and records it collects do not depend on it, and it leaves the
    flag up exactly when the flag was up or the traversal reaches a token in
    the legacy dialect (one that has [type] or [value] and neither [$type]
    nor [$value]). *)
Theorem legacy_flag_is_raised_by_legacy_tokens t prefix f :
  fst (flattenObject t prefix f) = fst (flattenObject t prefix false)
  /\ (snd (flattenObject t prefix f) = true
      <-> f = true
          \/ exists path leaf, reaches t prefix path leaf /\ isLegacy leaf = true).
Proof.
  split; [rewrite flattenObject_flag; reflexivity|]. split.
  - intros H. rewrite flattenObject_flag in H. cbn [snd] in H.
    apply orb_true_iff in H as [H|H]; [left; exact H | right].
    apply flattenObject_flag_sound, H.
  - intros [->|(path & leaf & Hreach & Hl)].
    + rewrite flattenObject_flag. reflexivity.
    + apply (flattenObject_flag_raised t prefix path leaf Hreach Hl).
Qed.

Lemma legacy_flag_example :
  fst (flattenObject mixedTree EmptyString true) = fst (flattenObject mixedTree EmptyString false)
  /\ snd (flattenObject mixedTree EmptyString false) = true.
Proof.
  split.
  - apply (proj1 (legacy_flag_is_raised_by_legacy_tokens mixedTree EmptyString true)).
  - apply (proj2 (legacy_flag_is_raised_by_legacy_tokens mixedTree EmptyString false)).
    right. exists "Color/Muted", (legacyLeaf (VStr "color") (VStr "#888888") (VStr "grey")).
    split; [|reflexivity].
    apply (reaches_group PlainObject _ EmptyString "Color"
             (Sim.obj [ ("Primary", token "color" (VStr "#FF0000"));
                        ("Muted", legacyLeaf (VStr "color") (VStr "#888888") (VStr "grey")) ])
             "Color/Muted");
      [right; left; reflexivity | reflexivity | reflexivity |].
    apply (reaches_leaf PlainObject _ "Color" "Muted");
      [right; left; reflexivity | reflexivity..].
Defined.

Lemma flattenObject_skips_reserved kind pre key x post prefix f :
  skippedKey key = true ->
  flattenObject (VObj kind (pre ++ (key, x) :: post)) prefix f
  = flattenObject (VObj kind (pre ++ post)) prefix f.
Proof.
  intros H. rewrite !flattenObject_loop, !fold_left_app. cbn [fold_left].
  rewrite flattenEntry_skipped by exact H. reflexivity.
Qed.

(** X10.  Reserved keys.  An entry whose key starts with "_" or "$" is
    invisible to the second revision's traversal, whatever its value (a
    complete token included): the object flattens as it does without the
    entry.  The first revision reserves "_" only: there a token under a key
    that starts with "$" is collected. *)
Theorem reserved_keys_are_invisible kind pre key x post prefix f :
  (skippedKey key = true ->
   flattenObject (VObj kind (pre ++ (key, x) :: post)) prefix f
   = flattenObject (VObj kind (pre ++ post)) prefix f)
  /\ (JsString.startsWith key "_" = false ->
      Rev1.isLeaf x = true ->
      JsMap.get (newKey prefix key)
        (Rev1.flattenObject (VObj kind (pre ++ (key, x) :: post)) prefix) <> None).
Proof.
  split; [apply flattenObject_skips_reserved|].
  intros Hk Hleaf. rewrite Rev1_flattenObject_loop, fold_left_app. cbn [fold_left].
  assert (Hstep : forall m, Rev1.flattenEntry prefix (key, x) m = JsMap.set (newKey prefix key) x m).
  { intros m. unfold Rev1.flattenEntry. rewrite Hk.
    destruct x; try discriminate Hleaf. rewrite Hleaf. reflexivity. }
  rewrite Hstep.
  assert (Hkeep : forall l m path,
             is_Some (JsMap.get path m) ->
             is_Some (JsMap.get path (fold_left (fun st e => Rev1.flattenEntry prefix e st) l m))).
  { induction l as [|[k y] l IH]; intros m path H; [exact H|].
    cbn [fold_left]. apply IH. unfold Rev1.flattenEntry.
    destruct (JsString.startsWith k "_"); [exact H|].
    destruct y; try exact H.
    match goal with
    | |- context [if Rev1.isLeaf ?v then _ else _] => destruct (Rev1.isLeaf v)
    end; [apply get_set_some | apply get_merge_some]; [right | left]; exact H. }
  intros Hnone.
  destruct (Hkeep post (JsMap.set (newKey prefix key) x
                          (fold_left (fun st e => Rev1.flattenEntry prefix e st) pre []))
              (newKey prefix key)) as [r Hr].
  { apply get_set_some. left. reflexivity. }
  rewrite Hr in Hnone. discriminate Hnone.
Qed.

Lemma reserved_keys_example :
  flattenObject
    (VObj PlainObject ([] ++ ("$extra", legacyLeaf (VStr "color") (VStr "#FF0000") (VStr "red"))
                          :: [ ("Primary", token "color" (VStr "#00FF00")) ]))
    EmptyString false
  = flattenObject (VObj PlainObject ([] ++ [ ("Primary", token "color" (VStr "#00FF00")) ]))
      EmptyString false
  /\ JsMap.get (newKey EmptyString "$extra")
       (Rev1.flattenObject
          (VObj PlainObject
             ([] ++ ("$extra", legacyLeaf (VStr "color") (VStr "#FF0000") (VStr "red"))
                 :: [ ("Primary", token "color" (VStr "#00FF00")) ]))
          EmptyString)
     <> None.
Proof.
  split.
  - apply (proj1 (reserved_keys_are_invisible PlainObject [] "$extra"
                    (legacyLeaf (VStr "color") (VStr "#FF0000") (VStr "red"))
                    [ ("Primary", token "color" (VStr "#00FF00")) ] EmptyString false)).
    reflexivity.
  - apply (proj2 (reserved_keys_are_invisible PlainObject [] "$extra"
                    (legacyLeaf (VStr "color") (VStr "#FF0000") (VStr "red"))
                    [ ("Primary", token "color" (VStr "#00FF00")) ] EmptyString false));
      reflexivity.
Defined.

(* ================================================================== *)
(** * Properties: the first declared mode decides the new variables *)
(* ================================================================== *)




(* ================================================================== *)
(** * Properties: a host that refuses a mode *)
(* ================================================================== *)

Lemma renameMode_default cols c id newName vars n :
  Figma.renameMode
    (length cols,
     {| collection_id := c.1; collection_name := c.2;
        collection_modes := [ {| modeId := id; mode_name := "Mode 1" |} ] |})
    id newName
    {| collections :=
         cols ++ [ {| collection_id := c.1; collection_name := c.2;
                      collection_modes := [ {| modeId := id; mode_name := "Mode 1" |} ] |} ];
       variables := vars; allocated := n |}
  = {| collections :=
         cols ++ [ {| collection_id := c.1; collection_name := c.2;
                      collection_modes := [ {| modeId := id; mode_name := newName |} ] |} ];
       variables := vars; allocated := n |}.
Proof.
  unfold Figma.renameMode, Figma.update_at. cbn [fst collections variables allocated].
  rewrite lookup_app_r by lia. rewrite Nat.sub_diag. cbn [lookup list_lookup].
  rewrite insert_app_r_alt by lia. rewrite Nat.sub_diag.
  cbn [collection_id collection_name collection_modes map modeId].
  rewrite String.eqb_refl. reflexivity.
Qed.

Section RefusedMode.

Context {env : Environment}.

Variable e : string.

Hypothesis creates : forall h name, createVariableCollection_error h name = None.
Hypothesis renames : forall h col id newName, renameMode_error h col id newName = None.
Hypothesis refuses : forall h col name, addMode_error h col name = Some e.

(** The first declared mode of a new collection takes the default mode. *)
Lemma registerMode_takes_default cols cid c n vars modeMap first p :
  let default := {| modeId := Figma.mode_id_of n; mode_name := "Mode 1" |} in
  let new := {| collection_id := cid; collection_name := c;
                collection_modes := [ default ] |} in
  exists messages,
    registerMode (length cols, new) c [ default ] modeMap 0 first
      {| host := {| collections := cols ++ [ new ]; variables := vars; allocated := S n |};
         posted := p |}
    = (Ok (<[first := Figma.mode_id_of n]> modeMap),
       {| host :=
            {| collections :=
                 cols ++ [ {| collection_id := cid; collection_name := c;
                              collection_modes :=
                                [ {| modeId := Figma.mode_id_of n; mode_name := first |} ] |} ];
               variables := vars; allocated := S n |};
          posted := p ++ messages |}).
Proof.
  cbv zeta. unfold registerMode, bind, js_find.
  cbn [find_from mode_name].
  destruct (String.eqb_spec "Mode 1" first) as [<-|Hne].
  - cbn [snd modeId]. rewrite mode_id_truthy. exists []. unfold ret.
    rewrite app_nil_r. reflexivity.
  - unfold renameOrAddMode, js_find. cbn [find_from mode_name]. rewrite String.eqb_refl.
    cbn [Nat.eqb snd modeId]. unfold bind, renameMode. rewrite renames.
    unfold hostUpdate, log, postMessage, ret. cbn [host posted snd].
    eexists [ _ ]. f_equal. f_equal.
    apply (renameMode_default cols (cid, c) (Figma.mode_id_of n) first vars (S n)).
Qed.

(** A later declared mode needs a new mode, which the host refuses. *)
Lemma registerMode_refused collection c id modeMap i name s :
  name <> "Mode 1" ->
  registerMode collection c [ {| modeId := id; mode_name := "Mode 1" |} ] modeMap (S i) name s
  = (Throw e, s).
Proof.
  intros Hne. apply String.eqb_neq in Hne. rewrite String.eqb_sym in Hne.
  unfold registerMode, bind, js_find. cbn [find_from mode_name]. rewrite Hne.
  unfold renameOrAddMode, js_find. cbn [find_from mode_name]. rewrite String.eqb_refl.
  cbn [Nat.eqb]. unfold bind, addMode. rewrite refuses. reflexivity.
Qed.

Lemma registerCollection_refused_mode maps c modes first second others s :
  js_find (collectionCalled c) (collections (host s)) = None ->
  JsObject.keys modes = Ok (first :: second :: others) ->
  second <> "Mode 1" ->
  exists messages,
    registerCollection maps (c, modes) s
    = (Throw e,
       {| host :=
            {| collections :=
                 collections (host s)
                 ++ [ {| collection_id := Figma.collection_id_of (allocated (host s));
                         collection_name := c;
                         collection_modes :=
                           [ {| modeId := Figma.mode_id_of (S (allocated (host s)));
                                mode_name := first |} ] |} ];
               variables := variables (host s);
               allocated := S (S (allocated (host s))) |};
          posted := posted s ++ messages |}).
Proof.
  intros Hnone Hkeys Hsecond.
  unfold registerCollection, bind, getLocalVariableCollections.
  fold (collectionCalled c). rewrite Hnone.
  unfold createVariableCollection. rewrite creates.
  unfold hostCall, Figma.createVariableCollection, log, postMessage, ret, lift.
  cbn [host posted fst snd]. rewrite Hkeys. cbn [collection_modes for_fold_counted].
  unfold bind.
  destruct (registerMode_takes_default (collections (host s))
              (Figma.collection_id_of (allocated (host s))) c (S (allocated (host s)))
              (variables (host s)) ∅ first
              (posted s ++ [ MLog INFO ("Creating collection: " ++ c) ])) as (messages & E).
  cbv zeta in E. rewrite E.
  rewrite (registerMode_refused _ c _ _ 0 second _ Hsecond).
  exists (MLog INFO ("Creating collection: " ++ c) :: messages).
  rewrite <- List.app_assoc. reflexivity.
Qed.

End RefusedMode.

(** X12.  A host that refuses a mode.  When the host takes new collections
    and renamings but refuses to add a mode (as on a plan that gives a
    collection one mode), a document whose first collection is new to the
    host and declares a second mode is not imported: the run ends with the
    error of the host, logged and reported.  Nothing is rolled back: the new
    collection stays, with the mode of the first declared name only; no
    variable is made, and the rest of the document is not read. *)
Theorem refused_mode_aborts_import {env : Environment} e kind c modes rest first second others s :
  (forall h name, createVariableCollection_error h name = None) ->
  (forall h col id newName, renameMode_error h col id newName = None) ->
  (forall h col name, addMode_error h col name = Some e) ->
  noneWith (collectionCalled c) (collections (host s)) ->
  JsObject.keys modes = Ok (first :: second :: others) ->
  second <> "Mode 1" ->
  exists messages,
    handleImport (VObj kind ((c, modes) :: rest)) s
    = (Ok tt,
       {| host :=
            {| collections :=
                 collections (host s)
                 ++ [ {| collection_id := Figma.collection_id_of (allocated (host s));
                         collection_name := c;
                         collection_modes :=
                           [ {| modeId := Figma.mode_id_of (S (allocated (host s)));
                                mode_name := first |} ] |} ];
               variables := variables (host s);
               allocated := S (S (allocated (host s))) |};
          posted := posted s ++ messages ++ [ MLog ERROR e; MError e ] |}).
Proof.
  intros Hc Hr Ha Hnone Hkeys Hsecond. apply js_find_none in Hnone.
  rewrite handleImport_outcome. unfold importPasses.
  cbn [JsObject.entries Js.ownProps]. rewrite bind_lift_Ok. cbn [for_fold].
  unfold bind at 1. unfold bind at 1.
  destruct (registerCollection_refused_mode e Hc Hr Ha (∅, ∅) c modes first second others
              (started s) Hnone Hkeys Hsecond) as (messages & E).
  rewrite E. exists (MLog INFO "Starting import..." :: messages).
  unfold failed, started, posting. cbn [host posted].
  rewrite <- !List.app_assoc. reflexivity.
Qed.

Lemma refused_mode_example :
  exists messages,
    handleImport (env := Sim.singleModePlan) (Sim.obj [ ("Brand", lightAndDark) ]) Sim.start
    = (Ok tt,
       {| host :=
            {| collections :=
                 collections (host Sim.start)
                 ++ [ {| collection_id := Figma.collection_id_of (allocated (host Sim.start));
                         collection_name := "Brand";
                         collection_modes :=
                           [ {| modeId := Figma.mode_id_of (S (allocated (host Sim.start)));
                                mode_name := "Light" |} ] |} ];
               variables := variables (host Sim.start);
               allocated := S (S (allocated (host Sim.start))) |};
          posted :=
            posted Sim.start ++ messages
            ++ [ MLog ERROR "Error: in addMode: Limited to 1 modes only";
                 MError "Error: in addMode: Limited to 1 modes only" ] |}).
Proof.
  apply (refused_mode_aborts_import (env := Sim.singleModePlan)
           "Error: in addMode: Limited to 1 modes only" PlainObject "Brand" lightAndDark []
           "Light" "Dark" [] Sim.start).
  - reflexivity.
  - reflexivity.
  - reflexivity.
  - intros x [].
  - reflexivity.
  - discriminate.
Defined.

(** X11.  A host that refuses a collection.  When the first collection of
    the document is new to the host and the host refuses to create it, the
    import stops there: the error of the host is logged and reported, after
    the opening message, and the host is left as it was. *)
Theorem refused_collection_aborts_import {env : Environment} e kind c modes rest s :
  noneWith (collectionCalled c) (collections (host s)) ->
  createVariableCollection_error (host s) c = Some e ->
  handleImport (VObj kind ((c, modes) :: rest)) s
  = (Ok tt,
     {| host := host s;
        posted := posted s ++ [ MLog INFO "Starting import..."; MLog ERROR e; MError e ] |}).
Proof.
  intros Hnone He. apply js_find_none in Hnone.
  rewrite handleImport_outcome. unfold importPasses.
  cbn [JsObject.entries Js.ownProps]. rewrite bind_lift_Ok. cbn [for_fold].
  unfold bind at 1. unfold bind at 1.
  rewrite (registerCollection_refused (∅, ∅) c modes e (started s) Hnone He).
  unfold failed, started, posting. cbn [host posted].
  rewrite <- !List.app_assoc. reflexivity.
Qed.

Lemma refused_collection_example :
  handleImport (env := viewOnly) (Sim.obj [ ("Brand", lightAndDark) ]) brandHost
  = (Ok tt, posting brandHost [ MLog INFO "Starting import...";
                                MLog INFO "Import completed successfully.";
                                MImportSuccess ])
  /\ handleImport (env := viewOnly) (Sim.obj [ ("Brand", lightAndDark) ]) Sim.start
     = (Ok tt,
        {| host := host Sim.start;
           posted :=
             posted Sim.start
             ++ [ MLog INFO "Starting import...";
                  MLog ERROR "Error: in createVariableCollection: read-only file";
                  MError "Error: in createVariableCollection: read-only file" ] |}).
Proof.
  split; [vm_compute; reflexivity|].
  apply (refused_collection_aborts_import (env := viewOnly)
           "Error: in createVariableCollection: read-only file" PlainObject "Brand"
           lightAndDark [] Sim.start).
  - intros x [].
  - reflexivity.
Defined.
